(** * uBASIC: a shallow embedding of ubasic.c

    The interpreter of ubasic.c is translated function by function.  The C
    globals become fields of explicit state records; a function of the model
    receives the smallest state it writes, and reads the rest from read-only
    arguments:

    - the tokenizer cursor and the string workspace ([estate]) are what the
      expression evaluator writes;
    - the variables, the owned strings, the two stacks and the console
      ([istate]) are what the statements write;
    - the line index and [line_num] ([machine]) are written by
      [line_statement] and [ubasic_init] only.

    [exit(1)] after a diagnostic, an access the C standard leaves undefined,
    and an exhausted recursion budget are the three ways a computation stops
    without a value ([halt]). *)

From Stdlib Require Import ZArith Lia List String Bool DecimalString.
From stdpp Require Import base numbers list option.

Open Scope Z_scope.

(** ** What the build supplies

    ubasic.h, tokenizer.h and the C library are not part of ubasic.c.  What
    the interpreter needs from them is gathered here.  [value_t] is printed
    with [%d] in [print_statement], so it is [int]; its width is
    [value_bits].  [memcmp] is the C library's: the standard fixes the sign
    of its result and nothing else. *)

Inductive token : Set :=
  | TOKENIZER_ERROR | TOKENIZER_ENDOFINPUT | TOKENIZER_NUMBER
  | TOKENIZER_STRING | TOKENIZER_INTVAR | TOKENIZER_STRINGVAR
  | TOKENIZER_LET | TOKENIZER_PRINT | TOKENIZER_IF | TOKENIZER_THEN
  | TOKENIZER_ELSE | TOKENIZER_FOR | TOKENIZER_TO | TOKENIZER_NEXT
  | TOKENIZER_STEP | TOKENIZER_GO | TOKENIZER_SUB | TOKENIZER_RETURN
  | TOKENIZER_REM | TOKENIZER_PEEK | TOKENIZER_POKE | TOKENIZER_STOP
  | TOKENIZER_DATA | TOKENIZER_RANDOMIZE | TOKENIZER_OPTION
  | TOKENIZER_BASE | TOKENIZER_INPUT | TOKENIZER_RESTORE | TOKENIZER_TAB
  | TOKENIZER_COMMA | TOKENIZER_SEMICOLON | TOKENIZER_PLUS
  | TOKENIZER_MINUS | TOKENIZER_AND | TOKENIZER_OR | TOKENIZER_ASTR
  | TOKENIZER_SLASH | TOKENIZER_MOD | TOKENIZER_LEFTPAREN
  | TOKENIZER_RIGHTPAREN | TOKENIZER_LT | TOKENIZER_GT | TOKENIZER_EQ
  | TOKENIZER_NE | TOKENIZER_LE | TOKENIZER_GE | TOKENIZER_CR
  | TOKENIZER_ABS | TOKENIZER_INT | TOKENIZER_SGN | TOKENIZER_LEN
  | TOKENIZER_CODE | TOKENIZER_VAL | TOKENIZER_LEFTSTR
  | TOKENIZER_RIGHTSTR | TOKENIZER_MIDSTR | TOKENIZER_CHRSTR.

#[global] Instance token_eq_dec : EqDecision token.
Proof. solve_decision. Defined.

(** The three-way order on byte strings that [memcmp] decides: the first
    position where the two differ settles it; [n] bytes are compared. *)
Fixpoint byte_order (a b : list Z) : Z :=
  match a, b with
  | x :: a', y :: b' =>
      if x <? y then -1 else if y <? x then 1 else byte_order a' b'
  | _, _ => 0
  end.

Class Platform := {
  value_bits : Z;
  STRINGFLAG : Z;
  TOKENIZER_NUMEXP : token -> bool;
  TOKENIZER_STRINGEXP : token -> bool;
  memcmp : list Z -> list Z -> Z
}.

(** What the C standard asks of [memcmp]. *)
Definition conforming (mc : list Z -> list Z -> Z) : Prop :=
  forall a b, length a = length b -> Z.sgn (mc a b) = byte_order a b.

(** ** Outcomes *)

Inductive fault : Set :=
  | OutOfBounds      (* an access outside the object the pointer designates *)
  | UseAfterFree     (* an access to a block already given back to free() *)
  | BadFree          (* free() of something malloc() did not return *)
  | NullCall         (* a call through a hook that was never installed *)
  | Indeterminate.   (* a read of a union member or local never written *)

Inductive diagnostic : Set :=
  | Ubasic (line : Z) (err : string)   (* ubasic_error; line 0 prints no prefix *)
  | TokenizerError                     (* tokenizer_error_print(); exit(1) *)
  | Eof.                               (* fprintf(stderr, "EOF\n"); exit(1) *)

Inductive halt : Set :=
  | Exit (d : diagnostic)
  | Fault (f : fault)
  | OutOfFuel.

Inductive result (A : Type) : Type :=
  | Done (a : A)
  | Halt (h : halt).
Arguments Done {A} a.
Arguments Halt {A} h.

Definition M (S A : Type) : Type := S -> result (A * S).

Definition ret {S A} (a : A) : M S A := fun s => Done (a, s).
Definition bind {S A B} (m : M S A) (k : A -> M S B) : M S B :=
  fun s => match m s with
           | Done (a, s') => k a s'
           | Halt h => Halt h
           end.
Definition stop {S A} (h : halt) : M S A := fun _ => Halt h.
Definition get {S} : M S S := fun s => Done (s, s).
Definition put {S} (s : S) : M S unit := fun _ => Done (tt, s).
Definition gets {S A} (f : S -> A) : M S A := fun s => Done (f s, s).
Definition modify {S} (f : S -> S) : M S unit := fun s => Done (tt, f s).

Notation "'let*' x ':=' m 'in' k" := (bind m (fun x => k))
  (at level 10, x pattern, m at level 100, k at level 200).
Notation "m >>> k" := (bind m (fun _ => k))
  (at level 100, k at level 200, right associativity).

(** Run [m] on a component of a larger state. *)
Definition zoom {S T A} (proj : S -> T) (inj : T -> S -> S) (m : M T A) : M S A :=
  fun s => match m (proj s) with
           | Done (a, t) => Done (a, inj t s)
           | Halt h => Halt h
           end.

Definition the_state {A S} (r : result (A * S)) : option S :=
  match r with Done (_, s) => Some s | Halt _ => None end.
Definition the_value {A S} (r : result (A * S)) : option A :=
  match r with Done (a, _) => Some a | Halt _ => None end.

(** ** Machine integers *)

Section Integers.
Context {PF : Platform}.

(** Arithmetic on [value_t] and [int]: the mathematical result reduced to
    [value_bits] bits, two's complement. *)
Definition wrap (z : Z) : Z :=
  (z + 2 ^ (value_bits - 1)) mod 2 ^ value_bits - 2 ^ (value_bits - 1).

Definition int_add (a b : Z) : Z := wrap (a + b).
Definition int_sub (a b : Z) : Z := wrap (a - b).
Definition int_mul (a b : Z) : Z := wrap (a * b).
Definition int_neg (a : Z) : Z := wrap (- a).
Definition int_div (a b : Z) : Z := wrap (Z.quot a b).
Definition int_rem (a b : Z) : Z := wrap (Z.rem a b).

(** Conversion to [uint8_t]. *)
Definition to_uint8 (z : Z) : Z := z mod 256.

Definition of_bool (b : bool) : Z := if b then 1 else 0.

End Integers.

(** ** The tokenizer

    tokenizer.c is a collaborator outside ubasic.c; the interpreter uses it
    through the calls below. *)

(** Modelled from the spec: the tokenizer (tokenizer.c is missing).  It
    "supplies the current token, its decoded payload (number, variable
    identifier, string literal), and source-position bookmarks; supports
    saving/restoring position and an unindexed jump to an arbitrary
    bookmark".  A program is the sequence of its tokens, each with its
    payloads; a source position is an index into that sequence; the end of
    the sequence reads as [TOKENIZER_ENDOFINPUT]. *)
Record lexeme : Set := Lexeme {
  lx_token : token;
  lx_num : Z;             (* tokenizer_num() *)
  lx_var : Z;             (* tokenizer_variable_num() *)
  lx_string : list Z      (* tokenizer_string(), tokenizer_string_len() *)
}.

Record tokenizer : Set := Tokenizer {
  program : list lexeme;  (* program_ptr *)
  ptr : nat;              (* the cursor *)
  pushed : nat            (* the position kept by tokenizer_push() *)
}.

Definition at_cursor (t : tokenizer) : option lexeme := program t !! ptr t.

(** Modelled from the spec: "current token identity". *)
Definition tokenizer_token (t : tokenizer) : token :=
  match at_cursor t with
  | Some l => lx_token l
  | None => TOKENIZER_ENDOFINPUT
  end.

(** Modelled from the spec: "decoded number ... payload ... for the current
    token". *)
Definition tokenizer_num (t : tokenizer) : Z :=
  match at_cursor t with Some l => lx_num l | None => 0 end.

(** Modelled from the spec: "decoded ... variable-id ... payload". *)
Definition tokenizer_variable_num (t : tokenizer) : Z :=
  match at_cursor t with Some l => lx_var l | None => 0 end.

(** Modelled from the spec: "decoded ... string payload and length". *)
Definition tokenizer_string (t : tokenizer) : list Z :=
  match at_cursor t with Some l => lx_string l | None => [] end.
Definition tokenizer_string_len (t : tokenizer) : Z :=
  Z.of_nat (length (tokenizer_string t)).

(** Modelled from the spec: "end-of-input query". *)
Definition tokenizer_finished (t : tokenizer) : bool :=
  bool_decide (tokenizer_token t = TOKENIZER_ENDOFINPUT).

Definition set_ptr (p : nat) (t : tokenizer) : tokenizer :=
  {| program := program t; ptr := p; pushed := pushed t |}.

(** Modelled from the spec: "advance to next token"; nothing lies beyond
    the end of input. *)
Definition tokenizer_next (t : tokenizer) : tokenizer :=
  if tokenizer_finished t then t else set_ptr (S (ptr t)) t.

(** Modelled from the spec: "raw source position bookmark" and "jump to a
    bookmark". *)
Definition tokenizer_pos (t : tokenizer) : nat := ptr t.
Definition tokenizer_goto (pos : nat) (t : tokenizer) : tokenizer := set_ptr pos t.

(** Modelled from the spec: "reinitialize from a given source pointer";
    ubasic.c only ever passes [program_ptr]. *)
Definition tokenizer_init (t : tokenizer) : tokenizer := set_ptr 0%nat t.

(** Modelled from the spec: "save/restore position (used to evaluate a
    RESTORE n target without disturbing the main cursor)". *)
Definition tokenizer_push (t : tokenizer) : tokenizer :=
  {| program := program t; ptr := ptr t; pushed := ptr t |}.
Definition tokenizer_pop (t : tokenizer) : tokenizer := set_ptr (pushed t) t.

(** Modelled from the spec: REM "skips to end of line": the cursor moves
    past the next end-of-line token. *)
Fixpoint skip_line (l : list lexeme) (p : nat) : nat :=
  match l with
  | [] => p
  | x :: l' => if decide (lx_token x = TOKENIZER_CR) then S p else skip_line l' (S p)
  end.
Definition tokenizer_newline (t : tokenizer) : tokenizer :=
  set_ptr (skip_line (drop (ptr t) (program t)) (ptr t)) t.

(** Lexemes of a program text, for writing programs down. *)
Definition K (k : token) : lexeme := Lexeme k 0 0 [].
Definition Num (n : Z) : lexeme := Lexeme TOKENIZER_NUMBER n 0 [].
Definition IntVar (v : Z) : lexeme := Lexeme TOKENIZER_INTVAR 0 v [].
Definition StrVar (v : Z) : lexeme := Lexeme TOKENIZER_STRINGVAR 0 v [].
Definition bytes (s : string) : list Z :=
  map (fun c => Z.of_N (Ascii.N_of_ascii c)) (list_ascii_of_string s).
Definition Str (s : string) : lexeme := Lexeme TOKENIZER_STRING 0 0 (bytes s).
Definition CR : lexeme := K TOKENIZER_CR.

(** ** Values and memory *)

(** Where a [uint8_t *] of the interpreter can point: at [nullstr], into
    [stringblob], at a block malloc() returned, or at the local [buf] of
    [input_statement]. *)
Inductive pointer : Set :=
  | Pnullstr
  | Pblob (off : Z)
  | Pheap (b : nat)
  | Pbuf.

#[global] Instance pointer_eq_dec : EqDecision pointer.
Proof. solve_decision. Defined.

(** [TYPE_INTEGER] is ['I'] and [TYPE_STRING] is ['S']: [funcexpr] compares
    [type] with the letters of its signature string. *)
Inductive vtype : Set := TYPE_INTEGER | TYPE_STRING.

#[global] Instance vtype_eq_dec : EqDecision vtype.
Proof. solve_decision. Defined.

(** [struct typevalue]: a tag and a union; the union holds the member that
    was written last. *)
Inductive payload : Set :=
  | d_i (i : Z)
  | d_p (p : pointer).

Record typevalue : Set := Typevalue { type : vtype; d : payload }.

Definition MAX_GOSUB_STACK_DEPTH : nat := 10.
Definition MAX_FOR_STACK_DEPTH : nat := 4.
Definition MAX_VARNUM : Z := 26 * 11.
Definition MAX_STRING : nat := 26.
Definition sizeof_stringblob : Z := 512.

(** The heap: block [b] is [heap !! b]; a freed block stays in the list as
    [None], so a block number is never handed out twice.  [heap_room] is
    what malloc() can still give. *)
Record store : Set := Store {
  variables : list Z;                 (* value_t variables[MAX_VARNUM] *)
  strings : list pointer;             (* uint8_t *strings[MAX_STRING] *)
  heap : list (option (list Z));
  heap_room : Z;
  buf : list Z                        (* char buf[129] of input_statement *)
}.

(** What the expression evaluator writes. *)
Record estate : Set := Estate {
  tz : tokenizer;
  stringblob : list Z;                (* uint8_t stringblob[512] *)
  nextstr : Z                         (* nextstr - stringblob *)
}.

(** What the statements read and never write: the line index (an
    association list in insertion order), the line being run, the hooks. *)
Record context : Type := Context {
  line_index : list (Z * nat);
  line_num : Z;
  peek_function : option (Z -> Z);
  poke_function : bool                (* installed, or NULL *)
}.

Definition lift {S A} (r : result A) : M S A :=
  fun s => match r with Done a => Done (a, s) | Halt h => Halt h end.

(** The bytes between [off] and [off + n] of an array, when they exist. *)
Definition slice (l : list Z) (off n : Z) : result (list Z) :=
  if (0 <=? off) && (0 <=? n) && (off + n <=? Z.of_nat (length l))
  then Done (take (Z.to_nat n) (drop (Z.to_nat off) l))
  else Halt (Fault OutOfBounds).

(** The length-prefixed buffer a string pointer designates: the length byte
    and the bytes it announces. *)
Definition buffer_of (sto : store) (blob : list Z) (p : pointer) : result (list Z) :=
  match p with
  | Pnullstr => Done [0]
  | Pblob off =>
      match slice blob off 1 with
      | Done [len] => slice blob off (len + 1)
      | _ => Halt (Fault OutOfBounds)
      end
  | Pheap b =>
      match heap sto !! b with
      | Some (Some bs) => Done bs
      | Some None => Halt (Fault UseAfterFree)
      | None => Halt (Fault OutOfBounds)
      end
  | Pbuf => Done (buf sto)
  end.

(** [p[i]] for a string pointer [p]. *)
Definition byte_at (bs : list Z) (i : Z) : result Z :=
  match slice bs i 1 with
  | Done [x] => Done x
  | _ => Halt (Fault OutOfBounds)
  end.

(** The source side of [memcpy(_, p + off, n)]: [n] is converted to
    [size_t], so a negative count asks for more than any object holds. *)
Definition memcpy_from (bs : list Z) (off n : Z) : result (list Z) :=
  if n =? 0 then Done [] else slice bs off n.

(** The destination side of [memcpy(stringblob + off, _, _)]. *)
Definition blob_store (blob : list Z) (off : Z) (bs : list Z) : result (list Z) :=
  if (0 <=? off) && (off + Z.of_nat (length bs) <=? Z.of_nat (length blob))
  then Done (take (Z.to_nat off) blob ++ bs ++ drop (Z.to_nat off + length bs) blob)
  else Halt (Fault OutOfBounds).

Definition syntax : string := "Syntax".
Definition badtype : string := "Type mismatch".
Definition divzero : string := "Division by zero".
Definition outofmemory : string := "Out of memory".

(** [ubasic_error]: the diagnostic, then [exit(1)]. *)
Definition ubasic_error {S A} (cx : context) (err : string) : M S A :=
  stop (Exit (Ubasic (line_num cx) err)).

Definition set_tz (t : tokenizer) (e : estate) : estate :=
  {| tz := t; stringblob := stringblob e; nextstr := nextstr e |}.
Definition set_stringblob (b : list Z) (e : estate) : estate :=
  {| tz := tz e; stringblob := b; nextstr := nextstr e |}.
Definition set_nextstr (n : Z) (e : estate) : estate :=
  {| tz := tz e; stringblob := stringblob e; nextstr := n |}.

(** [a[i]] and [a[i] = x] for a C array. *)
Definition array_get {A} (a : list A) (i : Z) : result A :=
  if i <? 0 then Halt (Fault OutOfBounds) else
  match a !! Z.to_nat i with
  | Some x => Done x
  | None => Halt (Fault OutOfBounds)
  end.
Definition array_set {A} (a : list A) (i : Z) (x : A) : result (list A) :=
  if (0 <=? i) && (i <? Z.of_nat (length a)) then Done (<[Z.to_nat i := x]> a)
  else Halt (Fault OutOfBounds).

(** Reading a member of the union. *)
Definition read_i {S} (v : typevalue) : M S Z :=
  match d v with d_i i => ret i | d_p _ => stop (Fault Indeterminate) end.
Definition read_p {S} (v : typevalue) : M S pointer :=
  match d v with d_p p => ret p | d_i _ => stop (Fault Indeterminate) end.

Definition integer (i : Z) : typevalue := Typevalue TYPE_INTEGER (d_i i).
Definition string_ (off : Z) : typevalue := Typevalue TYPE_STRING (d_p (Pblob off)).

Definition typecheck_int {S} (cx : context) (v : typevalue) : M S unit :=
  if decide (type v <> TYPE_INTEGER) then ubasic_error cx badtype else ret tt.

Definition typecheck_string {S} (cx : context) (v : typevalue) : M S unit :=
  if decide (type v <> TYPE_STRING) then ubasic_error cx badtype else ret tt.

Definition typecheck_same {S} (cx : context) (l r : typevalue) : M S unit :=
  if decide (type l <> type r) then ubasic_error cx badtype else ret tt.

(** ** The expression evaluator *)

Section Evaluator.
Context {PF : Platform}.
Variable cx : context.
Variable sto : store.

#[local] Abbreviation E := (M estate).

Definition token_now : E token := gets (fun e => tokenizer_token (tz e)).
Definition next_token : E unit := modify (fun e => set_tz (tokenizer_next (tz e)) e).

Definition accept_tok (tk : token) : E token :=
  let* t := token_now in
  if decide (tk <> t) then stop (Exit TokenizerError)
  else next_token >>> token_now.

Definition accept_either (tok1 tok2 : token) : E token :=
  let* t := token_now in
  (if decide (t = tok2) then accept_tok tok2 else accept_tok tok1) >>>
  ret t.

(** The buffer behind a string pointer, as memory stands now. *)
Definition string_at (p : pointer) : E (list Z) :=
  let* e := get in lift (buffer_of sto (stringblob e) p).

(** [memcpy(stringblob + off, _, _)] and [stringblob[off] = x]. *)
Definition blob_write (off : Z) (bs : list Z) : E unit :=
  let* e := get in
  let* b := lift (blob_store (stringblob e) off bs) in
  put (set_stringblob b e).

(** [string_temp] returns [stringblob + off]; the model returns [off]. *)
Definition string_temp (len : Z) : E Z :=
  let* p := gets nextstr in
  if len >? 255 then ubasic_error cx "String too long" else
  modify (set_nextstr (p + (len + 1))) >>>
  let* nx := gets nextstr in
  if nx >? sizeof_stringblob then ubasic_error cx "Out of temporary space" else
  blob_write p [to_uint8 len] >>>
  ret p.

Definition string_temp_free : E unit := modify (set_nextstr 0).

Definition string_cut (t : typevalue) (l n : Z) : E typevalue :=
  let* p := read_p t in
  let* src := string_at p in
  let* f := lift (byte_at src 0) in
  (* Strings start at 1 ... *)
  if l >? f then                (* Nothing to cut *)
    let* o := string_temp 0 in
    ret (string_ o)
  else
    let f := int_sub f (int_sub l 1) in
    let n := if f <? n then f else n in
    let* o := string_temp n in
    let* src := string_at p in
    let* bs := lift (memcpy_from src l n) in
    blob_write (o + 1) bs >>>
    ret (string_ o).

Definition string_cut_r (t : typevalue) (r : Z) : E typevalue :=
  let* p := read_p t in
  let* src := string_at p in
  let* f := lift (byte_at src 0) in
  let f := int_sub f r in
  if f <=? 0 then
    let* o := string_temp 0 in
    ret (string_ o)
  else
    string_cut t (int_add f 1) r.

Definition isdigit (c : Z) : bool := (48 <=? c) && (c <=? 57).

(** The digit loop of [string_val]: [l] bytes are left, [i] is [p - t->d.p]. *)
Fixpoint string_val_digits (src : list Z) (l : nat) (i : Z) (n : Z) : E Z :=
  match l with
  | O => ret n
  | S l' =>
      let* c := lift (byte_at src i) in
      if negb (isdigit c) then ubasic_error cx badtype
      else string_val_digits src l' (i + 1) (int_sub (int_add (int_mul 10 n) c) 48)
  end.

Definition string_val (t : typevalue) : E Z :=
  let* p := read_p t in
  let* src := string_at p in
  let* l := lift (byte_at src 0) in
  let* c := lift (byte_at src 1) in
  let neg := c =? 45 in
  let i := if neg then 2 else 1 in
  let l := if neg then to_uint8 (l - 1) else l in
  if l =? 0 then ubasic_error cx badtype else
  let* n := string_val_digits src (Z.to_nat l) i 0 in
  ret (if neg then int_neg n else n).

Definition ubasic_get_variable (varnum : Z) : E typevalue :=
  if negb (Z.land varnum STRINGFLAG =? 0) then
    let* p := lift (array_get (strings sto) (Z.land varnum (Z.lnot STRINGFLAG))) in
    ret (Typevalue TYPE_STRING (d_p p))
  else if (0 <=? varnum) && (varnum <=? MAX_VARNUM) then
    let* i := lift (array_get (variables sto) varnum) in
    ret (integer i)
  else ubasic_error cx "badv".

Definition set_i (v : typevalue) (i : Z) : typevalue := Typevalue (type v) (d_i i).
Definition set_p (v : typevalue) (p : pointer) : typevalue := Typevalue (type v) (d_p p).

(** The loop of [funcexpr]: one expression per letter of the signature, a
    comma between two of them. *)
Fixpoint funcexpr_args (expr : E typevalue) (f : list vtype) : E (list typevalue) :=
  match f with
  | [] => ret []
  | ty :: f' =>
      let* t := expr in
      if decide (ty <> type t) then ubasic_error cx badtype else
      (match f' with [] => ret tt | _ => accept_tok TOKENIZER_COMMA >>> ret tt end) >>>
      let* ts := funcexpr_args expr f' in
      ret (t :: ts)
  end.

Definition funcexpr (expr : E typevalue) (f : list vtype) : E (list typevalue) :=
  accept_tok TOKENIZER_LEFTPAREN >>>
  let* ts := funcexpr_args expr f in
  accept_tok TOKENIZER_RIGHTPAREN >>>
  ret ts.

(** [arg[k]]; an entry [funcexpr] did not fill was never written. *)
Definition arg (ts : list typevalue) (k : nat) : E typevalue :=
  match ts !! k with Some t => ret t | None => stop (Fault Indeterminate) end.

Definition varfactor : E typevalue :=
  let* n := gets (fun e => tokenizer_variable_num (tz e)) in
  let* v := ubasic_get_variable n in
  accept_either TOKENIZER_INTVAR TOKENIZER_STRINGVAR >>>
  ret v.

Definition I_ : list vtype := [TYPE_INTEGER].
Definition S_ : list vtype := [TYPE_STRING].
Definition SI_ : list vtype := [TYPE_STRING; TYPE_INTEGER].
Definition SII_ : list vtype := [TYPE_STRING; TYPE_INTEGER; TYPE_INTEGER].

(** [factor]; its calls of [expr] go to the argument. *)
Definition factor (expr : E typevalue) : E typevalue :=
  let* t := token_now in
  match t with
  | TOKENIZER_STRING =>
      let* len := gets (fun e => tokenizer_string_len (tz e)) in
      let* o := string_temp len in
      let* s := gets (fun e => tokenizer_string (tz e)) in
      blob_write (o + 1) s >>>
      accept_tok TOKENIZER_STRING >>>
      ret (string_ o)
  | TOKENIZER_NUMBER =>
      let* n := gets (fun e => tokenizer_num (tz e)) in
      accept_tok TOKENIZER_NUMBER >>>
      ret (integer n)
  | TOKENIZER_LEFTPAREN =>
      accept_tok TOKENIZER_LEFTPAREN >>>
      let* v := expr in
      accept_tok TOKENIZER_RIGHTPAREN >>>
      ret v
  | TOKENIZER_INTVAR | TOKENIZER_STRINGVAR => varfactor
  | _ =>
      if TOKENIZER_NUMEXP t then
        accept_tok t >>>
        let* i :=
          match t with
          | TOKENIZER_PEEK =>
              let* ts := funcexpr expr I_ in
              let* a := arg ts 0 in let* x := read_i a in
              match peek_function cx with
              | Some peek => ret (peek x)
              | None => stop (Fault NullCall)
              end
          | TOKENIZER_ABS =>
              let* ts := funcexpr expr I_ in
              let* a := arg ts 0 in let* x := read_i a in
              ret (if x <? 0 then int_neg x else x)
          | TOKENIZER_INT =>
              let* ts := funcexpr expr I_ in
              let* a := arg ts 0 in read_i a
          | TOKENIZER_SGN =>
              let* ts := funcexpr expr I_ in
              let* a := arg ts 0 in let* x := read_i a in
              let x := if x >? 1 then 1 else x in
              ret (if x <? 0 then -1 else x)
          | TOKENIZER_LEN =>
              let* ts := funcexpr expr S_ in
              let* a := arg ts 0 in let* p := read_p a in
              let* src := string_at p in
              lift (byte_at src 0)
          | TOKENIZER_CODE =>
              let* ts := funcexpr expr S_ in
              let* a := arg ts 0 in let* p := read_p a in
              let* src := string_at p in
              let* l := lift (byte_at src 0) in
              if negb (l =? 0) then lift (byte_at src 1) else ret 0
          | TOKENIZER_VAL =>
              let* ts := funcexpr expr S_ in
              let* a := arg ts 0 in
              string_val a
          | _ => ubasic_error cx syntax
          end in
        ret (integer i)
      else if TOKENIZER_STRINGEXP t then
        accept_tok t >>>
        match t with
        | TOKENIZER_LEFTSTR =>
            let* ts := funcexpr expr SI_ in
            let* a0 := arg ts 0 in let* a1 := arg ts 1 in
            let* n := read_i a1 in
            string_cut a0 1 n
        | TOKENIZER_RIGHTSTR =>
            let* ts := funcexpr expr SI_ in
            let* a0 := arg ts 0 in let* a1 := arg ts 1 in
            let* n := read_i a1 in
            string_cut_r a0 n
        | TOKENIZER_MIDSTR =>
            let* ts := funcexpr expr SII_ in
            let* a0 := arg ts 0 in let* a1 := arg ts 1 in let* a2 := arg ts 2 in
            let* l := read_i a1 in let* n := read_i a2 in
            string_cut a0 l n
        | TOKENIZER_CHRSTR =>
            let* ts := funcexpr expr I_ in
            let* a := arg ts 0 in let* x := read_i a in
            let* o := string_temp 2 in
            blob_write (o + 1) [to_uint8 x] >>>
            ret (string_ o)
        | _ => ubasic_error cx syntax
        end
      else ubasic_error cx syntax
  end.

(** The body of the loop of [term], once both factors are there. *)
Definition term_step (op : token) (v f2 : typevalue) : E typevalue :=
  typecheck_int cx v >>>
  typecheck_int cx f2 >>>
  let* a := read_i v in
  let* b := read_i f2 in
  match op with
  | TOKENIZER_ASTR => ret (set_i v (int_mul a b))
  | TOKENIZER_SLASH =>
      if b =? 0 then ubasic_error cx divzero else ret (set_i v (int_div a b))
  | TOKENIZER_MOD =>
      if b =? 0 then ubasic_error cx divzero else ret (set_i v (int_rem a b))
  | _ => ret v
  end.

Definition is_term_op (op : token) : bool :=
  match op with
  | TOKENIZER_ASTR | TOKENIZER_SLASH | TOKENIZER_MOD => true
  | _ => false
  end.

Fixpoint term_loop (fuel : nat) (factor : E typevalue) (v : typevalue) : E typevalue :=
  let* op := token_now in
  if is_term_op op then
    match fuel with
    | O => stop OutOfFuel
    | S fuel' =>
        next_token >>>
        let* f2 := factor in
        let* v := term_step op v f2 in
        term_loop fuel' factor v
    end
  else ret v.

Definition term_ (fuel : nat) (factor : E typevalue) : E typevalue :=
  let* v := factor in
  term_loop fuel factor v.

(** The body of the loop of [expr], once both terms are there. *)
Definition expr_step (op : token) (v t2 : typevalue) : E typevalue :=
  (if decide (op <> TOKENIZER_PLUS) then typecheck_int cx v else ret tt) >>>
  typecheck_same cx v t2 >>>
  match op with
  | TOKENIZER_PLUS =>
      if decide (type v = TYPE_INTEGER) then
        let* a := read_i v in
        let* b := read_i t2 in
        ret (set_i v (int_add a b))
      else
        let* pv := read_p v in
        let* sv := string_at pv in
        let* l := lift (byte_at sv 0) in
        let* pt := read_p t2 in
        let* st := string_at pt in
        let* l2 := lift (byte_at st 0) in
        let* p := string_temp (l + l2) in
        let* sv := string_at pv in
        let* b1 := lift (memcpy_from sv 1 l) in
        blob_write (p + 1) b1 >>>
        let* st := string_at pt in
        let* l2 := lift (byte_at st 0) in
        let* b2 := lift (memcpy_from st 1 l2) in
        blob_write (p + l + 1) b2 >>>
        ret (set_p v (Pblob p))
  | TOKENIZER_MINUS =>
      let* a := read_i v in
      let* b := read_i t2 in
      ret (set_i v (int_sub a b))
  | TOKENIZER_AND =>
      let* a := read_i v in
      let* b := read_i t2 in
      ret (set_i v (Z.land a b))
  | TOKENIZER_OR =>
      let* a := read_i v in
      let* b := read_i t2 in
      ret (set_i v (Z.lor a b))
  | _ => ret v
  end.

Definition is_expr_op (op : token) : bool :=
  match op with
  | TOKENIZER_PLUS | TOKENIZER_MINUS | TOKENIZER_AND | TOKENIZER_OR => true
  | _ => false
  end.

Fixpoint expr_loop (fuel : nat) (term : E typevalue) (v : typevalue) : E typevalue :=
  let* op := token_now in
  if is_expr_op op then
    match fuel with
    | O => stop OutOfFuel
    | S fuel' =>
        next_token >>>
        let* t2 := term in
        let* v := expr_step op v t2 in
        expr_loop fuel' term v
    end
  else ret v.

Definition expr_ (fuel : nat) (term : E typevalue) : E typevalue :=
  let* v := term in
  expr_loop fuel term v.

(** [expr], [term] and [factor] call one another; [fuel] bounds the depth
    of the calls and the turns of each loop. *)
Fixpoint expr (fuel : nat) : E typevalue :=
  match fuel with
  | O => stop OutOfFuel
  | S fuel' => expr_ fuel' (term_ fuel' (factor (expr fuel')))
  end.

Definition term (fuel : nat) : E typevalue := term_ fuel (factor (expr fuel)).

Definition bracketed_expr (fuel : nat) : E typevalue :=
  accept_tok TOKENIZER_LEFTPAREN >>>
  let* v := expr fuel in
  accept_tok TOKENIZER_RIGHTPAREN >>>
  ret v.

Definition bracketed_intexpr (fuel : nat) : E Z :=
  let* v := bracketed_expr fuel in
  typecheck_int cx v >>>
  read_i v.

(** The three-way comparison of two strings in [relation]. *)
Definition string_compare (r1 r2 : typevalue) : E Z :=
  let* p1 := read_p r1 in
  let* s1 := string_at p1 in
  let* l1 := lift (byte_at s1 0) in
  let* p2 := read_p r2 in
  let* s2 := string_at p2 in
  let* l2 := lift (byte_at s2 0) in
  let n := if l2 <? l1 then l2 else l1 in
  let* b1 := lift (memcpy_from s1 1 n) in
  let* b2 := lift (memcpy_from s2 1 n) in
  let n := memcmp b1 b2 in
  ret (if n =? 0 then
         if l1 >? l2 then 1 else if l1 <? l2 then -1 else n
       else n).

(** The body of the loop of [relation], once both sides are there. *)
Definition relation_step (op : token) (r1 r2 : typevalue) : E typevalue :=
  typecheck_same cx r1 r2 >>>
  if decide (type r1 = TYPE_INTEGER) then
    let* a := read_i r1 in
    let* b := read_i r2 in
    match op with
    | TOKENIZER_LT => ret (set_i r1 (of_bool (a <? b)))
    | TOKENIZER_GT => ret (set_i r1 (of_bool (a >? b)))
    | TOKENIZER_EQ => ret (set_i r1 (of_bool (a =? b)))
    | TOKENIZER_LE => ret (set_i r1 (of_bool (a <=? b)))
    | TOKENIZER_GE => ret (set_i r1 (of_bool (a >=? b)))
    | TOKENIZER_NE => ret (set_i r1 (of_bool (negb (a =? b))))
    | _ => ret r1
    end
  else
    let* n := string_compare r1 r2 in
    let n :=
      match op with
      | TOKENIZER_LT => of_bool (n =? -1)
      | TOKENIZER_GT => of_bool (n =? 1)
      | TOKENIZER_EQ => of_bool (n =? 0)
      | TOKENIZER_LE => of_bool (negb (n =? 1))
      | TOKENIZER_GE => of_bool (negb (n =? -1))
      | TOKENIZER_NE => of_bool (negb (n =? 0))
      | _ => n
      end in
    ret (set_i r1 n).

Definition is_relation_op (op : token) : bool :=
  match op with
  | TOKENIZER_LT | TOKENIZER_GT | TOKENIZER_EQ
  | TOKENIZER_NE | TOKENIZER_LE | TOKENIZER_GE => true
  | _ => false
  end.

Fixpoint relation_loop (fuel : nat) (r1 : typevalue) : E typevalue :=
  let* op := token_now in
  if is_relation_op op then
    match fuel with
    | O => stop OutOfFuel
    | S fuel' =>
        next_token >>>
        let* r2 := expr fuel in
        let* r1 := relation_step op r1 r2 in
        relation_loop fuel' r1
    end
  else ret r1.

Definition relation (fuel : nat) : E typevalue :=
  let* r1 := expr fuel in
  let* r1 := relation_loop fuel r1 in
  ret (Typevalue TYPE_INTEGER (d r1)).

Definition intexpr (fuel : nat) : E Z :=
  let* t := expr fuel in
  typecheck_int cx t >>>
  read_i t.

Definition stringexpr (fuel : nat) : E pointer :=
  let* t := expr fuel in
  typecheck_string cx t >>>
  read_p t.

End Evaluator.

(** ** The interpreter state *)

Record for_state : Set := For_state {
  line_after_for : Z;
  for_variable : Z;
  to : Z;
  step : Z
}.

Record control : Set := Control {
  gosub_stack : list Z;               (* line_t gosub_stack[10] *)
  gosub_stack_ptr : nat;
  for_stack : list for_state;         (* struct for_state for_stack[4] *)
  for_stack_ptr : nat
}.

Record console : Set := Console {
  chpos : Z;
  stdout : list Z;                    (* what putchar and printf wrote *)
  stdin : list Z                      (* what fgets has not read yet *)
}.

Record istate : Set := Istate {
  es : estate;
  sto : store;
  ctl : control;
  con : console;
  ended : Z;
  poked : list (Z * Z);               (* the calls of poke_function *)
  data_position : nat;
  data_seek : Z;
  array_base : Z
}.

Definition set_es (e : estate) (s : istate) : istate :=
  Istate e (sto s) (ctl s) (con s) (ended s) (poked s)
         (data_position s) (data_seek s) (array_base s).
Definition set_sto (x : store) (s : istate) : istate :=
  Istate (es s) x (ctl s) (con s) (ended s) (poked s)
         (data_position s) (data_seek s) (array_base s).
Definition set_ctl (x : control) (s : istate) : istate :=
  Istate (es s) (sto s) x (con s) (ended s) (poked s)
         (data_position s) (data_seek s) (array_base s).
Definition set_con (x : console) (s : istate) : istate :=
  Istate (es s) (sto s) (ctl s) x (ended s) (poked s)
         (data_position s) (data_seek s) (array_base s).
Definition set_ended (x : Z) (s : istate) : istate :=
  Istate (es s) (sto s) (ctl s) (con s) x (poked s)
         (data_position s) (data_seek s) (array_base s).
Definition set_poked (x : list (Z * Z)) (s : istate) : istate :=
  Istate (es s) (sto s) (ctl s) (con s) (ended s) x
         (data_position s) (data_seek s) (array_base s).
Definition set_data (pos : nat) (seek : Z) (s : istate) : istate :=
  Istate (es s) (sto s) (ctl s) (con s) (ended s) (poked s)
         pos seek (array_base s).
Definition set_array_base (x : Z) (s : istate) : istate :=
  Istate (es s) (sto s) (ctl s) (con s) (ended s) (poked s)
         (data_position s) (data_seek s) x.

Definition set_variables (v : list Z) (x : store) : store :=
  Store v (strings x) (heap x) (heap_room x) (buf x).
Definition set_strings (v : list pointer) (x : store) : store :=
  Store (variables x) v (heap x) (heap_room x) (buf x).
Definition set_buf (v : list Z) (x : store) : store :=
  Store (variables x) (strings x) (heap x) (heap_room x) v.

(** ** malloc and free *)

(** [malloc(n)]: a block never seen before, or NULL when the heap has no
    room for it. *)
Definition malloc (n : Z) (x : store) : option (nat * store) :=
  if n <=? heap_room x then
    Some (length (heap x),
          Store (variables x) (strings x)
                (heap x ++ [Some (replicate (Z.to_nat n) 0)])
                (heap_room x - n) (buf x))
  else None.

(** [free(p)] *)
Definition free (p : pointer) (x : store) : result store :=
  match p with
  | Pheap b =>
      match heap x !! b with
      | Some (Some bs) =>
          Done (Store (variables x) (strings x) (<[b := None]> (heap x))
                      (heap_room x + Z.of_nat (length bs)) (buf x))
      | Some None => Halt (Fault UseAfterFree)
      | None => Halt (Fault BadFree)
      end
  | _ => Halt (Fault BadFree)
  end.

(** [memcpy(b, _, _)] into a live block [b], from its first byte on. *)
Definition heap_store (b : nat) (bs : list Z) (x : store) : result store :=
  match heap x !! b with
  | Some (Some old) =>
      if (length bs <=? length old)%nat then
        Done (Store (variables x) (strings x)
                    (<[b := Some (bs ++ drop (length bs) old)]> (heap x))
                    (heap_room x) (buf x))
      else Halt (Fault OutOfBounds)
  | Some None => Halt (Fault UseAfterFree)
  | None => Halt (Fault OutOfBounds)
  end.

(** ** The line index and the jumps

    [line_t] comes from ubasic.h; line numbers are taken to fit it, so a
    number stored in the index or on a stack is read back unchanged. *)

Definition index_free (idx : list (Z * nat)) : list (Z * nat) := [].

Fixpoint index_find (idx : list (Z * nat)) (linenum : Z) : option nat :=
  match idx with
  | [] => None
  | (n, pos) :: rest => if n =? linenum then Some pos else index_find rest linenum
  end.

(** A new entry goes behind [line_index_current], the last one. *)
Definition index_add (linenum : Z) (sourcepos : nat) (idx : list (Z * nat)) : list (Z * nat) :=
  match idx, index_find idx linenum with
  | _ :: _, Some _ => idx
  | _, _ => idx ++ [(linenum, sourcepos)]
  end.

Definition at_eol (t : tokenizer) : bool :=
  bool_decide (tokenizer_token t = TOKENIZER_CR) ||
  bool_decide (tokenizer_token t = TOKENIZER_ENDOFINPUT).

(** The innermost loop of [jump_linenum_slow]: on to the end of the line. *)
Fixpoint skip_to_eol (fuel : nat) (t : tokenizer) : result tokenizer :=
  let t := tokenizer_next t in
  if at_eol t then Done t
  else match fuel with
       | O => Halt OutOfFuel
       | S fuel' => skip_to_eol fuel' t
       end.

(** The middle loop: on to the next line that starts with a number. *)
Fixpoint next_numbered_line (fuel : nat) (t : tokenizer) : result tokenizer :=
  match skip_to_eol fuel t with
  | Halt h => Halt h
  | Done t =>
      let t := if decide (tokenizer_token t = TOKENIZER_CR)
               then tokenizer_next t else t in
      if decide (tokenizer_token t <> TOKENIZER_NUMBER) then
        match fuel with
        | O => Halt OutOfFuel
        | S fuel' => next_numbered_line fuel' t
        end
      else Done t
  end.

(** The outer loop: until the line number under the cursor is [linenum]. *)
Fixpoint scan_for_line (fuel : nat) (linenum : Z) (t : tokenizer) : result tokenizer :=
  if negb (tokenizer_num t =? linenum) then
    match fuel with
    | O => Halt OutOfFuel
    | S fuel' =>
        match next_numbered_line fuel t with
        | Halt h => Halt h
        | Done t => scan_for_line fuel' linenum t
        end
    end
  else Done t.

Definition jump_linenum_slow (fuel : nat) (linenum : Z) (t : tokenizer) : result tokenizer :=
  scan_for_line fuel linenum (tokenizer_init t).

Definition jump_linenum (fuel : nat) (idx : list (Z * nat)) (linenum : Z)
    (t : tokenizer) : result tokenizer :=
  match index_find idx linenum with
  | Some pos => Done (tokenizer_goto pos t)
  | None => jump_linenum_slow fuel linenum t   (* a yet-unindexed line *)
  end.

(** ** The C library, as far as the console needs it *)

(** [printf("%d", n)] *)
Definition print_d (n : Z) : list Z := bytes (NilZero.string_of_int (Z.to_int n)).

(** [fgets(_, size, stdin)]: up to [n = size - 1] characters, the newline
    included when it comes first; what is read, and what is left. *)
Fixpoint fgets (n : nat) (inp : list Z) : list Z * list Z :=
  match n, inp with
  | S n', c :: rest =>
      if c =? 10 then ([c], rest)
      else let (r, rest') := fgets n' rest in (c :: r, rest')
  | _, _ => ([], inp)
  end.

(** [strlen] of a buffer that holds [cs] and then a NUL. *)
Fixpoint strlen (cs : list Z) : Z :=
  match cs with
  | [] => 0
  | c :: cs' => if c =? 0 then 0 else 1 + strlen cs'
  end.

Definition isspace (c : Z) : bool := (c =? 32) || ((9 <=? c) && (c <=? 13)).

Section Atoi.
Context {PF : Platform}.

(** [atoi]: blanks, a sign, digits.  The C library fixes the result for a
    number that fits [int]; beyond that it fixes none, and the properties
    below speak of numbers that fit.  Here the digits are added up in
    [int]. *)
Fixpoint atoi_digits (cs : list Z) (n : Z) : Z :=
  match cs with
  | c :: cs' => if isdigit c then atoi_digits cs' (int_add (int_mul 10 n) (c - 48)) else n
  | [] => n
  end.

Fixpoint atoi (cs : list Z) : Z :=
  match cs with
  | c :: cs' =>
      if isspace c then atoi cs'
      else if c =? 45 then int_neg (atoi_digits cs' 0)
      else if c =? 43 then atoi_digits cs' 0
      else atoi_digits cs 0
  | [] => 0
  end.

End Atoi.

(** ** The statements *)

Section Statements.
Context {PF : Platform}.
Variable cx : context.

#[local] Abbreviation I := (M istate).

(** A call of the evaluator from a statement: it works on [es] and reads
    the store as it is at the call. *)
Definition tk {A} (m : M estate A) : I A := zoom es set_es m.
Definition ev {A} (m : store -> M estate A) : I A :=
  fun s => zoom es set_es (m (sto s)) s.

Definition token_here : I token := tk token_now.
Definition number_here : I Z := gets (fun s => tokenizer_num (tz (es s))).
Definition variable_here : I Z := gets (fun s => tokenizer_variable_num (tz (es s))).

Definition jump (fuel : nat) (linenum : Z) : I unit :=
  let* s := get in
  let* t := lift (jump_linenum fuel (line_index cx) linenum (tz (es s))) in
  put (set_es (set_tz t (es s)) s).

(** *** The variable store *)

Definition string_save (p : pointer) : I pointer :=
  let* s := get in
  let* src := lift (buffer_of (sto s) (stringblob (es s)) p) in
  let* len := lift (byte_at src 0) in
  match malloc (len + 1) (sto s) with
  | None => ubasic_error cx outofmemory
  | Some (b, x) =>
      let* src := lift (buffer_of x (stringblob (es s)) p) in
      let* bs := lift (memcpy_from src 0 (len + 1)) in
      let* x := lift (heap_store b bs x) in
      put (set_sto x s) >>>
      ret (Pheap b)
  end.

Definition ubasic_set_variable (varnum : Z) (value : typevalue) : I unit :=
  if negb (Z.land varnum STRINGFLAG =? 0) then
    typecheck_string cx value >>>
    let varnum := Z.land varnum (Z.lnot STRINGFLAG) in
    let* old := (let* s := get in lift (array_get (strings (sto s)) varnum)) in
    (if decide (old <> Pnullstr) then
       let* s := get in
       let* x := lift (free old (sto s)) in
       put (set_sto x s)
     else ret tt) >>>
    let* p := read_p value in
    let* b := string_save p in
    let* s := get in
    let* a := lift (array_set (strings (sto s)) varnum b) in
    put (set_sto (set_strings a (sto s)) s)
  else
    typecheck_int cx value >>>
    if (0 <=? varnum) && (varnum <=? MAX_VARNUM) then
      let* i := read_i value in
      let* s := get in
      let* a := lift (array_set (variables (sto s)) varnum i) in
      put (set_sto (set_variables a (sto s)) s)
    else ubasic_error cx "badsw".

(** *** GOTO, GOSUB, RETURN *)

Definition go_statement (fuel : nat) : I unit :=
  tk (accept_tok TOKENIZER_GO) >>>
  let* t := tk (accept_either TOKENIZER_TO TOKENIZER_SUB) in
  if decide (t = TOKENIZER_TO) then
    let* linenum := ev (fun x => intexpr cx x fuel) in
    tk (accept_tok TOKENIZER_CR) >>>
    jump fuel linenum
  else
    let* linenum := ev (fun x => intexpr cx x fuel) in
    tk (accept_tok TOKENIZER_CR) >>>
    let* c := gets ctl in
    if (gosub_stack_ptr c <? MAX_GOSUB_STACK_DEPTH)%nat then
      let* n := number_here in
      modify (set_ctl (Control (<[gosub_stack_ptr c := n]> (gosub_stack c))
                               (S (gosub_stack_ptr c))
                               (for_stack c) (for_stack_ptr c))) >>>
      jump fuel linenum
    else ubasic_error cx "Return without gosub".

Definition return_statement (fuel : nat) : I unit :=
  tk (accept_tok TOKENIZER_RETURN) >>>
  let* c := gets ctl in
  match gosub_stack_ptr c with
  | S p =>
      modify (set_ctl (Control (gosub_stack c) p (for_stack c) (for_stack_ptr c))) >>>
      match gosub_stack c !! p with
      | Some linenum => jump fuel linenum
      | None => stop (Fault OutOfBounds)
      end
  | O => ret tt
  end.

(** *** FOR and NEXT *)

Definition next_statement (fuel : nat) : I unit :=
  tk (accept_tok TOKENIZER_NEXT) >>>
  let* var := variable_here in
  tk (accept_tok TOKENIZER_INTVAR) >>>
  let* c := gets ctl in
  match for_stack_ptr c with
  | S p =>
      match for_stack c !! p with
      | Some fs =>
          if var =? for_variable fs then
            let* t := ev (fun x => ubasic_get_variable cx x var) in
            let* i := read_i t in
            let t := set_i t (int_add i (step fs)) in
            ubasic_set_variable var t >>>
            let* i := read_i t in
            (* NEXT end depends upon sign of STEP *)
            if ((step fs >=? 0) && (i <=? to fs)) || ((step fs <? 0) && (i >=? to fs)) then
              jump fuel (line_after_for fs)
            else
              modify (set_ctl (Control (gosub_stack c) (gosub_stack_ptr c)
                                       (for_stack c) p)) >>>
              tk (accept_tok TOKENIZER_CR) >>>
              ret tt
          else ubasic_error cx "Mismatched NEXT"
      | None => stop (Fault OutOfBounds)
      end
  | O => ubasic_error cx "Mismatched NEXT"
  end.

Definition for_statement (fuel : nat) : I unit :=
  tk (accept_tok TOKENIZER_FOR) >>>
  let* for_variable := variable_here in
  tk (accept_tok TOKENIZER_INTVAR) >>>
  tk (accept_tok TOKENIZER_EQ) >>>
  let* t := ev (fun x => expr cx x fuel) in
  typecheck_int cx t >>>
  (* The set also typechecks the variable *)
  ubasic_set_variable for_variable t >>>
  tk (accept_tok TOKENIZER_TO) >>>
  let* to := ev (fun x => intexpr cx x fuel) in
  let* tok := token_here in
  let* step :=
    (if decide (tok = TOKENIZER_STEP) then
       tk (accept_tok TOKENIZER_STEP) >>>
       ev (fun x => intexpr cx x fuel)
     else ret 1) in
  tk (accept_tok TOKENIZER_CR) >>>
  let* c := gets ctl in
  if (for_stack_ptr c <? MAX_FOR_STACK_DEPTH)%nat then
    let* n := number_here in
    modify (set_ctl (Control (gosub_stack c) (gosub_stack_ptr c)
                             (<[for_stack_ptr c := For_state n for_variable to step]>
                                (for_stack c))
                             (S (for_stack_ptr c))))
  else ret tt.

(** *** The console *)

Definition putchar (c : Z) (k : console) : console :=
  Console (chpos k) (stdout k ++ [c]) (stdin k).
Definition printf (cs : list Z) (k : console) : console :=
  Console (chpos k) (stdout k ++ cs) (stdin k).

(** [charout] for a character other than a tab. *)
Definition charout_plain (c : Z) (k : console) : console :=
  let k := putchar c k in
  if ((c =? 8) || (c =? 127)) && negb (chpos k =? 0) then
    Console (chpos k - 1) (stdout k) (stdin k)
  else if (c =? 13) || (c =? 10) then
    Console 0 (stdout k) (stdin k)
  else Console (chpos k + 1) (stdout k) (stdin k).

(** The loop of [charout] on a tab: blanks up to the next multiple of 8. *)
Fixpoint charout_tab (fuel : nat) (k : console) : result console :=
  let k := charout_plain 32 k in
  if negb (Z.rem (chpos k) 8 =? 0) then
    match fuel with
    | O => Halt OutOfFuel
    | S fuel' => charout_tab fuel' k
    end
  else Done k.

Definition charout (c : Z) : I unit :=
  let* s := get in
  if c =? 9 then
    let* k := lift (charout_tab 8 (con s)) in
    put (set_con k s)
  else put (set_con (charout_plain c (con s)) s).

Definition charreset : I unit :=
  modify (fun s => set_con (Console 0 (stdout (con s)) (stdin (con s))) s).

Fixpoint charout_all (cs : list Z) : I unit :=
  match cs with
  | [] => ret tt
  | c :: cs' => charout c >>> charout_all cs'
  end.

Definition chartab (v : Z) : I unit :=
  let* s := get in
  charout_all (replicate (Z.to_nat (v - chpos (con s))) 32).

Definition charoutstr (p : pointer) : I unit :=
  let* s := get in
  let* src := lift (buffer_of (sto s) (stringblob (es s)) p) in
  let* len := lift (byte_at src 0) in
  let* cs := lift (memcpy_from src 1 len) in
  charout_all cs.

(** Modelled from the spec: [tokenizer_string_func(charout, NULL)] hands
    the characters of the string literal under the cursor to [charout]. *)
Definition tokenizer_string_func_charout : I unit :=
  let* s := get in
  charout_all (tokenizer_string (tz (es s))).

Definition print_out (cs : list Z) : I unit :=
  modify (fun s => set_con (printf cs (con s)) s).

(** One turn of the loop of [print_statement]; the result is [nonl]. *)
Definition print_item (fuel : nat) (t : token) : I Z :=
  if decide (t = TOKENIZER_STRING) then
    (* Handle string const specially - length rules *)
    tokenizer_string_func_charout >>>
    tk next_token >>> ret 0
  else if TOKENIZER_STRINGEXP t then
    let* p := ev (fun x => stringexpr cx x fuel) in
    charoutstr p >>> ret 0
  else if decide (t = TOKENIZER_COMMA) then
    print_out [9] >>>
    tk next_token >>> ret 1
  else if decide (t = TOKENIZER_SEMICOLON) then
    tk next_token >>> ret 1
  else if TOKENIZER_NUMEXP t then
    let* n := ev (fun x => intexpr cx x fuel) in
    print_out (print_d n) >>> ret 0
  else if decide (t = TOKENIZER_TAB) then
    tk (accept_tok TOKENIZER_TAB) >>>
    let* v := ev (fun x => bracketed_intexpr cx x fuel) in
    chartab v >>> ret 0
  else if decide (t <> TOKENIZER_CR) then ubasic_error cx syntax
  else ret 0.

Fixpoint print_loop (fuel : nat) (budget : nat) : I Z :=
  let* t := token_here in
  let* nonl := print_item fuel t in
  if negb (bool_decide (t = TOKENIZER_CR)) && negb (bool_decide (t = TOKENIZER_ENDOFINPUT)) then
    match budget with
    | O => stop OutOfFuel
    | S budget' => print_loop fuel budget'
    end
  else ret nonl.

Definition print_statement (fuel : nat) : I unit :=
  tk (accept_tok TOKENIZER_PRINT) >>>
  let* nonl := print_loop fuel fuel in
  (if nonl =? 0 then print_out [10] else ret tt) >>>
  tk next_token.

(** *** The other statements *)

Definition let_statement (fuel : nat) : I unit :=
  let* var := variable_here in
  tk (accept_either TOKENIZER_INTVAR TOKENIZER_STRINGVAR) >>>
  tk (accept_tok TOKENIZER_EQ) >>>
  let* v := ev (fun x => expr cx x fuel) in
  ubasic_set_variable var v >>>
  tk (accept_tok TOKENIZER_CR) >>>
  ret tt.

Definition poke_statement (fuel : nat) : I unit :=
  tk (accept_tok TOKENIZER_POKE) >>>
  let* poke_addr := ev (fun x => intexpr cx x fuel) in
  tk (accept_tok TOKENIZER_COMMA) >>>
  let* value := ev (fun x => intexpr cx x fuel) in
  tk (accept_tok TOKENIZER_CR) >>>
  if poke_function cx then
    modify (fun s => set_poked (poked s ++ [(poke_addr, value)]) s)
  else stop (Fault NullCall).

Definition stop_statement : I unit :=
  tk (accept_tok TOKENIZER_STOP) >>>
  tk (accept_tok TOKENIZER_CR) >>>
  modify (set_ended 1).

Definition rem_statement : I unit :=
  tk (accept_tok TOKENIZER_REM) >>>
  tk (modify (fun e => set_tz (tokenizer_newline (tz e)) e)).

Fixpoint data_loop (budget : nat) : I unit :=
  let* t := token_here in
  (* We could just as easily allow expressions which might be wild... *)
  (if bool_decide (t = TOKENIZER_STRING) || bool_decide (t = TOKENIZER_NUMBER)
   then tk next_token
   else ubasic_error cx syntax) >>>
  let* t := tk (accept_either TOKENIZER_CR TOKENIZER_COMMA) in
  if decide (t <> TOKENIZER_CR) then
    match budget with
    | O => stop OutOfFuel
    | S budget' => data_loop budget'
    end
  else ret tt.

Definition data_statement (fuel : nat) : I unit :=
  tk (accept_tok TOKENIZER_DATA) >>>
  data_loop fuel.

(** [srand] seeds a generator that ubasic.c never draws from. *)
Definition randomize_statement (fuel : nat) : I unit :=
  tk (accept_tok TOKENIZER_RANDOMIZE) >>>
  let* t := token_here in
  (if decide (t <> TOKENIZER_CR) then ev (fun x => intexpr cx x fuel) else ret 0) >>>
  tk (accept_tok TOKENIZER_CR) >>>
  ret tt.

Definition option_statement (fuel : nat) : I unit :=
  tk (accept_tok TOKENIZER_OPTION) >>>
  tk (accept_tok TOKENIZER_BASE) >>>
  let* r := ev (fun x => intexpr cx x fuel) in
  tk (accept_tok TOKENIZER_CR) >>>
  if (r <? 0) || (r >? 1) then ubasic_error cx "Invalid base"
  else modify (set_array_base r).

(** One variable of INPUT: a line is read into [buf + 1] and becomes an
    integer or a string; [t] is the token that named the variable. *)
Definition input_value (t : token) : I typevalue :=
  let* s := get in
  match stdin (con s) with
  | [] => stop (Exit Eof)
  | _ =>
      let (cs, rest) := fgets 127 (stdin (con s)) in
      put (set_con (Console (chpos (con s)) (stdout (con s)) rest) s) >>>
      charreset >>>          (* Newline input so move to left *)
      if decide (t = TOKENIZER_INTVAR) then
        ret (integer (atoi cs))
      else
        (* Turn a C string into a BASIC one *)
        let l := strlen cs in
        let* last := (if l =? 0 then stop (Fault Indeterminate)
                      else lift (byte_at cs (l - 1))) in
        let l := if last =? 10 then l - 1 else l in
        modify (fun s => set_sto (set_buf (to_uint8 l :: cs ++ [0]) (sto s)) s) >>>
        ret (Typevalue TYPE_STRING (d_p Pbuf))
  end.

Fixpoint input_loop (budget : nat) : I unit :=
  let* t := token_here in
  let* v := variable_here in
  tk (accept_either TOKENIZER_INTVAR TOKENIZER_STRINGVAR) >>>
  let* r := input_value t in
  ubasic_set_variable v r >>>
  let* t := token_here in
  let* t := (if decide (t <> TOKENIZER_CR)
             then tk (accept_either TOKENIZER_COMMA TOKENIZER_SEMICOLON)
             else ret t) in
  if decide (t <> TOKENIZER_CR) then
    match budget with
    | O => stop OutOfFuel
    | S budget' => input_loop budget'
    end
  else ret tt.

Definition input_statement (fuel : nat) : I unit :=
  tk (accept_tok TOKENIZER_INPUT) >>>
  let* t := token_here in
  (if TOKENIZER_STRINGEXP t then
     tokenizer_string_func_charout >>>
     tk next_token >>>
     let* t := token_here in
     (if decide (t = TOKENIZER_COMMA) then tk (accept_tok TOKENIZER_COMMA)
      else tk (accept_tok TOKENIZER_SEMICOLON)) >>>
     ret tt
   else
     charout 63 >>>
     charout 32) >>>
  input_loop fuel >>>
  tk (accept_tok TOKENIZER_CR) >>>
  ret tt.

Definition restore_statement (fuel : nat) : I unit :=
  let* t := tk (accept_tok TOKENIZER_RESTORE) in
  let* linenum := (if decide (t <> TOKENIZER_CR)
                   then ev (fun x => intexpr cx x fuel) else ret 0) in
  tk (accept_tok TOKENIZER_CR) >>>
  (if negb (linenum =? 0) then
     tk (modify (fun e => set_tz (tokenizer_push (tz e)) e)) >>>
     jump fuel linenum >>>
     let* pos := gets (fun s => tokenizer_pos (tz (es s))) in
     tk (modify (fun e => set_tz (tokenizer_pop (tz e)) e)) >>>
     modify (fun s => set_data pos (data_seek s) s)
   else modify (fun s => set_data 0%nat (data_seek s) s)) >>>
  modify (fun s => set_data (data_position s) 1 s).

(** The loop of [if_statement] that looks for ELSE on the line. *)
Fixpoint skip_to_else (budget : nat) : M estate unit :=
  next_token >>>
  let* t := token_now in
  if negb (bool_decide (t = TOKENIZER_ELSE)) && negb (bool_decide (t = TOKENIZER_CR))
     && negb (bool_decide (t = TOKENIZER_ENDOFINPUT)) then
    match budget with
    | O => stop OutOfFuel
    | S budget' => skip_to_else budget'
    end
  else ret tt.

(** [if_statement]; its calls of [statement] go to the argument. *)
Definition if_statement (statement : I unit) (fuel : nat) : I unit :=
  tk (accept_tok TOKENIZER_IF) >>>
  let* r := ev (fun x => relation cx x fuel) in
  tk (accept_tok TOKENIZER_THEN) >>>
  let* c := read_i r in
  if negb (c =? 0) then statement
  else
    tk (skip_to_else fuel) >>>
    let* t := token_here in
    if decide (t = TOKENIZER_ELSE) then
      tk next_token >>>
      statement
    else if decide (t = TOKENIZER_CR) then tk next_token
    else ret tt.

Fixpoint statement (fuel : nat) : I unit :=
  match fuel with
  | O => stop OutOfFuel
  | S fuel' =>
      tk string_temp_free >>>
      let* token := token_here in
      match token with
      | TOKENIZER_PRINT => print_statement fuel'
      | TOKENIZER_IF => if_statement (statement fuel') fuel'
      | TOKENIZER_GO => go_statement fuel'
      | TOKENIZER_RETURN => return_statement fuel'
      | TOKENIZER_FOR => for_statement fuel'
      | TOKENIZER_POKE => poke_statement fuel'
      | TOKENIZER_NEXT => next_statement fuel'
      | TOKENIZER_STOP => stop_statement
      | TOKENIZER_REM => rem_statement
      | TOKENIZER_DATA => data_statement fuel'
      | TOKENIZER_RANDOMIZE => randomize_statement fuel'
      | TOKENIZER_OPTION => option_statement fuel'
      | TOKENIZER_INPUT => input_statement fuel'
      | TOKENIZER_RESTORE => restore_statement fuel'
      | TOKENIZER_LET =>
          tk (accept_tok TOKENIZER_LET) >>>
          let_statement fuel'
      | TOKENIZER_STRINGVAR | TOKENIZER_INTVAR => let_statement fuel'
      | _ => ubasic_error cx syntax
      end
  end.

End Statements.

(** ** The run loop *)

Record machine : Type := Machine {
  cxt : context;
  run : istate
}.

Section Run.
Context {PF : Platform}.

Definition set_line (n : Z) (idx : list (Z * nat)) (c : context) : context :=
  Context idx n (peek_function c) (poke_function c).

Definition line_statement (fuel : nat) (m : machine) : result machine :=
  let t := tz (es (run m)) in
  let c := set_line (tokenizer_num t)
                    (index_add (tokenizer_num t) (tokenizer_pos t) (line_index (cxt m)))
                    (cxt m) in
  match (tk (accept_tok TOKENIZER_NUMBER) >>> statement c fuel) (run m) with
  | Done (_, s) => Done (Machine c s)
  | Halt h => Halt h
  end.

Definition ubasic_run (fuel : nat) (m : machine) : result machine :=
  if tokenizer_finished (tz (es (run m))) then Done m
  else line_statement fuel m.

Definition ubasic_finished (m : machine) : bool :=
  negb (ended (run m) =? 0) || tokenizer_finished (tz (es (run m))).

(** [ubasic_init]: what the loader leaves in place before the first line
    runs.  The arrays have static storage, hence start zeroed. *)
Definition ubasic_init (prog : list lexeme) (room : Z) (inp : list Z)
    (peek : option (Z -> Z)) (poke : bool) : machine :=
  Machine
    (Context (index_free []) 0 peek poke)
    (Istate
       (Estate (tokenizer_init (Tokenizer prog 0 0)) (replicate 512 0) 0)
       (Store (replicate (Z.to_nat MAX_VARNUM) 0) (replicate MAX_STRING Pnullstr)
              [] room [])
       (Control (replicate MAX_GOSUB_STACK_DEPTH 0) 0
                (replicate MAX_FOR_STACK_DEPTH (For_state 0 0 0 0)) 0)
       (Console 0 [] inp)
       0 [] 0 1 0).

(** The host's loop: [ubasic_run] until [ubasic_finished], at most [n] times. *)
Fixpoint run_lines (n : nat) (fuel : nat) (m : machine) : result machine :=
  match n with
  | O => Done m
  | S n' =>
      if ubasic_finished m then Done m
      else match ubasic_run fuel m with
           | Done m' => run_lines n' fuel m'
           | Halt h => Halt h
           end
  end.

End Run.

(** ** A build to run programs on

    A 32-bit [int]; the string flag above the variable numbers; a [memcmp]
    that returns the difference of the first two bytes that differ, as the
    byte loop of most C libraries does. *)

Fixpoint memcmp_diff (a b : list Z) : Z :=
  match a, b with
  | x :: a', y :: b' => if x =? y then memcmp_diff a' b' else x - y
  | _, _ => 0
  end.

Definition numexp (t : token) : bool :=
  match t with
  | TOKENIZER_NUMBER | TOKENIZER_INTVAR | TOKENIZER_LEFTPAREN
  | TOKENIZER_PEEK | TOKENIZER_ABS | TOKENIZER_INT | TOKENIZER_SGN
  | TOKENIZER_LEN | TOKENIZER_CODE | TOKENIZER_VAL => true
  | _ => false
  end.

Definition stringexp (t : token) : bool :=
  match t with
  | TOKENIZER_STRING | TOKENIZER_STRINGVAR | TOKENIZER_LEFTSTR
  | TOKENIZER_RIGHTSTR | TOKENIZER_MIDSTR | TOKENIZER_CHRSTR => true
  | _ => false
  end.

Definition host : Platform := {|
  value_bits := 32;
  STRINGFLAG := 32768;
  TOKENIZER_NUMEXP := numexp;
  TOKENIZER_STRINGEXP := stringexp;
  memcmp := memcmp_diff
|}.

(** The string variable [A$] on [host], and a state with nothing loaded. *)
Definition A_str : Z := 32768.
Definition boot (prog : list lexeme) : machine :=
  ubasic_init prog 4096 [] None false.

(** ** Vocabulary of the statements below *)

Definition token_of (e : estate) : token := tokenizer_token (tz e).

(** The evaluator state once the token under the cursor is consumed. *)
Definition advance (e : estate) : estate := set_tz (tokenizer_next (tz e)) e.

(** The frames in use: the entries of a stack array below its pointer. *)
Definition gosub_frames (c : control) : list Z :=
  take (gosub_stack_ptr c) (gosub_stack c).
Definition for_frames (c : control) : list for_state :=
  take (for_stack_ptr c) (for_stack c).

Definition push_gosub (n : Z) (c : control) : control :=
  Control (<[gosub_stack_ptr c := n]> (gosub_stack c)) (S (gosub_stack_ptr c))
          (for_stack c) (for_stack_ptr c).
Definition pop_for (c : control) : control :=
  Control (gosub_stack c) (gosub_stack_ptr c) (for_stack c) (pred (for_stack_ptr c)).

(** Where a jump lands: the state built from the tokenizer it returns. *)
Definition landed {A} (r : result A) (f : A -> istate) : result (unit * istate) :=
  match r with Done a => Done (tt, f a) | Halt h => Halt h end.

(** [variables[varnum] = i] *)
Definition set_var_result (s : istate) (varnum i : Z) : istate :=
  set_sto (set_variables (<[Z.to_nat varnum := i]> (variables (sto s))) (sto s)) s.

(** The test of NEXT: the value has not passed the limit of the frame. *)
Definition within_limit (fs : for_state) (v : Z) : Prop :=
  (step fs >= 0 /\ v <= to fs) \/ (step fs < 0 /\ v >= to fs).

(** The part of [for_statement] before its test of [for_stack_ptr]: the
    line is read up to its end and the variable is assigned.  The result is
    what the frame would hold: the variable, the value it was given, the
    limit and the step. *)
Definition for_header {PF : Platform} (cx : context) (fuel : nat)
    : M istate (Z * typevalue * Z * Z) :=
  tk (accept_tok TOKENIZER_FOR) >>>
  let* for_variable := variable_here in
  tk (accept_tok TOKENIZER_INTVAR) >>>
  tk (accept_tok TOKENIZER_EQ) >>>
  let* t := ev (fun x => expr cx x fuel) in
  typecheck_int cx t >>>
  ubasic_set_variable cx for_variable t >>>
  tk (accept_tok TOKENIZER_TO) >>>
  let* to := ev (fun x => intexpr cx x fuel) in
  let* tok := token_here in
  let* step :=
    (if decide (tok = TOKENIZER_STEP) then
       tk (accept_tok TOKENIZER_STEP) >>>
       ev (fun x => intexpr cx x fuel)
     else ret 1) in
  tk (accept_tok TOKENIZER_CR) >>>
  ret (for_variable, t, to, step).

Definition push_for (fs : for_state) (c : control) : control :=
  Control (gosub_stack c) (gosub_stack_ptr c)
          (<[for_stack_ptr c := fs]> (for_stack c)) (S (for_stack_ptr c)).

(** ** Programs and expressions to run on [host] *)

(** An expression on its own: the tokens are all there is to the program. *)
Definition evaluate (toks : list lexeme) : result (typevalue * estate) :=
  let m := boot toks in
  expr (PF:=host) (cxt m) (sto (run m)) 20 (es (run m)).
Definition compare (toks : list lexeme) : result (typevalue * estate) :=
  let m := boot toks in
  relation (PF:=host) (cxt m) (sto (run m)) 20 (es (run m)).

(** The bytes of a string result. *)
Definition string_result (r : result (typevalue * estate)) : result (list Z) :=
  match r with
  | Done (v, e) =>
      match d v with
      | d_p p => buffer_of (sto (run (boot []))) (stringblob e) p
      | d_i _ => Halt (Fault Indeterminate)
      end
  | Halt h => Halt h
  end.

(** [LEFT$("HELLO", 0-1)], [MID$("HELLO", 0-1, 3)], [MID$("HELLO", 0, 3)]
    and [MID$("HELLO", 0-300, 1000)] *)
Definition left_minus_one : list lexeme :=
  [K TOKENIZER_LEFTSTR; K TOKENIZER_LEFTPAREN; Str "HELLO"; K TOKENIZER_COMMA;
   Num 0; K TOKENIZER_MINUS; Num 1; K TOKENIZER_RIGHTPAREN].
Definition mid_from_minus_one : list lexeme :=
  [K TOKENIZER_MIDSTR; K TOKENIZER_LEFTPAREN; Str "HELLO"; K TOKENIZER_COMMA;
   Num 0; K TOKENIZER_MINUS; Num 1; K TOKENIZER_COMMA; Num 3; K TOKENIZER_RIGHTPAREN].
Definition mid_from_zero : list lexeme :=
  [K TOKENIZER_MIDSTR; K TOKENIZER_LEFTPAREN; Str "HELLO"; K TOKENIZER_COMMA;
   Num 0; K TOKENIZER_COMMA; Num 3; K TOKENIZER_RIGHTPAREN].
Definition mid_from_far_below : list lexeme :=
  [K TOKENIZER_MIDSTR; K TOKENIZER_LEFTPAREN; Str "HELLO"; K TOKENIZER_COMMA;
   Num 0; K TOKENIZER_MINUS; Num 300; K TOKENIZER_COMMA; Num 1000;
   K TOKENIZER_RIGHTPAREN].

(** ["A" < "C"] and ["A" < "B"] *)
Definition A_less_C : list lexeme := [Str "A"; K TOKENIZER_LT; Str "C"].
Definition A_less_B : list lexeme := [Str "A"; K TOKENIZER_LT; Str "B"].

(** [10 RETURN] / [20 PRINT "X"] *)
Definition return_first : list lexeme :=
  [Num 10; K TOKENIZER_RETURN; CR;
   Num 20; K TOKENIZER_PRINT; Str "X"; CR].

(** [10 LET A$="X"] / [20 LET A$=A$] *)
Definition assign_to_itself : list lexeme :=
  [Num 10; K TOKENIZER_LET; StrVar A_str; K TOKENIZER_EQ; Str "X"; CR;
   Num 20; K TOKENIZER_LET; StrVar A_str; K TOKENIZER_EQ; StrVar A_str; CR].

(** The machine after [n] calls of [ubasic_run], when all of them return. *)
Definition after (n : nat) (prog : list lexeme) : option machine :=
  match run_lines (PF:=host) n 20 (boot prog) with
  | Done m => Some m
  | Halt _ => None
  end.

(** The context and the state in which [line_statement] enters
    [statement] and [statement] enters the handler of the line. *)
Definition entering (m : machine) : context :=
  let t := tz (es (run m)) in
  set_line (tokenizer_num t)
           (index_add (tokenizer_num t) (tokenizer_pos t) (line_index (cxt m)))
           (cxt m).
Definition entered (m : machine) : istate :=
  set_es (set_nextstr 0 (advance (es (run m)))) (run m).

Definition machine_after (n : nat) (prog : list lexeme) : machine :=
  match after n prog with
  | Some m => m
  | None => boot prog
  end.

(** [10 GOSUB 100] / [20 PRINT "DONE"] / [30 STOP] / [100 PRINT "SUB"] /
    [110 RETURN] *)
Definition call_and_return : list lexeme :=
  [Num 10; K TOKENIZER_GO; K TOKENIZER_SUB; Num 100; CR;
   Num 20; K TOKENIZER_PRINT; Str "DONE"; CR;
   Num 30; K TOKENIZER_STOP; CR;
   Num 100; K TOKENIZER_PRINT; Str "SUB"; CR;
   Num 110; K TOKENIZER_RETURN; CR].

(** [10 GOSUB 10] *)
Definition call_forever : list lexeme :=
  [Num 10; K TOKENIZER_GO; K TOKENIZER_SUB; Num 10; CR].

(** [10 FOR I=1 TO 3] / [20 PRINT I] / [30 NEXT I] *)
Definition I_var : Z := 8.
Definition count_to_three : list lexeme :=
  [Num 10; K TOKENIZER_FOR; IntVar I_var; K TOKENIZER_EQ; Num 1; K TOKENIZER_TO; Num 3; CR;
   Num 20; K TOKENIZER_PRINT; IntVar I_var; CR;
   Num 30; K TOKENIZER_NEXT; IntVar I_var; CR].

(** [10 FOR A=1 TO 2] ... [40 FOR D=1 TO 2] / [50 FOR E=7 TO 9] /
    [60 PRINT E] / [70 NEXT E] *)
Definition for_line (n v a b : Z) : list lexeme :=
  [Num n; K TOKENIZER_FOR; IntVar v; K TOKENIZER_EQ; Num a; K TOKENIZER_TO; Num b; CR].
Definition five_loops : list lexeme :=
  for_line 10 0 1 2 ++ for_line 20 1 1 2 ++ for_line 30 2 1 2 ++ for_line 40 3 1 2 ++
  for_line 50 4 7 9 ++
  [Num 60; K TOKENIZER_PRINT; IntVar 4; CR;
   Num 70; K TOKENIZER_NEXT; IntVar 4; CR].

(** The pointer [p] designates the string with the bytes [bs]: its buffer
    is the length byte and [bs], and a buffer in the string workspace lies
    below [nextstr]. *)
Definition holds (sto : store) (e : estate) (p : pointer) (bs : list Z) : Prop :=
  buffer_of sto (stringblob e) p = Done (Z.of_nat (length bs) :: bs) /\
  match p with
  | Pblob off => off + Z.of_nat (length bs) + 1 <= nextstr e
  | _ => True
  end.

(** The string workspace is the 512 bytes of [stringblob], and [nextstr]
    has not moved below its start. *)
Definition arena_ok (e : estate) : Prop :=
  Z.of_nat (length (stringblob e)) = sizeof_stringblob /\ 0 <= nextstr e.

(** What the specification says of [a + b] on strings, at one state: a
    result with the bytes of [a] and then those of [b] unless the lengths
    add up to more than 255, and "String too long" exactly then. *)
Definition concatenation_as_specified {PF : Platform} (cx : context) (sto : store)
    (e : estate) (a b : typevalue) (sa sb : list Z) : Prop :=
  let r := expr_step cx sto TOKENIZER_PLUS a b e in
  (r = Halt (Exit (Ubasic (line_num cx) "String too long"))
     <-> 255 < Z.of_nat (length sa) + Z.of_nat (length sb)) /\
  (Z.of_nat (length sa) + Z.of_nat (length sb) <= 255 ->
     exists v e', r = Done (v, e') /\ type v = TYPE_STRING /\
       exists p, d v = d_p p /\ holds sto e' p (sa ++ sb)).

(** ["AAA..." + "BBB..."] with 128 and 127 characters, and the evaluator
    state once both literals are in the workspace and [+] is to be done. *)
Definition As : list Z := replicate 128 65.
Definition Bs : list Z := replicate 127 66.
Definition long_sum : list lexeme :=
  [Lexeme TOKENIZER_STRING 0 0 As; K TOKENIZER_PLUS; Lexeme TOKENIZER_STRING 0 0 Bs].
Definition both_literals_stored : estate :=
  Estate (Tokenizer long_sum 3 0) (128 :: As ++ 127 :: Bs ++ replicate 255 0) 257.

(** ["AB" + "CD"], likewise. *)
Definition short_sum : list lexeme := [Str "AB"; K TOKENIZER_PLUS; Str "CD"].
Definition both_short_stored : estate :=
  Estate (Tokenizer short_sum 3 0) (2 :: 65 :: 66 :: 2 :: 67 :: 68 :: replicate 506 0) 6.

(** The two operands of a sum and the evaluator state when [+] is done:
    [expr] has called [term] twice. *)
Definition operands (toks : list lexeme) : result ((typevalue * typevalue) * estate) :=
  let m := boot toks in
  (let* a := term (PF:=host) (cxt m) (sto (run m)) 20 in
   next_token >>>
   let* b := term (PF:=host) (cxt m) (sto (run m)) 20 in
   ret (a, b)) (es (run m)).

(** ** Program texts

    A program text as the run loop expects it: every line is its number,
    the tokens of its statement, and an end-of-line token. *)
Definition render_line (l : Z * list lexeme) : list lexeme :=
  Num (fst l) :: snd l ++ [CR].
Definition render (ls : list (Z * list lexeme)) : list lexeme :=
  concat (map render_line ls).

(** A token inside a line: neither an end of line nor the end of input. *)
Definition inner (x : lexeme) : Prop :=
  lx_token x <> TOKENIZER_CR /\ lx_token x <> TOKENIZER_ENDOFINPUT.
Definition well_formed (ls : list (Z * list lexeme)) : Prop :=
  Forall (fun l => Forall inner (snd l)) ls.

(** Line [k] is the first line with the number [n]. *)
Definition first_numbered (ls : list (Z * list lexeme)) (k : nat) (n : Z) : Prop :=
  (exists body, ls !! k = Some (n, body)) /\
  forall j l, (j < k)%nat -> ls !! j = Some l -> fst l <> n.

(** The source position of line [k]. *)
Definition line_start (ls : list (Z * list lexeme)) (k : nat) : nat :=
  length (render (take k ls)).

#[global] Instance inner_dec (x : lexeme) : Decision (inner x).
Proof. unfold inner. apply _. Defined.
#[global] Instance well_formed_dec (ls : list (Z * list lexeme)) : Decision (well_formed ls).
Proof. unfold well_formed. apply _. Defined.

(** The first line with the number [n], counted from 0. *)
Fixpoint find_line (ls : list (Z * list lexeme)) (n : Z) : option nat :=
  match ls with
  | [] => None
  | l :: ls' => if fst l =? n then Some 0%nat else S <$> find_line ls' n
  end.

(** The lines of [call_and_return]. *)
Definition call_and_return_lines : list (Z * list lexeme) :=
  [(10, [K TOKENIZER_GO; K TOKENIZER_SUB; Num 100]);
   (20, [K TOKENIZER_PRINT; Str "DONE"]);
   (30, [K TOKENIZER_STOP]);
   (100, [K TOKENIZER_PRINT; Str "SUB"]);
   (110, [K TOKENIZER_RETURN])].

(** Three programs of the behaviours listed with the design:
    [10 LET A=1] / [20 LET B=2] / [30 PRINT A+B];
    [10 LET A$="HELLO"] / [20 PRINT LEFT$(A$,3)];
    [10 PRINT 1/0]. *)
Definition add_two_variables : list lexeme :=
  [Num 10; K TOKENIZER_LET; IntVar 0; K TOKENIZER_EQ; Num 1; CR;
   Num 20; K TOKENIZER_LET; IntVar 1; K TOKENIZER_EQ; Num 2; CR;
   Num 30; K TOKENIZER_PRINT; IntVar 0; K TOKENIZER_PLUS; IntVar 1; CR].
Definition left_of_hello : list lexeme :=
  [Num 10; K TOKENIZER_LET; StrVar A_str; K TOKENIZER_EQ; Str "HELLO"; CR;
   Num 20; K TOKENIZER_PRINT; K TOKENIZER_LEFTSTR; K TOKENIZER_LEFTPAREN;
   StrVar A_str; K TOKENIZER_COMMA; Num 3; K TOKENIZER_RIGHTPAREN; CR].
Definition divide_by_zero : list lexeme :=
  [Num 10; K TOKENIZER_PRINT; Num 1; K TOKENIZER_SLASH; Num 0; CR].

(** What a program has printed when the host's loop ends. *)
Definition output (prog : list lexeme) : result (list Z) :=
  match run_lines (PF:=host) 100 20 (boot prog) with
  | Done m => Done (stdout (con (run m)))
  | Halt h => Halt h
  end.

(** Every string slot holds the sentinel or a live block, and no block is
    held by two slots. *)
Definition slots_owned (x : store) : Prop :=
  (forall i p, strings x !! i = Some p ->
     p = Pnullstr \/ exists b bs, p = Pheap b /\ heap x !! b = Some (Some bs)) /\
  (forall i j b, strings x !! i = Some (Pheap b) -> strings x !! j = Some (Pheap b) -> i = j).

(** ** Vocabulary of the further properties *)

(** A character [charout] only counts: not a tab, a backspace, a delete,
    a carriage return or a newline. *)
Definition plain (c : Z) : Prop :=
  c <> 9 /\ c <> 8 /\ c <> 127 /\ c <> 13 /\ c <> 10.

(** The console once [cs] is written and the column has moved to [col]. *)
Definition written (cs : list Z) (col : Z) (k : console) : console :=
  Console col (stdout k ++ cs) (stdin k).

(** [s'] has the output of [s] and [w] behind it, and the same input left. *)
Definition appended (s s' : istate) (w : list Z) : Prop :=
  stdout (con s') = stdout (con s) ++ w /\ stdin (con s') = stdin (con s).

(** The number a string of decimal digits denotes. *)
Definition decimal (ds : list Z) : Z :=
  fold_left (fun n c => 10 * n + (c - 48)) ds 0.

(** The bytes of a number as [string_val] accepts it: an optional minus
    sign, then the digits. *)
Definition numeral (neg : bool) (ds : list Z) : list Z :=
  (if neg then [45] else []) ++ ds.

(** The tag of a value names the member of the union that was written. *)
Definition tagged (v : typevalue) : Prop :=
  match type v, d v with
  | TYPE_INTEGER, d_i _ => True
  | TYPE_STRING, d_p _ => True
  | _, _ => False
  end.

(** A token the false branch of IF passes over: not ELSE, nor an end of
    line, nor the end of input. *)
Definition skipped (x : lexeme) : Prop :=
  lx_token x <> TOKENIZER_ELSE /\ lx_token x <> TOKENIZER_CR /\
  lx_token x <> TOKENIZER_ENDOFINPUT.

(** The evaluator state with the cursor moved to position [p]. *)
Definition cursor_at (p : nat) (e : estate) : estate := set_tz (set_ptr p (tz e)) e.

(** The items of a DATA line behind the keyword: literals with a comma
    between two of them and the end of the line behind the last. *)
Fixpoint data_items (x : lexeme) (xs : list lexeme) : list lexeme :=
  match xs with
  | [] => [x; CR]
  | y :: ys => x :: K TOKENIZER_COMMA :: data_items y ys
  end.

Definition literal (x : lexeme) : Prop :=
  lx_token x = TOKENIZER_STRING \/ lx_token x = TOKENIZER_NUMBER.

(** The items of a DATA line that are followed by another: each literal
    with its comma. *)
Fixpoint data_front (xs : list lexeme) : list lexeme :=
  match xs with
  | [] => []
  | x :: xs' => x :: K TOKENIZER_COMMA :: data_front xs'
  end.

(** [t'] is [t] with the cursor moved, at most. *)
Definition same_text (t t' : tokenizer) : Prop :=
  program t' = program t /\ pushed t' = pushed t.

(** ** Inputs of the further properties, on [host] *)

(** A machine with the poke hook installed, and one with a line of input
    waiting. *)
Definition boot_with_poke (prog : list lexeme) : machine :=
  ubasic_init prog 4096 [] None true.

(** The evaluator state in which the string workspace starts with the
    string [text] and [nextstr] stands behind it. *)
Definition stored (text : list Z) : estate :=
  Estate (Tokenizer [] 0 0)
         (Z.of_nat (length text) :: text ++ replicate (511 - length text) 0)
         (Z.of_nat (length text) + 1).

(** The state a statement of the first line of [prog] starts in, with the
    string workspace of [stored text]. *)
Definition with_string (text : list Z) (s : istate) : istate :=
  set_es (Estate (tz (es s)) (stringblob (stored text)) (nextstr (stored text))) s.

(** The state of the console at column [col], nothing else loaded. *)
Definition at_column (col : Z) : istate :=
  set_con (Console col [] []) (run (boot [])).

(** [ABS(0-5)], [LEN("HEY")], [CHR$(65)], ["HI"] and [1+2] *)
Definition abs_of_minus_5 : list lexeme :=
  [K TOKENIZER_ABS; K TOKENIZER_LEFTPAREN; Num 0; K TOKENIZER_MINUS; Num 5;
   K TOKENIZER_RIGHTPAREN].
Definition len_of_hey : list lexeme :=
  [K TOKENIZER_LEN; K TOKENIZER_LEFTPAREN; Str "HEY"; K TOKENIZER_RIGHTPAREN].
Definition chr_of_65 : list lexeme :=
  [K TOKENIZER_CHRSTR; K TOKENIZER_LEFTPAREN; Num 65; K TOKENIZER_RIGHTPAREN].
Definition literal_hi : list lexeme := [Str "HI"].
Definition one_plus_two : list lexeme := [Num 1; K TOKENIZER_PLUS; Num 2].

(** [10 PRINT "A";], [10 PRINT "HI"] and [10 PRINT 42] *)
Definition print_with_semicolon : list lexeme :=
  [Num 10; K TOKENIZER_PRINT; Str "A"; K TOKENIZER_SEMICOLON; CR].
Definition print_hi : list lexeme := [Num 10; K TOKENIZER_PRINT; Str "HI"; CR].
Definition print_42 : list lexeme := [Num 10; K TOKENIZER_PRINT; Num 42; CR].

(** [10 STOP] / [20 PRINT "X"] *)
Definition stop_first : list lexeme :=
  [Num 10; K TOKENIZER_STOP; CR; Num 20; K TOKENIZER_PRINT; Str "X"; CR].

(** [10 GOTO 30] / [20 STOP] / [30 STOP] *)
Definition goto_30 : list lexeme :=
  [Num 10; K TOKENIZER_GO; K TOKENIZER_TO; Num 30; CR;
   Num 20; K TOKENIZER_STOP; CR;
   Num 30; K TOKENIZER_STOP; CR].

(** [10 C=7] *)
Definition let_c_7 : list lexeme := [Num 10; IntVar 2; K TOKENIZER_EQ; Num 7; CR].

(** [10 IF 0 THEN PRINT "A" ELSE PRINT "B"] *)
Definition if_else_line : list lexeme :=
  [Num 10; K TOKENIZER_IF; Num 0; K TOKENIZER_THEN; K TOKENIZER_PRINT; Str "A";
   K TOKENIZER_ELSE; K TOKENIZER_PRINT; Str "B"; CR].

(** [10 DATA 1,"A"] / [20 STOP] *)
Definition data_line : list lexeme :=
  [Num 10; K TOKENIZER_DATA; Num 1; K TOKENIZER_COMMA; Str "A"; CR;
   Num 20; K TOKENIZER_STOP; CR].

(** [10 RESTORE 30] / [20 STOP] / [30 DATA 5] *)
Definition restore_30 : list lexeme :=
  [Num 10; K TOKENIZER_RESTORE; Num 30; CR;
   Num 20; K TOKENIZER_STOP; CR;
   Num 30; K TOKENIZER_DATA; Num 5; CR].

Definition poke_100_7 : list lexeme :=
  [Num 10; K TOKENIZER_POKE; Num 100; K TOKENIZER_COMMA; Num 7; CR].

(** The state in which a computation ends, or [s] when it stops. *)
Definition state_after {A S} (r : result (A * S)) (s : S) : S :=
  default s (the_state r).

(** The lines of [goto_30]. *)
Definition goto_30_lines : list (Z * list lexeme) :=
  [(10, [K TOKENIZER_GO; K TOKENIZER_TO; Num 30]);
   (20, [K TOKENIZER_STOP]);
   (30, [K TOKENIZER_STOP])].

(** [10 FOR I=1 TO 9 STEP 2] / [20 NEXT I] *)
Definition count_by_two : list lexeme :=
  [Num 10; K TOKENIZER_FOR; IntVar I_var; K TOKENIZER_EQ; Num 1; K TOKENIZER_TO; Num 9;
   K TOKENIZER_STEP; Num 2; CR;
   Num 20; K TOKENIZER_NEXT; IntVar I_var; CR].

(** [10 DATA 1,A] *)
Definition data_1_A : list lexeme :=
  [Num 10; K TOKENIZER_DATA; Num 1; K TOKENIZER_COMMA; IntVar 0; CR].

(** [10 GOTO 30] / [20 STOP] / [30 C=7] / [20 GOTO 20]: the number 20 is on
    two lines, and the second one is the first to run. *)
Definition goto_20_again : list lexeme :=
  [Num 10; K TOKENIZER_GO; K TOKENIZER_TO; Num 30; CR;
   Num 20; K TOKENIZER_STOP; CR;
   Num 30; IntVar 2; K TOKENIZER_EQ; Num 7; CR;
   Num 20; K TOKENIZER_GO; K TOKENIZER_TO; Num 20; CR].
Definition goto_20_again_lines : list (Z * list lexeme) :=
  [(10, [K TOKENIZER_GO; K TOKENIZER_TO; Num 30]);
   (20, [K TOKENIZER_STOP]);
   (30, [IntVar 2; K TOKENIZER_EQ; Num 7]);
   (20, [K TOKENIZER_GO; K TOKENIZER_TO; Num 20])].

(** What the specification says of a jump to a line the index does not
    hold, at a machine whose next line is [GOTO n] or [GOSUB n]: the line
    runs, the cursor then stands on a line numbered [n], and the index
    then holds an entry for [n]. *)
Definition indexed_once_the_jump_completes {PF : Platform}
    (fuel : nat) (m : machine) (n : Z) : Prop :=
  exists m', ubasic_run fuel m = Done m' /\
    tokenizer_num (tz (es (run m'))) = n /\
    exists pos, index_find (line_index (cxt m')) n = Some pos.

(** * Properties *)

Section Facts.
Context {PF : Platform}.

Lemma array_get_Done {A} (a : list A) i x :
  array_get a i = Done x <-> 0 <= i /\ a !! Z.to_nat i = Some x.
Proof.
  unfold array_get. destruct (Z.ltb_spec i 0).
  - split; [discriminate | lia].
  - destruct (a !! Z.to_nat i); split; intros; intuition congruence.
Qed.

Lemma array_get_in {A} (a : list A) i :
  0 <= i < Z.of_nat (length a) -> exists x, array_get a i = Done x /\ a !! Z.to_nat i = Some x.
Proof.
  intros H. destruct (lookup_lt_is_Some_2 a (Z.to_nat i)) as [x Hx]; [lia|].
  exists x. split; [|done]. apply array_get_Done. split; [lia|done].
Qed.

Lemma array_get_out {A} (a : list A) i :
  Z.of_nat (length a) <= i -> array_get a i = Halt (Fault OutOfBounds).
Proof.
  intros H. unfold array_get. destruct (Z.ltb_spec i 0); [done|].
  rewrite lookup_ge_None_2; [done|lia].
Qed.

Lemma array_set_in {A} (a : list A) i x :
  0 <= i < Z.of_nat (length a) -> array_set a i x = Done (<[Z.to_nat i := x]> a).
Proof.
  intros H. unfold array_set.
  destruct (Z.leb_spec 0 i); [|lia]. destruct (Z.ltb_spec i (Z.of_nat (length a))); [done|lia].
Qed.

Lemma array_set_out {A} (a : list A) i x :
  Z.of_nat (length a) <= i -> array_set a i x = Halt (Fault OutOfBounds).
Proof.
  intros H. unfold array_set.
  destruct (Z.ltb_spec i (Z.of_nat (length a))); [lia|]. by rewrite andb_false_r.
Qed.

Lemma array_set_Halt {A} (a : list A) i x h :
  array_set a i x = Halt h -> h = Fault OutOfBounds.
Proof. unfold array_set. destruct (_ && _); congruence. Qed.

Lemma array_get_Halt {A} (a : list A) i h :
  array_get a i = Halt h -> h = Fault OutOfBounds.
Proof. unfold array_get. destruct (_ <? _); [congruence|]. destruct (_ !! _); congruence. Qed.


Lemma set_integer_variable cx s varnum i :
  Z.land varnum STRINGFLAG = 0 ->
  ubasic_set_variable cx varnum (integer i) s =
    if (0 <=? varnum) && (varnum <=? MAX_VARNUM) then
      match array_set (variables (sto s)) varnum i with
      | Done a => Done (tt, set_sto (set_variables a (sto s)) s)
      | Halt h => Halt h
      end
    else Halt (Exit (Ubasic (line_num cx) "badsw")).
Proof.
  intros Hf. unfold ubasic_set_variable. rewrite Hf. simpl.
  destruct ((0 <=? varnum) && (varnum <=? MAX_VARNUM)); [|done].
  unfold bind, typecheck_int, read_i, get, lift, put, ret; simpl.
  destruct (array_set _ _ _); done.
Qed.

Lemma get_integer_variable cx x varnum e :
  Z.land varnum STRINGFLAG = 0 ->
  ubasic_get_variable cx x varnum e =
    if (0 <=? varnum) && (varnum <=? MAX_VARNUM) then
      match array_get (variables x) varnum with
      | Done i => Done (integer i, e)
      | Halt h => Halt h
      end
    else Halt (Exit (Ubasic (line_num cx) "badv")).
Proof.
  intros Hf. unfold ubasic_get_variable. rewrite Hf. simpl.
  destruct ((0 <=? varnum) && (varnum <=? MAX_VARNUM)); [|done].
  unfold bind, lift, ret. destruct (array_get _ _); done.
Qed.

(** C10.  For a variable number without the string flag, the guard of
    [ubasic_set_variable] and of [ubasic_get_variable] lets through exactly
    [0 <= varnum <= 26 * 11], which are the 287 numbers 0..286; the table
    has 286 entries, so 0..285 reach a slot and 286, which the guard lets
    through as well, is an access one past the last slot. *)
Theorem varnum_guard_admits_one_past_the_table cx s e i varnum :
  Z.land varnum STRINGFLAG = 0 ->
  length (variables (sto s)) = Z.to_nat (26 * 11) ->
  (ubasic_set_variable cx varnum (integer i) s <> Halt (Exit (Ubasic (line_num cx) "badsw"))
     <-> 0 <= varnum <= 26 * 11) /\
  (ubasic_get_variable cx (sto s) varnum e <> Halt (Exit (Ubasic (line_num cx) "badv"))
     <-> 0 <= varnum <= 26 * 11) /\
  (0 <= varnum <= 26 * 11 <-> varnum ∈ seqZ 0 287) /\
  length (seqZ 0 287) = 287%nat /\
  (0 <= varnum <= 285 ->
     ubasic_set_variable cx varnum (integer i) s = Done (tt, set_var_result s varnum i) /\
     exists x, variables (sto s) !! Z.to_nat varnum = Some x /\
               ubasic_get_variable cx (sto s) varnum e = Done (integer x, e)) /\
  (varnum = 286 ->
     ubasic_set_variable cx varnum (integer i) s = Halt (Fault OutOfBounds) /\
     ubasic_get_variable cx (sto s) varnum e = Halt (Fault OutOfBounds)).
Proof.
  intros Hf Hlen.
  rewrite (set_integer_variable _ _ _ _ Hf), (get_integer_variable _ _ _ _ Hf).
  unfold MAX_VARNUM.
  assert (Hg : (0 <=? varnum) && (varnum <=? 26 * 11) = true <-> 0 <= varnum <= 26 * 11).
  { rewrite andb_true_iff, !Z.leb_le. reflexivity. }
  split; [|split; [|split; [|split; [|split]]]].
  - split.
    + intros H. apply Hg. destruct ((0 <=? varnum) && (varnum <=? 26 * 11)); done.
    + intros H0. apply Hg in H0. rewrite H0.
      destruct (array_set _ _ _) eqn:E; [discriminate|]. apply array_set_Halt in E as ->. discriminate.
  - split.
    + intros H. apply Hg. destruct ((0 <=? varnum) && (varnum <=? 26 * 11)); done.
    + intros H0. apply Hg in H0. rewrite H0.
      destruct (array_get _ _) eqn:E; [discriminate|]. apply array_get_Halt in E as ->. discriminate.
  - rewrite elem_of_seqZ. lia.
  - apply length_seqZ.
  - intros Hin.
    assert (Hg' : (0 <=? varnum) && (varnum <=? 26 * 11) = true) by (apply Hg; lia).
    rewrite Hg', array_set_in by lia. split; [done|].
    destruct (array_get_in (variables (sto s)) varnum) as (x & Hx & Hl); [lia|].
    exists x. by rewrite Hx.
  - intros ->. simpl. rewrite array_set_out, array_get_out by lia. done.
Qed.

Lemma bind_Done {S A B} (m : M S A) (k : A -> M S B) s a s' :
  m s = Done (a, s') -> bind m k s = k a s'.
Proof. unfold bind. by intros ->. Qed.

Lemma bind_Halt {S A B} (m : M S A) (k : A -> M S B) s h :
  m s = Halt h -> bind m k s = Halt h.
Proof. unfold bind. by intros ->. Qed.

Lemma tk_Done {A} (m : M estate A) s a e :
  m (es s) = Done (a, e) -> tk m s = Done (a, set_es e s).
Proof. unfold tk, zoom. by intros ->. Qed.

Lemma ev_Done {A} (m : store -> M estate A) s a e :
  m (sto s) (es s) = Done (a, e) -> ev m s = Done (a, set_es e s).
Proof. unfold ev, zoom. by intros ->. Qed.

Lemma accept_tok_ok k e :
  token_of e = k -> accept_tok k e = Done (token_of (advance e), advance e).
Proof.
  intros H. unfold accept_tok, bind, token_now, gets. fold (token_of e). rewrite H.
  destruct (decide (k <> k)); [done|]. reflexivity.
Qed.

Lemma accept_tok_bad k e :
  token_of e <> k -> accept_tok k e = Halt (Exit TokenizerError).
Proof.
  intros H. unfold accept_tok, bind, token_now, gets. fold (token_of e).
  destruct (decide (k <> token_of e)); [done|]. exfalso. apply n. congruence.
Qed.

Lemma accept_either_ok k1 k2 e :
  token_of e = k1 \/ token_of e = k2 ->
  accept_either k1 k2 e = Done (token_of e, advance e).
Proof.
  intros H. unfold accept_either, bind at 1, token_now, gets. fold (token_of e).
  destruct (decide (token_of e = k2)) as [E|E].
  - rewrite (bind_Done _ _ _ _ _ (accept_tok_ok _ _ E)). reflexivity.
  - destruct H as [H|H]; [|done].
    rewrite (bind_Done _ _ _ _ _ (accept_tok_ok _ _ H)). reflexivity.
Qed.

Lemma jump_run cx fuel linenum s :
  jump cx fuel linenum s =
    landed (jump_linenum fuel (line_index cx) linenum (tz (es s)))
           (fun t => set_es (set_tz t (es s)) s).
Proof.
  unfold jump, bind, get, lift, put, landed.
  destruct (jump_linenum _ _ _ _); reflexivity.
Qed.

Lemma take_push {A} (l : list A) i x :
  (i < length l)%nat -> take (S i) (<[i := x]> l) = take i l ++ [x].
Proof.
  intros H. rewrite (take_S_r _ _ x).
  - by rewrite take_insert_ge.
  - by apply list_lookup_insert_eq.
Qed.

(** C6.  GOSUB, once [GO SUB <expr> CR] is read: with fewer than 10 frames
    in use the number under the cursor (the number of the next line) is
    pushed and the interpreter jumps to the target; with 10 frames in use
    it halts on a fatal error, and no state with an eleventh frame exists. *)
Theorem gosub_pushes_below_ten_frames_else_halts cx fuel s linenum e3 :
  token_of (es s) = TOKENIZER_GO ->
  token_of (advance (es s)) = TOKENIZER_SUB ->
  intexpr cx (sto s) fuel (advance (advance (es s))) = Done (linenum, e3) ->
  token_of e3 = TOKENIZER_CR ->
  length (gosub_stack (ctl s)) = MAX_GOSUB_STACK_DEPTH ->
  let n := tokenizer_num (tz (advance e3)) in
  let s' := set_ctl (push_gosub n (ctl s)) (set_es (advance e3) s) in
  ((gosub_stack_ptr (ctl s) < 10)%nat ->
     go_statement cx fuel s =
       landed (jump_linenum fuel (line_index cx) linenum (tz (advance e3)))
              (fun t => set_es (set_tz t (advance e3)) s') /\
     gosub_frames (ctl s') = gosub_frames (ctl s) ++ [n]) /\
  ((10 <= gosub_stack_ptr (ctl s))%nat ->
     go_statement cx fuel s = Halt (Exit (Ubasic (line_num cx) "Return without gosub"))).
Proof.
  intros Hgo Hsub Hexpr Hcr Hlen n s'.
  assert (Hpre :
    go_statement cx fuel s =
      (let* c := gets ctl in
       if (gosub_stack_ptr c <? MAX_GOSUB_STACK_DEPTH)%nat then
         let* n := number_here in
         modify (set_ctl (push_gosub n c)) >>> jump cx fuel linenum
       else ubasic_error cx "Return without gosub") (set_es (advance e3) s)).
  { unfold go_statement.
    erewrite bind_Done by (apply tk_Done, accept_tok_ok, Hgo).
    erewrite bind_Done by (apply tk_Done, accept_either_ok; right; apply Hsub).
    cbn [es set_es sto]. rewrite Hsub.
    destruct (decide (TOKENIZER_SUB = TOKENIZER_TO)); [discriminate|].
    erewrite bind_Done by (apply ev_Done; cbn [es set_es sto]; apply Hexpr).
    erewrite bind_Done by (apply tk_Done; cbn [es set_es sto]; apply accept_tok_ok, Hcr).
    cbn [es set_es sto ctl con ended poked data_position data_seek array_base].
    reflexivity. }
  rewrite Hpre. split.
  - intros Hlt. split.
    + erewrite bind_Done by reflexivity. cbn [ctl set_es].
      destruct (Nat.ltb_spec (gosub_stack_ptr (ctl s)) MAX_GOSUB_STACK_DEPTH);
        [|unfold MAX_GOSUB_STACK_DEPTH in *; lia].
      erewrite bind_Done by reflexivity.
      erewrite bind_Done by reflexivity.
      rewrite jump_run. reflexivity.
    + unfold gosub_frames, s', push_gosub. simpl. apply take_push. rewrite Hlen.
      unfold MAX_GOSUB_STACK_DEPTH. lia.
  - intros Hge. unfold bind, gets. simpl.
    destruct (Nat.ltb_spec (gosub_stack_ptr (ctl s)) MAX_GOSUB_STACK_DEPTH);
      [unfold MAX_GOSUB_STACK_DEPTH in *; lia|]. reflexivity.
Qed.

Lemma within_limit_test fs v :
  ((step fs >=? 0) && (v <=? to fs)) || ((step fs <? 0) && (v >=? to fs)) = true
  <-> within_limit fs v.
Proof.
  unfold within_limit.
  rewrite orb_true_iff, !andb_true_iff, Z.geb_le, Z.leb_le, Z.ltb_lt, Z.geb_le. lia.
Qed.

(** C2.  NEXT on the variable of the top For frame adds the step of the
    frame to the variable.  While the new value is within the limit, in the
    direction of the step, the interpreter jumps to the line recorded by FOR
    and the frames are as before; otherwise the top frame is popped and the
    cursor moves behind the end of the line.  NEXT on another variable is
    the fatal error "Mismatched NEXT". *)
Theorem next_steps_the_loop_variable cx fuel s p fs i :
  token_of (es s) = TOKENIZER_NEXT ->
  token_of (advance (es s)) = TOKENIZER_INTVAR ->
  for_stack_ptr (ctl s) = S p ->
  for_stack (ctl s) !! p = Some fs ->
  let var := tokenizer_variable_num (tz (advance (es s))) in
  let e2 := advance (advance (es s)) in
  let v := int_add i (step fs) in
  let s1 := set_var_result (set_es e2 s) var v in
  (var = for_variable fs ->
   Z.land var STRINGFLAG = 0 -> 0 <= var <= 285 ->
   length (variables (sto s)) = Z.to_nat MAX_VARNUM ->
   variables (sto s) !! Z.to_nat var = Some i ->
     variables (sto s1) !! Z.to_nat var = Some v /\
     (within_limit fs v ->
        next_statement cx fuel s =
          landed (jump_linenum fuel (line_index cx) (line_after_for fs) (tz e2))
                 (fun t => set_es (set_tz t e2) s1) /\
        for_frames (ctl s1) = for_frames (ctl s)) /\
     (~ within_limit fs v -> token_of e2 = TOKENIZER_CR ->
        next_statement cx fuel s =
          Done (tt, set_es (advance e2) (set_ctl (pop_for (ctl s)) s1)) /\
        for_frames (ctl s) = for_frames (pop_for (ctl s)) ++ [fs])) /\
  (var <> for_variable fs ->
     next_statement cx fuel s = Halt (Exit (Ubasic (line_num cx) "Mismatched NEXT"))).
Proof.
  intros Hnext Hvar Hptr Hfs var e2 v s1.
  assert (Hhead : next_statement cx fuel s =
    (if var =? for_variable fs then
       let* t := ev (fun x => ubasic_get_variable cx x var) in
       let* i := read_i t in
       let t := set_i t (int_add i (step fs)) in
       ubasic_set_variable cx var t >>>
       let* i := read_i t in
       if ((step fs >=? 0) && (i <=? to fs)) || ((step fs <? 0) && (i >=? to fs)) then
         jump cx fuel (line_after_for fs)
       else
         modify (set_ctl (pop_for (ctl s))) >>>
         tk (accept_tok TOKENIZER_CR) >>> ret tt
     else ubasic_error cx "Mismatched NEXT") (set_es e2 s)).
  { unfold next_statement.
    erewrite bind_Done by (apply tk_Done, accept_tok_ok, Hnext).
    erewrite bind_Done by reflexivity.
    erewrite bind_Done by (apply tk_Done; cbn [es set_es]; apply accept_tok_ok, Hvar).
    erewrite bind_Done by reflexivity.
    cbn [es set_es ctl tz]. rewrite Hptr, Hfs. unfold pop_for. rewrite Hptr. reflexivity. }
  rewrite Hhead. clear Hhead. split.
  - intros Heq Hflag Hrange Hlen Hi.
    rewrite <- Heq, Z.eqb_refl.
    assert (Hget : ev (fun x => ubasic_get_variable cx x var) (set_es e2 s)
                   = Done (integer i, set_es e2 s)).
    { unfold ev, zoom. cbn [sto es set_es]. rewrite get_integer_variable by done.
      unfold MAX_VARNUM.
      destruct (Z.leb_spec 0 var); [|lia]. destruct (Z.leb_spec var (26 * 11)); [|lia].
      cbn [andb]. replace (array_get (variables (sto s)) var) with (Done (A:=Z) i); [reflexivity|].
      symmetry. apply array_get_Done. split; [lia|done]. }
    assert (Hset : ubasic_set_variable cx var (set_i (integer i) v) (set_es e2 s)
                   = Done (tt, s1)).
    { change (set_i (integer i) v) with (integer v).
      rewrite set_integer_variable by done. unfold MAX_VARNUM.
      destruct (Z.leb_spec 0 var); [|lia]. destruct (Z.leb_spec var (26 * 11)); [|lia].
      cbn [andb]. rewrite array_set_in; [reflexivity|]. cbn [sto set_es]. rewrite Hlen.
      unfold MAX_VARNUM. lia. }
    split; [|split].
    + unfold s1, set_var_result. cbn [sto set_sto set_es variables set_variables].
      apply list_lookup_insert_eq. rewrite Hlen. unfold MAX_VARNUM. lia.
    + intros Hw. split; [|reflexivity].
      erewrite bind_Done by apply Hget.
      erewrite bind_Done by reflexivity.
      erewrite bind_Done by apply Hset.
      erewrite bind_Done by reflexivity.
      apply within_limit_test in Hw. cbn [d set_i]. fold v. rewrite Hw.
      rewrite jump_run. reflexivity.
    + intros Hw Hcr. split.
      * erewrite bind_Done by apply Hget.
        erewrite bind_Done by reflexivity.
        erewrite bind_Done by apply Hset.
        erewrite bind_Done by reflexivity.
        cbn [d set_i]. fold v.
        destruct (((step fs >=? 0) && (v <=? to fs)) || ((step fs <? 0) && (v >=? to fs))) eqn:E.
        { apply within_limit_test in E. contradiction. }
        erewrite bind_Done by reflexivity.
        erewrite bind_Done by (apply tk_Done; apply accept_tok_ok; exact Hcr).
        reflexivity.
      * unfold for_frames, pop_for. cbn [for_stack_ptr for_stack]. rewrite Hptr. cbn [pred].
        by apply take_S_r.
  - intros Hne. destruct (Z.eqb_spec var (for_variable fs)); [contradiction|]. reflexivity.
Qed.
Lemma bind_inv {S A B} (m : M S A) (k : A -> M S B) s r :
  bind m k s = Done r -> exists a s', m s = Done (a, s') /\ k a s' = Done r.
Proof.
  unfold bind. destruct (m s) as [[a s']|]; [|discriminate]. eauto.
Qed.

Lemma tk_inv {A} (m : M estate A) s a s' :
  tk m s = Done (a, s') -> exists e, m (es s) = Done (a, e) /\ s' = set_es e s.
Proof.
  unfold tk, zoom. destruct (m (es s)) as [[a' e]|]; [|discriminate].
  intros [= -> <-]. eauto.
Qed.

Lemma ev_inv {A} (m : store -> M estate A) s a s' :
  ev m s = Done (a, s') -> exists e, m (sto s) (es s) = Done (a, e) /\ s' = set_es e s.
Proof.
  unfold ev, zoom. destruct (m (sto s) (es s)) as [[a' e]|]; [|discriminate].
  intros [= -> <-]. eauto.
Qed.

Lemma accept_tok_inv k e r e' :
  accept_tok k e = Done (r, e') -> token_of e = k /\ e' = advance e.
Proof.
  intros H. destruct (decide (token_of e = k)) as [E|E].
  - rewrite (accept_tok_ok _ _ E) in H. by injection H as _ <-.
  - rewrite (accept_tok_bad _ _ E) in H. discriminate.
Qed.

(** An assignment of an integer value that returns wrote one slot of
    [variables]. *)
Lemma set_variable_integer_inv cx var t s s' :
  type t = TYPE_INTEGER ->
  ubasic_set_variable cx var t s = Done (tt, s') ->
  exists i, d t = d_i i /\ Z.land var STRINGFLAG = 0 /\
            0 <= var < Z.of_nat (length (variables (sto s))) /\
            s' = set_var_result s var i.
Proof.
  intros Ht. unfold ubasic_set_variable.
  destruct (Z.eqb_spec (Z.land var STRINGFLAG) 0) as [Hf|Hf]; cbn [negb].
  - unfold bind at 1, typecheck_int. rewrite Ht.
    destruct (decide (TYPE_INTEGER <> TYPE_INTEGER)); [done|]. cbn [ret].
    destruct ((0 <=? var) && (var <=? MAX_VARNUM)); [|discriminate].
    destruct t as [ty [i|p]]; cbn [read_i d]; [|discriminate].
    unfold bind, ret, get, lift, put. unfold array_set.
    destruct (Z.leb_spec 0 var); [|discriminate].
    destruct (Z.ltb_spec var (Z.of_nat (length (variables (sto s))))); [|discriminate].
    cbn [andb]. intros [= <-]. exists i. repeat split; try done; lia.
  - unfold bind at 1, typecheck_string. rewrite Ht.
    destruct (decide (TYPE_INTEGER <> TYPE_STRING)) as [|n]; [discriminate|].
    exfalso. apply n. discriminate.
Qed.

Lemma for_statement_split cx fuel s :
  for_statement cx fuel s =
    (let* h := for_header cx fuel in
     match h with
     | (for_variable, t, to, step) =>
         let* c := gets ctl in
         if (for_stack_ptr c <? MAX_FOR_STACK_DEPTH)%nat then
           let* n := number_here in
           modify (set_ctl (push_for (For_state n for_variable to step) c))
         else ret tt
     end) s.
Proof.
  unfold for_statement, for_header, bind.
  destruct (tk (accept_tok TOKENIZER_FOR) s) as [[? s1]|]; [|done].
  destruct (variable_here s1) as [[var s2]|]; [|done].
  destruct (tk (accept_tok TOKENIZER_INTVAR) s2) as [[? s3]|]; [|done].
  destruct (tk (accept_tok TOKENIZER_EQ) s3) as [[? s4]|]; [|done].
  destruct (ev _ s4) as [[tv s5]|]; [|done].
  destruct (typecheck_int cx tv s5) as [[? s6]|]; [|done].
  destruct (ubasic_set_variable cx var tv s6) as [[? s7]|]; [|done].
  destruct (tk (accept_tok TOKENIZER_TO) s7) as [[? s8]|]; [|done].
  destruct (ev _ s8) as [[lim s9]|]; [|done].
  destruct (token_here s9) as [[tok s10]|]; [|done].
  destruct (decide (tok = TOKENIZER_STEP)).
  - destruct (tk (accept_tok TOKENIZER_STEP) s10) as [[? s11]|]; [|done].
    destruct (ev _ s11) as [[stp s12]|]; [|done].
    destruct (tk (accept_tok TOKENIZER_CR) s12) as [[? s13]|]; done.
  - cbn [ret]. destruct (tk (accept_tok TOKENIZER_CR) s10) as [[? s13]|]; done.
Qed.

(** C7.  FOR with four frames in use, once the line is read: the statement
    returns normally, in the state the reading of the line left; the loop
    variable holds its initial value there, the cursor is behind the end of
    the line (so the body runs), and the stacks and the output are those
    from before the statement: no frame is pushed and nothing is printed. *)
Theorem for_with_full_stack_assigns_and_drops_frame cx fuel s var t to step s1 :
  for_header cx fuel s = Done ((var, t, to, step), s1) ->
  for_stack_ptr (ctl s) = 4%nat ->
  for_statement cx fuel s = Done (tt, s1) /\
  (exists init, d t = d_i init /\ variables (sto s1) !! Z.to_nat var = Some init) /\
  (exists e, token_of e = TOKENIZER_CR /\ es s1 = advance e) /\
  ctl s1 = ctl s /\
  for_frames (ctl s1) = for_frames (ctl s) /\
  con s1 = con s.
Proof.
  intros Hh Hfull.
  assert (Hfacts :
    (exists init, d t = d_i init /\ variables (sto s1) !! Z.to_nat var = Some init) /\
    (exists e, token_of e = TOKENIZER_CR /\ es s1 = advance e) /\
    ctl s1 = ctl s /\ con s1 = con s).
  { unfold for_header in Hh.
    apply bind_inv in Hh as (r1 & q1 & (f1 & _ & ->)%tk_inv & Hh).
    apply bind_inv in Hh as (var' & q2 & Hvar & Hh). injection Hvar as _ <-.
    apply bind_inv in Hh as (r3 & q3 & (f3 & _ & ->)%tk_inv & Hh).
    apply bind_inv in Hh as (r4 & q4 & (f4 & _ & ->)%tk_inv & Hh).
    apply bind_inv in Hh as (t' & q5 & (f5 & _ & ->)%ev_inv & Hh).
    apply bind_inv in Hh as (r6 & q6 & Hty & Hh).
    unfold typecheck_int in Hty.
    destruct (decide (type t' <> TYPE_INTEGER)) as [|Hint]; [discriminate|].
    injection Hty as _ <-.
    apply bind_inv in Hh as ([] & q7 & Hset & Hh).
    apply set_variable_integer_inv in Hset as (init & Hd & _ & Hr & ->);
      [|by destruct (type t') eqn:?; [|exfalso; apply Hint]].
    apply bind_inv in Hh as (r8 & q8 & (f8 & _ & ->)%tk_inv & Hh).
    apply bind_inv in Hh as (to' & q9 & (f9 & _ & ->)%ev_inv & Hh).
    apply bind_inv in Hh as (tok & q10 & (f10 & _ & ->)%tk_inv & Hh).
    apply bind_inv in Hh as (step' & x11 & Hstep & Hh).
    apply bind_inv in Hh as (r12 & q12 & (ecr & (Hcr & ->)%accept_tok_inv & ->)%tk_inv & Hh).
    injection Hh as -> -> -> -> <-.
    assert (Hx11 : sto x11 = sto (set_var_result s var init) /\ ctl x11 = ctl s /\ con x11 = con s).
    { destruct (decide (tok = TOKENIZER_STEP)).
      - apply bind_inv in Hstep as (r13 & y & (f13 & _ & ->)%tk_inv & Hstep).
        apply ev_inv in Hstep as (f14 & _ & ->). done.
      - injection Hstep as _ <-. done. }
    destruct Hx11 as (Hsto & Hctl & Hcon).
    split; [|split; [|split]].
    - exists init. split; [done|]. cbn [sto set_es]. rewrite Hsto.
      unfold set_var_result. cbn [sto set_sto variables set_variables].
      apply list_lookup_insert_eq. cbn [sto set_es] in Hr. lia.
    - exists (es x11). split; [exact Hcr|]. reflexivity.
    - exact Hctl.
    - exact Hcon. }
  destruct Hfacts as (Hvar & Hcur & Hctl & Hcon).
  split; [|split; [exact Hvar|split; [exact Hcur|split; [exact Hctl|split; [by rewrite Hctl|exact Hcon]]]]].
  rewrite for_statement_split. rewrite (bind_Done _ _ _ _ _ Hh).
  erewrite bind_Done by reflexivity.
  rewrite Hctl, Hfull. reflexivity.
Qed.

(** *** The string workspace *)

Lemma slice_Done (l : list Z) off n bs :
  slice l off n = Done bs <->
  0 <= off /\ 0 <= n /\ off + n <= Z.of_nat (length l) /\
  bs = take (Z.to_nat n) (drop (Z.to_nat off) l).
Proof.
  unfold slice.
  destruct (Z.leb_spec 0 off), (Z.leb_spec 0 n), (Z.leb_spec (off + n) (Z.of_nat (length l)));
    cbn [andb]; split; try (intros [= <-]); try discriminate; try lia; try done.
  intros (_ & _ & _ & ->). done.
Qed.

Lemma blob_store_Done (blob : list Z) off bs blob' :
  blob_store blob off bs = Done blob' <->
  0 <= off /\ off + Z.of_nat (length bs) <= Z.of_nat (length blob) /\
  blob' = take (Z.to_nat off) blob ++ bs ++ drop (Z.to_nat off + length bs) blob.
Proof.
  unfold blob_store.
  destruct (Z.leb_spec 0 off), (Z.leb_spec (off + Z.of_nat (length bs)) (Z.of_nat (length blob)));
    cbn [andb]; split; try (intros [= <-]); try discriminate; try lia; try done.
  intros (_ & _ & ->). done.
Qed.

Lemma stored_lookup (blob bs : list Z) (o i : nat) :
  (o + length bs <= length blob)%nat ->
  (take o blob ++ bs ++ drop (o + length bs) blob) !! i =
    if decide (o <= i < o + length bs)%nat then bs !! (i - o)%nat else blob !! i.
Proof.
  intros Hfit.
  assert (Hlt : length (take o blob) = o) by (rewrite length_take; lia).
  destruct (decide (o <= i < o + length bs)%nat) as [Hin|Hout].
  - rewrite lookup_app_r by lia. rewrite Hlt. rewrite lookup_app_l by lia. done.
  - destruct (decide (i < o)%nat).
    + rewrite lookup_app_l by lia. by rewrite lookup_take_lt.
    + rewrite lookup_app_r by lia. rewrite Hlt.
      rewrite lookup_app_r by lia. rewrite lookup_drop. f_equal. lia.
Qed.

Lemma stored_length (blob bs : list Z) (o : nat) :
  (o + length bs <= length blob)%nat ->
  length (take o blob ++ bs ++ drop (o + length bs) blob) = length blob.
Proof. intros H. rewrite !length_app, length_take, length_drop. lia. Qed.

Lemma window_lookup (l : list Z) (a n i : nat) :
  take n (drop a l) !! i = if decide (i < n)%nat then l !! (a + i)%nat else None.
Proof. rewrite lookup_take. destruct (decide (i < n)%nat); [apply lookup_drop|done]. Qed.

Lemma blob_store_fits (blob : list Z) off bs :
  0 <= off -> off + Z.of_nat (length bs) <= Z.of_nat (length blob) ->
  exists blob', blob_store blob off bs = Done blob'.
Proof. intros H1 H2. eexists. apply blob_store_Done. eauto. Qed.

Lemma blob_store_length blob off bs blob' :
  blob_store blob off bs = Done blob' -> length blob' = length blob.
Proof.
  intros (H0 & Hfit & ->)%blob_store_Done. apply stored_length. lia.
Qed.

(** What was stored is read back. *)
Lemma slice_store_same blob off bs blob' :
  blob_store blob off bs = Done blob' ->
  slice blob' off (Z.of_nat (length bs)) = Done bs.
Proof.
  intros H. pose proof (blob_store_length _ _ _ _ H) as Hlen.
  apply blob_store_Done in H as (H0 & Hfit & ->).
  apply slice_Done. split; [lia|split; [lia|split; [lia|]]].
  rewrite Nat2Z.id. apply list_eq. intros i.
  rewrite window_lookup, stored_lookup by lia.
  destruct (decide (i < length bs)%nat).
  - destruct (decide _); [f_equal; lia|lia].
  - apply lookup_ge_None_2. lia.
Qed.

(** A store leaves the bytes outside its range alone. *)
Lemma slice_store_other blob off bs blob' a n :
  blob_store blob off bs = Done blob' ->
  a + n <= off \/ off + Z.of_nat (length bs) <= a ->
  slice blob' a n = slice blob a n.
Proof.
  intros H Hout. pose proof (blob_store_length _ _ _ _ H) as Hlen.
  apply blob_store_Done in H as (H0 & Hfit & ->).
  unfold slice. rewrite Hlen.
  destruct ((0 <=? a) && (0 <=? n) && (a + n <=? Z.of_nat (length blob))) eqn:E; [|done].
  apply andb_true_iff in E as [[Ha Hn]%andb_true_iff Hb].
  apply Z.leb_le in Ha, Hn, Hb. f_equal. apply list_eq. intros i.
  rewrite !window_lookup. destruct (decide (i < Z.to_nat n)%nat); [|done].
  rewrite stored_lookup by lia. destruct (decide _); [lia|done].
Qed.

Lemma slice_app (l : list Z) o n1 n2 x y :
  slice l o n1 = Done x -> slice l (o + n1) n2 = Done y ->
  slice l o (n1 + n2) = Done (x ++ y).
Proof.
  intros (Ho & Hn1 & Hf1 & ->)%slice_Done (_ & Hn2 & Hf2 & ->)%slice_Done.
  apply slice_Done. split; [lia|split; [lia|split; [lia|]]].
  rewrite !Z2Nat.inj_add by lia. rewrite <- take_take_drop. f_equal.
  by rewrite drop_drop.
Qed.

Lemma byte_at_head x (bs : list Z) : byte_at (x :: bs) 0 = Done x.
Proof.
  unfold byte_at.
  assert (H : slice (x :: bs) 0 1 = Done [x]).
  { apply slice_Done. cbn [length]. split; [lia|split; [lia|split; [lia|reflexivity]]]. }
  by rewrite H.
Qed.

Lemma memcpy_from_tail x (bs : list Z) :
  memcpy_from (x :: bs) 1 (Z.of_nat (length bs)) = Done bs.
Proof.
  unfold memcpy_from. destruct (Z.eqb_spec (Z.of_nat (length bs)) 0) as [E|E].
  - destruct bs; [done|simpl in E; lia].
  - apply slice_Done. split; [lia|split; [lia|split]].
    + cbn [length]. lia.
    + rewrite Nat2Z.id. change (Z.to_nat 1) with 1%nat. cbn [drop]. by rewrite firstn_all.
Qed.

(** The buffer of a string laid out in the workspace. *)
Lemma buffer_of_blob sto blob off (bs : list Z) :
  slice blob off (1 + Z.of_nat (length bs)) = Done (Z.of_nat (length bs) :: bs) ->
  buffer_of sto blob (Pblob off) = Done (Z.of_nat (length bs) :: bs).
Proof.
  intros H. cbn [buffer_of].
  assert (H1 : slice blob off 1 = Done [Z.of_nat (length bs)]).
  { apply slice_Done in H as (Ho & _ & Hf & Heq).
    apply slice_Done. split; [lia|split; [lia|split; [lia|]]].
    change (Z.to_nat 1) with 1%nat.
    rewrite Z2Nat.inj_add, Nat2Z.id in Heq by lia. change (Z.to_nat 1) with 1%nat in Heq.
    destruct (drop (Z.to_nat off) blob) as [|y rest]; [discriminate|].
    cbn in Heq. injection Heq as -> _. done. }
  rewrite H1. rewrite <- H. f_equal. lia.
Qed.

Lemma buffer_of_blob_inv sto blob o len (bs : list Z) :
  buffer_of sto blob (Pblob o) = Done (len :: bs) ->
  slice blob o 1 = Done [len] /\ slice blob o (len + 1) = Done (len :: bs).
Proof.
  cbn [buffer_of]. destruct (slice blob o 1) as [[|y [|]]|] eqn:E1; try discriminate.
  intros E2. enough (y = len) as -> by done.
  apply slice_Done in E1 as (_ & _ & _ & H1).
  apply slice_Done in E2 as (_ & _ & _ & H2).
  change (Z.to_nat 1) with 1%nat in H1.
  destruct (drop (Z.to_nat o) blob) as [|z rest]; [discriminate|].
  destruct (Z.to_nat (y + 1)); [discriminate|].
  cbn in H1, H2. congruence.
Qed.

(** A store above a string in the workspace leaves it alone, and so does
    any store when the string is not in the workspace. *)
Lemma buffer_kept sto blob p (bs : list Z) lim off new blob' :
  buffer_of sto blob p = Done (Z.of_nat (length bs) :: bs) ->
  match p with Pblob o => o + Z.of_nat (length bs) + 1 <= lim | _ => True end ->
  blob_store blob off new = Done blob' ->
  lim <= off ->
  buffer_of sto blob' p = Done (Z.of_nat (length bs) :: bs).
Proof.
  intros Hbuf Hbelow Hstore Hoff.
  destruct p as [|o|b|]; try exact Hbuf.
  apply buffer_of_blob_inv in Hbuf as [H1 H2].
  cbn [buffer_of].
  rewrite (slice_store_other _ _ _ _ o 1 Hstore) by lia. rewrite H1.
  rewrite (slice_store_other _ _ _ _ o _ Hstore) by lia. exact H2.
Qed.

Lemma string_at_run sto p e bs :
  buffer_of sto (stringblob e) p = Done bs -> string_at sto p e = Done (bs, e).
Proof. unfold string_at, bind, get, lift. by intros ->. Qed.

Lemma blob_write_run off bs e b :
  blob_store (stringblob e) off bs = Done b ->
  blob_write off bs e = Done (tt, set_stringblob b e).
Proof. unfold blob_write, bind, get, lift, put. by intros ->. Qed.

Lemma string_temp_run cx len e :
  string_temp cx len e =
    if len >? 255 then Halt (Exit (Ubasic (line_num cx) "String too long"))
    else if nextstr e + (len + 1) >? sizeof_stringblob
    then Halt (Exit (Ubasic (line_num cx) "Out of temporary space"))
    else match blob_store (stringblob e) (nextstr e) [to_uint8 len] with
         | Done b => Done (nextstr e, Estate (tz e) b (nextstr e + (len + 1)))
         | Halt h => Halt h
         end.
Proof.
  unfold string_temp, bind at 1, gets.
  destruct (len >? 255); [reflexivity|].
  unfold bind at 1, modify, bind at 1, gets. cbn [nextstr set_nextstr].
  destruct (nextstr e + (len + 1) >? sizeof_stringblob); [reflexivity|].
  unfold bind, blob_write, get, lift, put, ret. cbn -[blob_store Z.add to_uint8].
  destruct (blob_store _ _ _); reflexivity.
Qed.

(** C4, as amended.  [a + b] on strings stops on "String too long" exactly
    when the two lengths add up to more than 255.  Otherwise, when the
    string workspace has room for the length byte and the bytes, the result
    is a new string in the workspace whose bytes are those of [a] and then
    those of [b]; when it has not, the evaluation stops on "Out of
    temporary space". *)
Theorem concatenation_needs_room_in_the_workspace cx sto e a b pa pb sa sb :
  arena_ok e ->
  type a = TYPE_STRING -> d a = d_p pa -> holds sto e pa sa ->
  type b = TYPE_STRING -> d b = d_p pb -> holds sto e pb sb ->
  let n := Z.of_nat (length sa) + Z.of_nat (length sb) in
  let r := expr_step cx sto TOKENIZER_PLUS a b e in
  (r = Halt (Exit (Ubasic (line_num cx) "String too long")) <-> 255 < n) /\
  (n <= 255 -> nextstr e + n + 1 <= sizeof_stringblob ->
     exists e', r = Done (Typevalue TYPE_STRING (d_p (Pblob (nextstr e))), e') /\
                holds sto e' (Pblob (nextstr e)) (sa ++ sb) /\
                nextstr e' = nextstr e + n + 1 /\ tz e' = tz e) /\
  (n <= 255 -> sizeof_stringblob < nextstr e + n + 1 ->
     r = Halt (Exit (Ubasic (line_num cx) "Out of temporary space"))).
Proof.
  intros [Hlen Hnext] Hta Hda [Hba Hla] Htb Hdb [Hbb Hlb] n r.
  assert (Hr : r =
    (let* p := string_temp cx n in
     let* sv := string_at sto pa in
     let* b1 := lift (memcpy_from sv 1 (Z.of_nat (length sa))) in
     blob_write (p + 1) b1 >>>
     let* st := string_at sto pb in
     let* l2 := lift (byte_at st 0) in
     let* b2 := lift (memcpy_from st 1 l2) in
     blob_write (p + Z.of_nat (length sa) + 1) b2 >>>
     ret (set_p a (Pblob p))) e).
  { unfold r, expr_step.
    destruct (decide (TOKENIZER_PLUS <> TOKENIZER_PLUS)); [done|].
    erewrite bind_Done by reflexivity.
    unfold typecheck_same. rewrite Hta, Htb.
    destruct (decide (TYPE_STRING <> TYPE_STRING)); [done|].
    erewrite bind_Done by reflexivity.
    destruct (decide (TYPE_STRING = TYPE_INTEGER)); [discriminate|].
    unfold read_p. rewrite Hda, Hdb.
    erewrite bind_Done by reflexivity.
    erewrite bind_Done by (apply string_at_run, Hba).
    rewrite byte_at_head. erewrite bind_Done by reflexivity.
    erewrite bind_Done by reflexivity.
    erewrite bind_Done by (apply string_at_run, Hbb).
    rewrite byte_at_head. erewrite bind_Done by reflexivity.
    reflexivity. }
  rewrite Hr. clear Hr r. unfold sizeof_stringblob in *.
  set (top := nextstr e) in *.
  set (la := Z.of_nat (length sa)) in *. set (lb := Z.of_nat (length sb)) in *.
  match goal with |- context [bind (string_temp cx n) ?k0] => set (k := k0) end.
  assert (Hlong : 255 < n ->
    bind (string_temp cx n) k e = Halt (Exit (Ubasic (line_num cx) "String too long"))).
  { intros H. unfold bind at 1. rewrite string_temp_run.
    destruct (Z.gtb_spec n 255); [done|lia]. }
  assert (Hfull : n <= 255 -> 512 < top + n + 1 ->
    bind (string_temp cx n) k e = Halt (Exit (Ubasic (line_num cx) "Out of temporary space"))).
  { intros H H'. unfold bind at 1. rewrite string_temp_run. fold top.
    destruct (Z.gtb_spec n 255); [lia|].
    unfold sizeof_stringblob. destruct (Z.gtb_spec (top + (n + 1)) 512); [done|lia]. }
  assert (Hroom : n <= 255 -> top + n + 1 <= 512 ->
    exists e', bind (string_temp cx n) k e
                 = Done (Typevalue TYPE_STRING (d_p (Pblob top)), e') /\
               holds sto e' (Pblob top) (sa ++ sb) /\
               nextstr e' = top + n + 1 /\ tz e' = tz e).
  { intros Hn Hfit.
    destruct (blob_store_fits (stringblob e) top [to_uint8 n]) as [b1 E1];
      [lia|cbn [length]; lia|].
    destruct (blob_store_fits b1 (top + 1) sa) as [b2 E2];
      [lia|rewrite (blob_store_length _ _ _ _ E1); fold la; lia|].
    destruct (blob_store_fits b2 (top + la + 1) sb) as [b3 E3];
      [lia|rewrite (blob_store_length _ _ _ _ E2), (blob_store_length _ _ _ _ E1); fold lb; lia|].
    assert (Hu : to_uint8 n = n) by (unfold to_uint8; apply Z.mod_small; lia).
    rewrite Hu in E1.
    exists (Estate (tz e) b3 (top + (n + 1))).
    split; [|split; [|split; [cbn; lia|reflexivity]]].
    - unfold bind at 1. rewrite string_temp_run. fold top.
      destruct (Z.gtb_spec n 255); [lia|].
      unfold sizeof_stringblob. destruct (Z.gtb_spec (top + (n + 1)) 512); [lia|].
      rewrite Hu, E1. unfold k.
      erewrite bind_Done
        by (apply string_at_run; cbn [stringblob];
            exact (buffer_kept _ _ _ _ top _ _ _ Hba Hla E1 (Z.le_refl _))).
      fold la. rewrite memcpy_from_tail. erewrite bind_Done by reflexivity.
      erewrite bind_Done by (apply blob_write_run; cbn [stringblob]; exact E2).
      erewrite bind_Done
        by (apply string_at_run; cbn [stringblob set_stringblob];
            refine (buffer_kept _ _ _ _ top _ _ _ _ Hlb E2 _); [|lia];
            exact (buffer_kept _ _ _ _ top _ _ _ Hbb Hlb E1 (Z.le_refl _))).
      rewrite byte_at_head. erewrite bind_Done by reflexivity.
      fold lb. rewrite memcpy_from_tail. erewrite bind_Done by reflexivity.
      erewrite bind_Done by (apply blob_write_run; cbn [stringblob set_stringblob]; exact E3).
      unfold ret, set_p. rewrite Hta. reflexivity.
    - split; [|cbn [nextstr]; rewrite length_app; lia].
      cbn [stringblob]. apply buffer_of_blob.
      rewrite length_app, Nat2Z.inj_add. fold la lb.
      replace (la + lb)%Z with n by reflexivity.
      assert (S1 : slice b3 top 1 = Done [n]).
      { rewrite (slice_store_other _ _ _ _ top 1 E3) by lia.
        rewrite (slice_store_other _ _ _ _ top 1 E2) by lia.
        exact (slice_store_same _ _ _ _ E1). }
      assert (S2 : slice b3 (top + 1) la = Done sa).
      { rewrite (slice_store_other _ _ _ _ (top + 1) la E3) by lia.
        exact (slice_store_same _ _ _ _ E2). }
      assert (S3 : slice b3 (top + 1 + la) lb = Done sb).
      { replace (top + 1 + la) with (top + la + 1) by lia.
        exact (slice_store_same _ _ _ _ E3). }
      pose proof (slice_app _ _ _ _ _ _ S2 S3) as S23.
      pose proof (slice_app _ _ _ _ _ _ S1 S23) as S.
      exact S. }
  split; [|split].
  - split; [|exact Hlong].
    intros H. destruct (Z.le_gt_cases n 255) as [Hn|Hn]; [|lia]. exfalso.
    destruct (Z.le_gt_cases (top + n + 1) 512) as [Hf|Hf].
    + destruct (Hroom Hn Hf) as (e' & Hrun & _). rewrite Hrun in H. discriminate.
    + rewrite (Hfull Hn) in H by lia. discriminate.
  - exact Hroom.
  - intros Hn Hf. apply Hfull; [exact Hn|lia].
Qed.

(** *** The scan for a line *)

Lemma token_at t x :
  program t !! ptr t = Some x -> tokenizer_token t = lx_token x.
Proof. unfold tokenizer_token, at_cursor. by intros ->. Qed.

Lemma num_at t x :
  program t !! ptr t = Some x -> tokenizer_num t = lx_num x.
Proof. unfold tokenizer_num, at_cursor. by intros ->. Qed.

Lemma next_at t x :
  program t !! ptr t = Some x -> lx_token x <> TOKENIZER_ENDOFINPUT ->
  tokenizer_next t = set_ptr (S (ptr t)) t.
Proof.
  intros H Hx. unfold tokenizer_next, tokenizer_finished.
  rewrite (token_at _ _ H). by rewrite bool_decide_eq_false_2.
Qed.

Lemma at_eol_inner t x :
  program t !! ptr t = Some x -> inner x -> at_eol t = false.
Proof.
  intros H [H1 H2]. unfold at_eol. rewrite (token_at _ _ H).
  by rewrite !bool_decide_eq_false_2.
Qed.

Lemma at_eol_cr t x :
  program t !! ptr t = Some x -> lx_token x = TOKENIZER_CR -> at_eol t = true.
Proof.
  intros H H1. unfold at_eol. rewrite (token_at _ _ H), H1. reflexivity.
Qed.

(** From a token of a line to the end-of-line token of that line. *)
Lemma skip_to_eol_line body : forall pre x rest t fuel,
  program t = pre ++ x :: body ++ CR :: rest ->
  ptr t = length pre ->
  lx_token x <> TOKENIZER_ENDOFINPUT ->
  Forall inner body ->
  (length body <= fuel)%nat ->
  skip_to_eol fuel t = Done (set_ptr (length pre + 1 + length body) t).
Proof.
  induction body as [|y body IH]; intros pre x rest t fuel Hprog Hptr Hx Hbody Hfuel.
  - assert (Hcur : program t !! ptr t = Some x).
    { rewrite Hprog, Hptr. by apply list_lookup_middle. }
    assert (Hnext : program (set_ptr (S (ptr t)) t) !! ptr (set_ptr (S (ptr t)) t) = Some CR).
    { cbn [program ptr set_ptr]. rewrite Hprog, Hptr. cbn [app].
      change (pre ++ x :: CR :: rest) with (pre ++ [x] ++ CR :: rest).
      rewrite app_assoc. apply list_lookup_middle. rewrite length_app. cbn. lia. }
    destruct fuel; cbn [skip_to_eol]; rewrite (next_at _ _ Hcur Hx);
      rewrite (at_eol_cr _ CR Hnext eq_refl); rewrite Hptr; do 2 f_equal; cbn; lia.
  - assert (Hcur : program t !! ptr t = Some x).
    { rewrite Hprog, Hptr. by apply list_lookup_middle. }
    apply Forall_cons_1 in Hbody as [Hy Hbody].
    assert (Hnext : program (set_ptr (S (ptr t)) t) !! ptr (set_ptr (S (ptr t)) t) = Some y).
    { cbn [program ptr set_ptr]. rewrite Hprog, Hptr. cbn [app].
      change (pre ++ x :: y :: body ++ CR :: rest) with (pre ++ [x] ++ y :: body ++ CR :: rest).
      rewrite app_assoc. apply list_lookup_middle. rewrite length_app. cbn. lia. }
    destruct fuel as [|fuel]; [cbn in Hfuel; lia|].
    cbn [skip_to_eol]. rewrite (next_at _ _ Hcur Hx).
    rewrite (at_eol_inner _ _ Hnext Hy).
    rewrite (IH (pre ++ [x]) y rest (set_ptr (S (ptr t)) t) fuel).
    + cbn [set_ptr program pushed]. f_equal. unfold set_ptr. f_equal.
      rewrite length_app. cbn. lia.
    + cbn [program set_ptr]. rewrite Hprog. by rewrite <- app_assoc.
    + cbn [ptr set_ptr]. rewrite Hptr, length_app. cbn. lia.
    + apply Hy.
    + done.
    + cbn in Hfuel. lia.
Qed.

Lemma next_numbered_line_eq fuel t :
  next_numbered_line fuel t =
    match skip_to_eol fuel t with
    | Halt h => Halt h
    | Done t =>
        let t := if decide (tokenizer_token t = TOKENIZER_CR)
                 then tokenizer_next t else t in
        if decide (tokenizer_token t <> TOKENIZER_NUMBER) then
          match fuel with
          | O => Halt OutOfFuel
          | S fuel' => next_numbered_line fuel' t
          end
        else Done t
    end.
Proof. destruct fuel; reflexivity. Qed.

Lemma scan_for_line_eq fuel linenum t :
  scan_for_line fuel linenum t =
    if negb (tokenizer_num t =? linenum) then
      match fuel with
      | O => Halt OutOfFuel
      | S fuel' =>
          match next_numbered_line fuel t with
          | Halt h => Halt h
          | Done t => scan_for_line fuel' linenum t
          end
      end
    else Done t.
Proof. destruct fuel; reflexivity. Qed.

(** From the start of a line to the start of the line behind it. *)
Lemma next_numbered_line_step pre l n' rest t fuel :
  program t = pre ++ render_line l ++ Num n' :: rest ->
  ptr t = length pre ->
  Forall inner (snd l) ->
  (length (snd l) <= fuel)%nat ->
  next_numbered_line fuel t = Done (set_ptr (length pre + length (render_line l)) t).
Proof.
  intros Hprog Hptr Hbody Hfuel. destruct l as [n body]. cbn [snd fst] in *.
  unfold render_line in Hprog. cbn [fst snd] in Hprog.
  assert (Hprog' : program t = pre ++ Num n :: body ++ CR :: Num n' :: rest).
  { rewrite Hprog. cbn [app]. by rewrite <- app_assoc. }
  rewrite next_numbered_line_eq.
  rewrite (skip_to_eol_line body pre (Num n) (Num n' :: rest) t fuel Hprog' Hptr) by done.
  set (t1 := set_ptr (length pre + 1 + length body) t).
  assert (Hcr : program t1 !! ptr t1 = Some CR).
  { cbn [program ptr set_ptr t1]. rewrite Hprog'.
    change (pre ++ Num n :: body ++ CR :: Num n' :: rest)
      with (pre ++ (Num n :: body) ++ CR :: Num n' :: rest).
    rewrite app_assoc. apply list_lookup_middle. rewrite length_app. cbn. lia. }
  rewrite (token_at _ _ Hcr). cbn [lx_token CR K].
  destruct (decide (TOKENIZER_CR = TOKENIZER_CR)); [|done].
  rewrite (next_at _ _ Hcr) by discriminate.
  set (t2 := set_ptr (S (ptr t1)) t1).
  assert (Hnum : program t2 !! ptr t2 = Some (Num n')).
  { cbn [program ptr set_ptr t1 t2]. rewrite Hprog'.
    change (pre ++ Num n :: body ++ CR :: Num n' :: rest)
      with (pre ++ (Num n :: body) ++ [CR] ++ Num n' :: rest).
    rewrite !app_assoc. apply list_lookup_middle. rewrite !length_app. cbn. lia. }
  rewrite (token_at _ _ Hnum). cbn [lx_token Num].
  destruct (decide (TOKENIZER_NUMBER <> TOKENIZER_NUMBER)); [done|].
  unfold t2, t1, set_ptr. cbn [program ptr pushed]. do 2 f_equal.
  unfold render_line. cbn [fst snd length]. rewrite length_app. cbn. lia.
Qed.

Lemma render_cons l ls : render (l :: ls) = render_line l ++ render ls.
Proof. reflexivity. Qed.

Lemma render_app ls1 ls2 : render (ls1 ++ ls2) = render ls1 ++ render ls2.
Proof. unfold render. by rewrite map_app, concat_app. Qed.

Lemma line_start_S l ls k :
  line_start (l :: ls) (S k) = (length (render_line l) + line_start ls k)%nat.
Proof. unfold line_start. cbn [take]. by rewrite render_cons, length_app. Qed.

Lemma first_numbered_S l ls k n :
  first_numbered (l :: ls) (S k) n -> fst l <> n /\ first_numbered ls k n.
Proof.
  intros [[body Hk] Hbefore]. split.
  - apply (Hbefore 0%nat l); [lia|reflexivity].
  - split; [by exists body|].
    intros j l' Hj Hl'. apply (Hbefore (S j) l'); [lia|exact Hl'].
Qed.

(** The scan stops at the first line with the number asked for. *)
Lemma scan_for_line_finds k : forall ls pre t fuel n,
  program t = pre ++ render ls ->
  ptr t = length pre ->
  well_formed ls ->
  first_numbered ls k n ->
  (length (render ls) <= fuel)%nat ->
  scan_for_line fuel n t = Done (set_ptr (length pre + line_start ls k) t).
Proof.
  induction k as [|k IH]; intros ls pre t fuel n Hprog Hptr Hwf Hfirst Hfuel.
  - destruct Hfirst as [[body Hk] _].
    destruct ls as [|l ls]; [discriminate|]. injection Hk as ->.
    assert (Hcur : program t !! ptr t = Some (Num n)).
    { rewrite Hprog, Hptr. rewrite render_cons. unfold render_line. cbn [fst snd app].
      by apply list_lookup_middle. }
    rewrite scan_for_line_eq, (num_at _ _ Hcur). cbn [lx_num Num].
    rewrite Z.eqb_refl. cbn [negb]. f_equal.
    unfold line_start. cbn [take render concat map length].
    destruct t. unfold set_ptr. cbn in *. f_equal. lia.
  - destruct ls as [|l ls]; [destruct Hfirst as [[? ?] _]; discriminate|].
    apply first_numbered_S in Hfirst as [Hne Hfirst].
    apply Forall_cons_1 in Hwf as [Hl Hwf].
    destruct ls as [|[n1 b1] ls]; [destruct Hfirst as [[? ?] _]; discriminate|].
    assert (Hcur : program t !! ptr t = Some (Num (fst l))).
    { rewrite Hprog, Hptr. rewrite render_cons. unfold render_line at 1. cbn [app].
      by apply list_lookup_middle. }
    rewrite scan_for_line_eq, (num_at _ _ Hcur). cbn [lx_num Num].
    destruct (Z.eqb_spec (fst l) n) as [|_]; [contradiction|]. cbn [negb].
    rewrite render_cons, length_app in Hfuel.
    destruct fuel as [|fuel]; [unfold render_line in Hfuel; cbn in Hfuel; lia|].
    rewrite (next_numbered_line_step pre l n1 (b1 ++ [CR] ++ render ls) t (S fuel)).
    + rewrite (IH ((n1, b1) :: ls) (pre ++ render_line l)
                  (set_ptr (length pre + length (render_line l)) t) fuel n).
      * rewrite line_start_S. unfold set_ptr. cbn [program ptr pushed].
        do 2 f_equal. rewrite length_app. lia.
      * cbn [program set_ptr]. rewrite Hprog, render_cons. by rewrite app_assoc.
      * cbn [ptr set_ptr]. by rewrite length_app.
      * exact Hwf.
      * exact Hfirst.
      * unfold render_line in Hfuel at 1. cbn [length] in Hfuel. lia.
    + rewrite Hprog. rewrite !render_cons. unfold render_line at 2. cbn [fst snd app].
      by rewrite <- !app_assoc.
    + exact Hptr.
    + exact Hl.
    + unfold render_line in Hfuel at 1. cbn [length] in Hfuel.
      rewrite length_app in Hfuel. lia.
Qed.

Lemma find_line_first ls : forall k n,
  find_line ls n = Some k -> first_numbered ls k n.
Proof.
  induction ls as [|l ls IH]; intros k n H; [discriminate|].
  cbn [find_line] in H. destruct (Z.eqb_spec (fst l) n) as [E|E].
  - injection H as <-. split.
    + exists (snd l). destruct l. cbn in *. by subst.
    + intros j l' Hj. lia.
  - destruct (find_line ls n) as [k'|] eqn:Ek; [|discriminate]. injection H as <-.
    destruct (IH k' n Ek) as [[body Hk] Hbefore]. split.
    + by exists body.
    + intros [|j] l' Hj Hl'.
      * injection Hl' as <-. exact E.
      * apply (Hbefore j l'); [lia|exact Hl'].
Qed.

(** *** The line index *)

Lemma index_find_app idx n pos :
  index_find idx n = None -> index_find (idx ++ [(n, pos)]) n = Some pos.
Proof.
  induction idx as [|[n' p'] idx IH]; cbn [index_find app].
  - by rewrite Z.eqb_refl.
  - destruct (n' =? n); [discriminate|]. exact IH.
Qed.

Lemma index_add_absent idx n pos :
  index_find idx n = None -> index_find (index_add n pos idx) n = Some pos.
Proof.
  intros H. unfold index_add. destruct idx as [|x idx].
  - by apply index_find_app.
  - rewrite H. by apply index_find_app.
Qed.

Lemma index_add_present idx n p pos :
  index_find idx n = Some p -> index_add n pos idx = idx.
Proof.
  intros H. unfold index_add. destruct idx; [discriminate|]. by rewrite H.
Qed.

Lemma index_add_keeps idx n p m pos :
  index_find idx n = Some p -> index_find (index_add m pos idx) n = Some p.
Proof.
  intros H. unfold index_add.
  destruct idx as [|x idx]; [discriminate|].
  destruct (index_find (x :: idx) m); [exact H|].
  revert H. generalize (x :: idx). intros l. induction l as [|[n' p'] l IH]; [discriminate|].
  cbn [index_find app]. destruct (n' =? n); [done|exact IH].
Qed.

(** A line that runs leaves the index with its own entry and no other. *)
Lemma line_statement_index fuel m m' :
  line_statement fuel m = Done m' -> cxt m' = entering m.
Proof.
  unfold line_statement.
  destruct ((tk (accept_tok TOKENIZER_NUMBER) >>> statement _ fuel) (run m)) as [[[] s]|];
    [|discriminate].
  by intros [= <-].
Qed.

(** GOTO, once [GO TO <expr> CR] is read, is a call of [jump_linenum]. *)
Lemma goto_jumps cx fuel s linenum e3 :
  token_of (es s) = TOKENIZER_GO ->
  token_of (advance (es s)) = TOKENIZER_TO ->
  intexpr cx (sto s) fuel (advance (advance (es s))) = Done (linenum, e3) ->
  token_of e3 = TOKENIZER_CR ->
  go_statement cx fuel s =
    landed (jump_linenum fuel (line_index cx) linenum (tz (advance e3)))
           (fun t => set_es (set_tz t (advance e3)) s).
Proof.
  intros Hgo Hto Hexpr Hcr. unfold go_statement.
  erewrite bind_Done by (apply tk_Done, accept_tok_ok, Hgo).
  erewrite bind_Done by (apply tk_Done, accept_either_ok; left; apply Hto).
  cbn [es set_es sto]. rewrite Hto.
  destruct (decide (TOKENIZER_TO = TOKENIZER_TO)); [|done].
  erewrite bind_Done by (apply ev_Done; cbn [es set_es sto]; apply Hexpr).
  erewrite bind_Done by (apply tk_Done; cbn [es set_es sto]; apply accept_tok_ok, Hcr).
  rewrite jump_run. reflexivity.
Qed.

(** GOSUB, once [GO SUB <expr> CR] is read and a frame is free, pushes the
    number under the cursor and is a call of [jump_linenum]. *)
Lemma gosub_jumps cx fuel s linenum e3 :
  token_of (es s) = TOKENIZER_GO ->
  token_of (advance (es s)) = TOKENIZER_SUB ->
  intexpr cx (sto s) fuel (advance (advance (es s))) = Done (linenum, e3) ->
  token_of e3 = TOKENIZER_CR ->
  (gosub_stack_ptr (ctl s) < MAX_GOSUB_STACK_DEPTH)%nat ->
  go_statement cx fuel s =
    landed (jump_linenum fuel (line_index cx) linenum (tz (advance e3)))
           (fun t => set_es (set_tz t (advance e3))
                       (set_ctl (push_gosub (tokenizer_num (tz (advance e3))) (ctl s)) s)).
Proof.
  intros Hgo Hsub Hexpr Hcr Hlt. unfold go_statement.
  erewrite bind_Done by (apply tk_Done, accept_tok_ok, Hgo).
  erewrite bind_Done by (apply tk_Done, accept_either_ok; right; apply Hsub).
  cbn [es set_es sto]. rewrite Hsub.
  destruct (decide (TOKENIZER_SUB = TOKENIZER_TO)); [discriminate|].
  erewrite bind_Done by (apply ev_Done; cbn [es set_es sto]; apply Hexpr).
  erewrite bind_Done by (apply tk_Done; cbn [es set_es sto]; apply accept_tok_ok, Hcr).
  erewrite bind_Done by reflexivity. cbn [ctl set_es].
  destruct (Nat.ltb_spec (gosub_stack_ptr (ctl s)) MAX_GOSUB_STACK_DEPTH); [|lia].
  erewrite bind_Done by reflexivity.
  erewrite bind_Done by reflexivity.
  rewrite jump_run. reflexivity.
Qed.

(** A jump to a line that the index does not hold scans to the first line
    with the number. *)
Lemma jump_linenum_scans ls k n idx t fuel :
  well_formed ls ->
  find_line ls n = Some k ->
  program t = render ls ->
  index_find idx n = None ->
  (length (render ls) <= fuel)%nat ->
  jump_linenum fuel idx n t = Done (tokenizer_goto (line_start ls k) t) /\
  tokenizer_token (tokenizer_goto (line_start ls k) t) = TOKENIZER_NUMBER /\
  tokenizer_num (tokenizer_goto (line_start ls k) t) = n.
Proof.
  intros Hwf Hfind Hprog Hmiss Hfuel.
  apply find_line_first in Hfind as Hfirst.
  set (pos := line_start ls k).
  assert (Hcur : program (tokenizer_goto pos t) !! ptr (tokenizer_goto pos t) = Some (Num n)).
  { cbn [program ptr tokenizer_goto set_ptr]. rewrite Hprog.
    destruct Hfirst as [[body Hk] _]. unfold pos, line_start.
    set (before := render (take k ls)).
    rewrite <- (take_drop_middle _ _ _ Hk), render_app, render_cons.
    unfold render_line. cbn [fst snd app].
    by apply list_lookup_middle. }
  split; [|split; [by rewrite (token_at _ _ Hcur)|by rewrite (num_at _ _ Hcur)]].
  unfold jump_linenum, jump_linenum_slow. rewrite Hmiss.
  rewrite (scan_for_line_finds k ls [] (tokenizer_init t) fuel n); try done.
Qed.

(** RETURN with no frame in use consumes the RETURN token and nothing
    else: no diagnostic, no change of the stacks, the variables or the
    output, but also no move past the end of the line. *)
Lemma return_with_empty_stack cx fuel s :
  token_of (es s) = TOKENIZER_RETURN ->
  gosub_stack_ptr (ctl s) = 0%nat ->
  return_statement cx fuel s = Done (tt, set_es (advance (es s)) s).
Proof.
  intros Htok Hptr. unfold return_statement.
  erewrite bind_Done by (apply tk_Done, accept_tok_ok, Htok).
  erewrite bind_Done by reflexivity.
  cbn [ctl set_es]. by rewrite Hptr.
Qed.

(** Whatever [memcmp] returns, a relational operator on two strings gives
    0 or 1. *)
Lemma relation_on_strings_is_0_or_1 cx sto op r1 r2 e v e' :
  is_relation_op op = true ->
  type r1 = TYPE_STRING ->
  relation_step cx sto op r1 r2 e = Done (v, e') ->
  d v = d_i 0 \/ d v = d_i 1.
Proof.
  intros Hop Hty. unfold relation_step.
  unfold bind at 1. destruct (typecheck_same cx r1 r2 e) as [[[] e1]|]; [|discriminate].
  rewrite Hty. destruct (decide (TYPE_STRING = TYPE_INTEGER)) as [|_]; [discriminate|].
  unfold bind. destruct (string_compare sto r1 r2 e1) as [[c e2]|]; [|discriminate].
  unfold ret. intros [= <- _]. cbn [d set_i].
  destruct op; try discriminate; cbn; destruct (c =? _); cbn; auto.
Qed.

(** *** LEFT$, MID$ and RIGHT$ inside the string *)

(** An [int] has 16 bits or more; numbers that fit 16 bits are not changed
    by the reduction to [value_bits] bits. *)
Lemma wrap_small z :
  16 <= value_bits -> -32768 <= z < 32768 -> wrap z = z.
Proof.
  intros Hbits Hz. unfold wrap.
  assert (H15 : 2 ^ 15 <= 2 ^ (value_bits - 1)) by (apply Z.pow_le_mono_r; lia).
  assert (Hdbl : 2 ^ value_bits = 2 * 2 ^ (value_bits - 1)).
  { rewrite <- Z.pow_succ_r by lia. f_equal. lia. }
  change (2 ^ 15) with 32768 in H15.
  rewrite Z.mod_small by lia. lia.
Qed.

Lemma take_length_take {A} (n : nat) (l : list A) :
  take (length (take n l)) l = take n l.
Proof.
  rewrite length_take. destruct (Nat.le_gt_cases n (length l)).
  - by rewrite Nat.min_l.
  - rewrite Nat.min_r by lia. by rewrite firstn_all, take_ge by lia.
Qed.

(** A new string in the workspace: [string_temp] for the length byte, one
    store for the bytes. *)
Lemma new_string cx sto e (bs : list Z) :
  arena_ok e ->
  Z.of_nat (length bs) <= 255 ->
  nextstr e + Z.of_nat (length bs) + 1 <= sizeof_stringblob ->
  exists b1 b2,
    string_temp cx (Z.of_nat (length bs)) e
      = Done (nextstr e, Estate (tz e) b1 (nextstr e + (Z.of_nat (length bs) + 1))) /\
    blob_store (stringblob e) (nextstr e) [Z.of_nat (length bs)] = Done b1 /\
    blob_store b1 (nextstr e + 1) bs = Done b2 /\
    buffer_of sto b2 (Pblob (nextstr e)) = Done (Z.of_nat (length bs) :: bs).
Proof.
  intros [Hlen Hnext] Hshort Hroom. unfold sizeof_stringblob in *.
  set (top := nextstr e) in *. set (n := Z.of_nat (length bs)) in *.
  destruct (blob_store_fits (stringblob e) top [n]) as [b1 E1]; [lia|cbn [length]; lia|].
  destruct (blob_store_fits b1 (top + 1) bs) as [b2 E2];
    [lia|rewrite (blob_store_length _ _ _ _ E1); fold n; lia|].
  exists b1, b2. split; [|split; [exact E1|split; [exact E2|]]].
  - rewrite string_temp_run. fold top.
    destruct (Z.gtb_spec n 255); [lia|].
    unfold sizeof_stringblob. destruct (Z.gtb_spec (top + (n + 1)) 512); [lia|].
    assert (Hu : to_uint8 n = n) by (unfold to_uint8; apply Z.mod_small; lia).
    by rewrite Hu, E1.
  - apply buffer_of_blob. fold n.
    assert (S1 : slice b2 top 1 = Done [n]).
    { rewrite (slice_store_other _ _ _ _ top 1 E2) by lia.
      exact (slice_store_same _ _ _ _ E1). }
    assert (S2 : slice b2 (top + 1) n = Done bs) by exact (slice_store_same _ _ _ _ E2).
    exact (slice_app _ _ _ _ _ _ S1 S2).
Qed.

(** [string_cut] with a start of 1 or more and a count of 0 or more, on a
    string of [L] bytes: the result is a new string with the bytes from
    position [l] on, [n] of them or as many as there are; nothing outside
    the buffer of the argument is read. *)
Lemma string_cut_in_range cx sto e t p bs l n :
  16 <= value_bits ->
  arena_ok e -> d t = d_p p -> holds sto e p bs ->
  Z.of_nat (length bs) <= 255 ->
  1 <= l -> 0 <= n ->
  let cut := take (Z.to_nat n) (drop (Z.to_nat (l - 1)) bs) in
  nextstr e + Z.of_nat (length cut) + 1 <= sizeof_stringblob ->
  exists e',
    string_cut cx sto t l n e = Done (string_ (nextstr e), e') /\
    holds sto e' (Pblob (nextstr e)) cut /\
    nextstr e' = nextstr e + Z.of_nat (length cut) + 1.
Proof.
  intros Hbits Hok Hd [Hbuf Hbelow] Hshort Hl Hn cut Hroom.
  set (L := Z.of_nat (length bs)) in *.
  unfold string_cut, read_p. rewrite Hd.
  erewrite bind_Done by reflexivity.
  erewrite bind_Done by (apply string_at_run, Hbuf).
  rewrite byte_at_head. erewrite bind_Done by reflexivity.
  destruct (new_string cx sto e cut Hok) as (b1 & b2 & Htemp & E1 & E2 & Hnew);
    [unfold cut; rewrite length_take, length_drop; lia|exact Hroom|].
  assert (Hkept : buffer_of sto b1 p = Done (L :: bs))
    by exact (buffer_kept _ _ _ _ (nextstr e) _ _ _ Hbuf Hbelow E1 (Z.le_refl _)).
  destruct (Z.gtb_spec l L) as [Hpast|Hin].
  - (* Nothing to cut *)
    assert (Hcut : cut = []).
    { unfold cut. rewrite drop_ge by lia. apply take_nil. }
    rewrite Hcut in *. cbn [length] in *. change (Z.of_nat 0) with 0 in *.
    erewrite bind_Done by exact Htemp.
    exists (Estate (tz e) b1 (nextstr e + (0 + 1))).
    split; [reflexivity|]. split; [|cbn [nextstr]; lia].
    split; [|cbn [nextstr length]; lia].
    cbn [stringblob length]. change (Z.of_nat 0) with 0.
    apply blob_store_Done in E2 as (_ & _ & ->).
    cbn [app length] in Hnew. rewrite Nat.add_0_r, take_drop in Hnew. exact Hnew.
  - unfold int_sub. rewrite (wrap_small (l - 1)), (wrap_small (L - (l - 1))) by lia.
    set (f := L - (l - 1)).
    set (n' := if f <? n then f else n).
    assert (Hn' : n' = Z.of_nat (length cut)).
    { unfold cut. rewrite length_take, length_drop. unfold n', f, L.
      destruct (Z.ltb_spec (Z.of_nat (length bs) - (l - 1)) n); lia. }
    rewrite Hn'. erewrite bind_Done by exact Htemp.
    erewrite bind_Done by (apply string_at_run; cbn [stringblob]; exact Hkept).
    assert (Hcopy : memcpy_from (L :: bs) l (Z.of_nat (length cut)) = Done cut).
    { unfold memcpy_from. destruct (Z.eqb_spec (Z.of_nat (length cut)) 0) as [E|E].
      - destruct cut; [done|cbn in E; lia].
      - apply slice_Done. split; [lia|split; [lia|split]].
        + cbn [length]. fold L. unfold n', f in Hn'.
          destruct (Z.ltb_spec (L - (l - 1)) n); lia.
        + rewrite Nat2Z.id.
          replace (Z.to_nat l) with (S (Z.to_nat (l - 1))) by lia. cbn [drop].
          unfold cut. by rewrite take_length_take. }
    rewrite Hcopy. erewrite bind_Done by reflexivity.
    erewrite bind_Done by (apply blob_write_run; cbn [stringblob]; exact E2).
    exists (set_stringblob b2 (Estate (tz e) b1 (nextstr e + (Z.of_nat (length cut) + 1)))).
    split; [reflexivity|]. split; [|cbn [nextstr set_stringblob]; lia].
    split; [exact Hnew|cbn [nextstr set_stringblob]; lia].
Qed.

(** [string_cut] with a start behind the last byte: the empty string,
    whatever the count. *)
Lemma string_cut_past_end cx sto e t p bs l n :
  arena_ok e -> d t = d_p p -> holds sto e p bs ->
  Z.of_nat (length bs) < l ->
  nextstr e + 1 <= sizeof_stringblob ->
  exists e',
    string_cut cx sto t l n e = Done (string_ (nextstr e), e') /\
    holds sto e' (Pblob (nextstr e)) [] /\
    nextstr e' = nextstr e + 1.
Proof.
  intros Hok Hd [Hbuf Hbelow] Hpast Hroom.
  unfold string_cut, read_p. rewrite Hd.
  erewrite bind_Done by reflexivity.
  erewrite bind_Done by (apply string_at_run, Hbuf).
  rewrite byte_at_head. erewrite bind_Done by reflexivity.
  destruct (Z.gtb_spec l (Z.of_nat (length bs))); [|lia].
  destruct (new_string cx sto e [] Hok) as (b1 & b2 & Htemp & E1 & E2 & Hnew);
    [cbn; lia|cbn [length]; lia|].
  cbn [length] in *. change (Z.of_nat 0) with 0 in *.
  erewrite bind_Done by exact Htemp.
  exists (Estate (tz e) b1 (nextstr e + (0 + 1))).
  split; [reflexivity|]. split; [|cbn [nextstr]; lia].
  split; [|cbn [nextstr length]; lia].
  cbn [stringblob length]. change (Z.of_nat 0) with 0.
  apply blob_store_Done in E2 as (_ & _ & ->).
  cbn [app length] in Hnew. rewrite Nat.add_0_r, take_drop in Hnew. exact Hnew.
Qed.

(** X17.  RIGHT$ on a string of [L] bytes, for any count that fits 16
    bits: the last [r] bytes for [0 < r < L], and the empty string
    otherwise, also when [r] is [L] or more; nothing outside the buffer of
    the argument is read. *)
Lemma string_cut_r_in_range cx sto e t p bs r :
  16 <= value_bits ->
  arena_ok e -> d t = d_p p -> holds sto e p bs ->
  Z.of_nat (length bs) <= 255 ->
  -32000 <= r <= 32000 ->
  let L := Z.of_nat (length bs) in
  let cut := if (0 <? r) && (r <? L) then drop (Z.to_nat (L - r)) bs else [] in
  nextstr e + Z.of_nat (length cut) + 1 <= sizeof_stringblob ->
  exists e',
    string_cut_r cx sto t r e = Done (string_ (nextstr e), e') /\
    holds sto e' (Pblob (nextstr e)) cut /\
    nextstr e' = nextstr e + Z.of_nat (length cut) + 1.
Proof.
  intros Hbits Hok Hd Hholds Hshort Hr L cut Hroom.
  pose proof Hholds as [Hbuf Hbelow].
  unfold string_cut_r, read_p. rewrite Hd.
  erewrite bind_Done by reflexivity.
  erewrite bind_Done by (apply string_at_run, Hbuf).
  rewrite byte_at_head. erewrite bind_Done by reflexivity.
  fold L. unfold int_sub, int_add. rewrite (wrap_small (L - r)) by lia.
  destruct (Z.leb_spec (L - r) 0) as [Hall|Hsome].
  - (* the count covers the string *)
    assert (Hcut : cut = []).
    { unfold cut. destruct (Z.ltb_spec r L); [lia|]. by rewrite andb_false_r. }
    rewrite Hcut in *.
    destruct (new_string cx sto e [] Hok) as (b1 & b2 & Htemp & E1 & E2 & Hnew);
      [cbn; lia|exact Hroom|].
    cbn [length] in *. change (Z.of_nat 0) with 0 in *.
    erewrite bind_Done by exact Htemp.
    exists (Estate (tz e) b1 (nextstr e + (0 + 1))).
    split; [reflexivity|]. split; [|cbn [nextstr]; lia].
    split; [|cbn [nextstr length]; lia].
    cbn [stringblob length]. change (Z.of_nat 0) with 0.
    apply blob_store_Done in E2 as (_ & _ & ->).
    cbn [app length] in Hnew. rewrite Nat.add_0_r, take_drop in Hnew. exact Hnew.
  - rewrite (wrap_small (L - r + 1)) by lia.
    destruct (Z.ltb_spec 0 r) as [Hpos|Hneg].
    + (* the last r bytes *)
      assert (Hcut : cut = take (Z.to_nat r) (drop (Z.to_nat (L - r + 1 - 1)) bs)).
      { unfold cut. destruct (Z.ltb_spec r L); [|lia]. cbn [andb].
        replace (L - r + 1 - 1) with (L - r) by lia.
        rewrite take_ge; [done|]. rewrite length_drop. lia. }
      rewrite Hcut in *.
      apply (string_cut_in_range cx sto e t p bs (L - r + 1) r); try done; lia.
    + (* a count of 0 or less *)
      assert (Hcut : cut = []) by (unfold cut; reflexivity).
      rewrite Hcut in *. cbn [length] in Hroom.
      destruct (string_cut_past_end cx sto e t p bs (L - r + 1) r) as (e' & H1 & H2 & H3);
        try done; try lia.
      exists e'. split; [exact H1|]. split; [exact H2|]. cbn [length]. lia.
Qed.

(** *** Owned strings *)

Lemma memcpy_from_all (bs : list Z) :
  bs <> [] -> memcpy_from bs 0 (Z.of_nat (length bs)) = Done bs.
Proof.
  intros Hne. unfold memcpy_from.
  destruct (Z.eqb_spec (Z.of_nat (length bs)) 0) as [E|E]; [destruct bs; [done|cbn in E; lia]|].
  apply slice_Done. split; [lia|split; [lia|split; [lia|]]].
  rewrite Nat2Z.id. cbn [drop Z.to_nat]. by rewrite firstn_all.
Qed.

(** [string_save] of a readable string with room on the heap: a block that
    did not exist before, holding the length byte and the bytes. *)
Lemma string_save_run cx s p (bs : list Z) :
  buffer_of (sto s) (stringblob (es s)) p = Done (Z.of_nat (length bs) :: bs) ->
  Z.of_nat (length bs) + 1 <= heap_room (sto s) ->
  string_save cx p s =
    Done (Pheap (length (heap (sto s))),
          set_sto (Store (variables (sto s)) (strings (sto s))
                         (heap (sto s) ++ [Some (Z.of_nat (length bs) :: bs)])
                         (heap_room (sto s) - (Z.of_nat (length bs) + 1))
                         (buf (sto s))) s).
Proof.
  intros Hbuf Hroom. set (L := Z.of_nat (length bs)) in *.
  unfold string_save. erewrite bind_Done by reflexivity.
  rewrite Hbuf. erewrite bind_Done by reflexivity.
  rewrite byte_at_head. erewrite bind_Done by reflexivity.
  unfold malloc. destruct (Z.leb_spec (L + 1) (heap_room (sto s))); [|lia].
  set (x := Store _ _ (heap (sto s) ++ [Some (replicate (Z.to_nat (L + 1)) 0)]) _ _).
  assert (Hbuf' : buffer_of x (stringblob (es s)) p = Done (L :: bs)).
  { destruct p as [| |b|]; try exact Hbuf. cbn [buffer_of] in *. cbn [heap x].
    destruct (heap (sto s) !! b) as [o|] eqn:E; [|discriminate].
    by rewrite (lookup_app_l_Some _ _ _ _ E). }
  rewrite Hbuf'. erewrite bind_Done by reflexivity.
  assert (Hn : Z.to_nat (L + 1) = length (L :: bs)) by (cbn [length]; lia).
  assert (Hz : L + 1 = Z.of_nat (length (L :: bs))) by (cbn [length]; lia).
  rewrite Hz at 1.
  rewrite memcpy_from_all by discriminate. erewrite bind_Done by reflexivity.
  unfold heap_store. cbn [heap x].
  rewrite list_lookup_middle by reflexivity.
  rewrite length_replicate, Hn, Nat.leb_refl.
  erewrite bind_Done by reflexivity. erewrite bind_Done by reflexivity.
  unfold ret. do 3 f_equal. unfold x. cbn [variables strings heap heap_room buf]. f_equal.
  rewrite drop_ge by (rewrite length_replicate; lia).
  rewrite app_nil_r. apply list_eq. intros i.
  destruct (decide (i = length (heap (sto s)))) as [->|Hi].
  - rewrite list_lookup_insert_eq by (rewrite length_app; cbn; lia).
    by rewrite list_lookup_middle.
  - rewrite list_lookup_insert_ne by done.
    destruct (decide (i < length (heap (sto s)))%nat).
    + by rewrite !lookup_app_l by done.
    + rewrite !lookup_ge_None_2; [done| |]; rewrite length_app; cbn; lia.
Qed.

(** The release of the buffer a slot holds: the other slots keep their
    blocks, and a string that is not that buffer stays readable. *)
Lemma release_slot (s : istate) (i : nat) old p blob (B : list Z) :
  slots_owned (sto s) ->
  strings (sto s) !! i = Some old ->
  old <> p \/ p = Pnullstr ->
  buffer_of (sto s) blob p = Done B ->
  exists x1,
    (if decide (old <> Pnullstr) then
       let* s := get in
       let* x := lift (free old (sto s)) in
       put (set_sto x s)
     else ret tt) s = Done (tt, set_sto x1 s) /\
    strings x1 = strings (sto s) /\
    length (heap x1) = length (heap (sto s)) /\
    heap_room (sto s) <= heap_room x1 /\
    buffer_of x1 blob p = Done B /\
    (forall j pj, j <> i -> strings (sto s) !! j = Some pj ->
       pj = Pnullstr \/ exists b bs, pj = Pheap b /\ heap x1 !! b = Some (Some bs)).
Proof.
  intros [Hlive Huniq] Hold Hother Hbuf.
  destruct (decide (old <> Pnullstr)) as [Hown|Hnull].
  - destruct (Hlive _ _ Hold) as [->|(b & bs & -> & Hb)]; [done|].
    exists (Store (variables (sto s)) (strings (sto s)) (<[b := None]> (heap (sto s)))
                  (heap_room (sto s) + Z.of_nat (length bs)) (buf (sto s))).
    split; [|split; [reflexivity|split; [apply length_insert|split; [cbn; lia|split]]]].
    + unfold bind, get, lift, put, free. rewrite Hb. destruct s as [? []]; reflexivity.
    + destruct p as [| |b'|]; try exact Hbuf.
      cbn [buffer_of heap] in *.
      rewrite list_lookup_insert_ne; [exact Hbuf|].
      destruct Hother as [Hne|]; [congruence|discriminate].
    + intros j pj Hj Hpj.
      destruct (Hlive _ _ Hpj) as [->|(bj & bsj & -> & Hbj)]; [by left|right].
      exists bj, bsj. split; [done|]. cbn [heap].
      rewrite list_lookup_insert_ne; [exact Hbj|].
      intros ->. apply Hj. symmetry. by apply (Huniq i j bj).
  - exists (sto s).
    split; [|split; [done|split; [done|split; [lia|split; [exact Hbuf|]]]]].
    + unfold ret. destruct s; reflexivity.
    + intros j pj _ Hpj. apply (Hlive _ _ Hpj).
Qed.

(** An assignment to a string variable from a value that is not the
    buffer the slot holds, with room on the heap: the slot gets a block
    that did not exist before, with the bytes of the value; every slot
    still holds the sentinel or a live block of its own; the other slots,
    and the evaluator state with the string workspace, are as before. *)
Lemma string_assignment_keeps_slots_owned cx s varnum value p (bs : list Z) :
  slots_owned (sto s) ->
  Z.land varnum STRINGFLAG <> 0 ->
  let i := Z.land varnum (Z.lnot STRINGFLAG) in
  0 <= i < Z.of_nat (length (strings (sto s))) ->
  type value = TYPE_STRING -> d value = d_p p ->
  buffer_of (sto s) (stringblob (es s)) p = Done (Z.of_nat (length bs) :: bs) ->
  strings (sto s) !! Z.to_nat i <> Some p \/ p = Pnullstr ->
  Z.of_nat (length bs) + 1 <= heap_room (sto s) ->
  exists s',
    ubasic_set_variable cx varnum value s = Done (tt, s') /\
    slots_owned (sto s') /\
    strings (sto s') !! Z.to_nat i = Some (Pheap (length (heap (sto s)))) /\
    heap (sto s') !! length (heap (sto s)) = Some (Some (Z.of_nat (length bs) :: bs)) /\
    (forall j, j <> Z.to_nat i -> strings (sto s') !! j = strings (sto s) !! j) /\
    es s' = es s.
Proof.
  intros Hown Hflag i Hi Hty Hd Hbuf Hother Hroom.
  destruct (array_get_in (strings (sto s)) i Hi) as (old & Hget & Hold).
  destruct (release_slot s (Z.to_nat i) old p (stringblob (es s))
              (Z.of_nat (length bs) :: bs) Hown Hold) as
    (x1 & Hrel & Hstr & Hlen & Hroom1 & Hbuf1 & Hothers); [|exact Hbuf|].
  { destruct Hother as [Hne|]; [left; congruence|by right]. }
  set (nb := length (heap (sto s))).
  set (x2 := Store (variables x1) (strings x1)
                   (heap x1 ++ [Some (Z.of_nat (length bs) :: bs)])
                   (heap_room x1 - (Z.of_nat (length bs) + 1)) (buf x1)).
  exists (set_sto (set_strings (<[Z.to_nat i := Pheap nb]> (strings x2)) x2) s).
  subst x2. unfold slots_owned.
  cbn [sto set_sto set_strings strings heap variables heap_room buf].
  split; [|split; [|split; [|split; [|split]]]].
  - unfold ubasic_set_variable.
    destruct (Z.eqb_spec (Z.land varnum STRINGFLAG) 0); [done|]. cbn [negb].
    unfold typecheck_string. rewrite Hty.
    destruct (decide (TYPE_STRING <> TYPE_STRING)); [done|].
    erewrite bind_Done by reflexivity. fold i.
    erewrite bind_Done by (erewrite bind_Done by reflexivity; rewrite Hget; reflexivity).
    erewrite bind_Done by exact Hrel.
    unfold read_p. rewrite Hd. erewrite bind_Done by reflexivity.
    erewrite bind_Done
      by (apply string_save_run; cbn [sto es set_sto]; [exact Hbuf1|lia]).
    erewrite bind_Done by reflexivity.
    cbn [sto set_sto strings]. rewrite Hlen. fold nb.
    rewrite array_set_in by (rewrite Hstr; lia).
    erewrite bind_Done by reflexivity. reflexivity.
  - split.
    + intros j pj Hj. destruct (decide (j = Z.to_nat i)) as [->|Hne].
      * rewrite list_lookup_insert_eq in Hj by (rewrite Hstr; lia).
        injection Hj as <-. right. exists nb, (Z.of_nat (length bs) :: bs).
        split; [done|]. apply list_lookup_middle. by rewrite Hlen.
      * rewrite list_lookup_insert_ne in Hj by done. rewrite Hstr in Hj.
        destruct (Hothers j pj Hne Hj) as [->|(b & bs' & -> & Hb)]; [by left|right].
        exists b, bs'. split; [done|]. by apply lookup_app_l_Some.
    + intros j k b Hj Hk.
      assert (Hold' : forall m, m <> Z.to_nat i ->
                <[Z.to_nat i := Pheap nb]> (strings x1) !! m = Some (Pheap b) ->
                strings (sto s) !! m = Some (Pheap b) /\ (b < nb)%nat).
      { intros m Hm Hl. rewrite list_lookup_insert_ne in Hl by done. rewrite Hstr in Hl.
        split; [exact Hl|].
        destruct (Hothers m _ Hm Hl) as [|(b' & bs' & [= <-] & Hb)]; [discriminate|].
        apply lookup_lt_Some in Hb. unfold nb. lia. }
      assert (Hnew : <[Z.to_nat i := Pheap nb]> (strings x1) !! Z.to_nat i
                     = Some (Pheap b) -> b = nb).
      { intros Hl. rewrite list_lookup_insert_eq in Hl by (rewrite Hstr; lia).
        by injection Hl. }
      destruct (decide (j = Z.to_nat i)) as [->|Hj'],
               (decide (k = Z.to_nat i)) as [->|Hk']; [done| | |].
      * apply Hnew in Hj as ->. apply Hold' in Hk as [_ Hlt]; [lia|done].
      * apply Hnew in Hk as ->. apply Hold' in Hj as [_ Hlt]; [lia|done].
      * apply Hold' in Hj as [Hj _]; [|done]. apply Hold' in Hk as [Hk _]; [|done].
        destruct Hown as [_ Huniq]. by apply (Huniq j k b).
  - apply list_lookup_insert_eq. rewrite Hstr. lia.
  - apply list_lookup_middle. by rewrite Hlen.
  - intros j Hj. rewrite list_lookup_insert_ne by done. by rewrite Hstr.
  - reflexivity.
Qed.

(** ** Tools for running the statements *)

Lemma ret_inv {S A} (a b : A) (s s' : S) : ret a s = Done (b, s') -> a = b /\ s = s'.
Proof. intros [= -> ->]. done. Qed.

Lemma tk_accept k s :
  token_of (es s) = k ->
  tk (accept_tok k) s = Done (token_of (advance (es s)), set_es (advance (es s)) s).
Proof. intros H. apply tk_Done, accept_tok_ok, H. Qed.

Lemma token_here_run s : token_here s = Done (token_of (es s), s).
Proof. unfold token_here, tk, zoom, token_now, gets. by destruct s as [[] ? ? ? ? ? ? ? ?]. Qed.

Lemma next_token_run s :
  tk next_token s = Done (tt, set_es (advance (es s)) s).
Proof. reflexivity. Qed.

Ltac unbind H :=
  let a := fresh "a" in let s := fresh "s" in let H1 := fresh "Hm" in
  apply bind_inv in H as (a & s & H1 & H).

Ltac accept H :=
  match goal with
  | |- context [bind (tk (accept_tok ?k)) ?f ?s] =>
      rewrite (bind_Done (tk (accept_tok k)) f s _ _ (tk_accept k s H))
  end.

Ltac evaluate_with H :=
  match goal with
  | |- context [bind (ev ?m) ?f ?s] =>
      rewrite (bind_Done (ev m) f s _ _ (ev_Done m s _ _ H))
  end.

(** ** The line index and the scan *)

(** X1.  A lookup in the line index after [index_add n pos]: a number that
    was in the index keeps the position recorded first, the number [n]
    itself is found at [pos] when it was new, and any other number is as
    absent as before. *)
Theorem index_lookup_after_add idx n pos m :
  index_find (index_add n pos idx) m =
    match index_find idx m with
    | Some p => Some p
    | None => if m =? n then Some pos else None
    end.
Proof.
  assert (Happ : forall l, index_find (l ++ [(n, pos)]) m =
            match index_find l m with
            | Some p => Some p
            | None => if m =? n then Some pos else None
            end).
  { induction l as [|[k p] l IH]; simpl.
    - rewrite (Z.eqb_sym n m). by destruct (m =? n).
    - destruct (k =? m); [done|exact IH]. }
  destruct (index_find idx n) as [p|] eqn:Hn.
  - rewrite (index_add_present _ _ _ _ Hn).
    destruct (index_find idx m) as [q|] eqn:Hm; [done|].
    destruct (Z.eqb_spec m n) as [E|]; [rewrite E in Hm; congruence|done].
  - unfold index_add. destruct idx; rewrite ?Hn; apply Happ.
Qed.

(** X2.  [ubasic_run] on a line only adds to the line index: a line
    number that was in the index stays at its position, the line that is
    run is in the index afterwards, at the cursor when it was new, and
    [line_num] is its number.  The hooks stay as they were. *)
Theorem ubasic_run_only_adds_to_the_index fuel m m' :
  ubasic_run fuel m = Done m' ->
  (forall k p, index_find (line_index (cxt m)) k = Some p ->
               index_find (line_index (cxt m')) k = Some p) /\
  (tokenizer_finished (tz (es (run m))) = false ->
     let n := tokenizer_num (tz (es (run m))) in
     line_num (cxt m') = n /\
     (index_find (line_index (cxt m)) n = None ->
        index_find (line_index (cxt m')) n = Some (tokenizer_pos (tz (es (run m)))))) /\
  peek_function (cxt m') = peek_function (cxt m) /\
  poke_function (cxt m') = poke_function (cxt m).
Proof.
  unfold ubasic_run. destruct (tokenizer_finished _) eqn:Hfin.
  - intros [= <-]. repeat split; [done|discriminate|discriminate].
  - intros H. apply line_statement_index in H. rewrite H.
    split; [|split; [|done]].
    + intros k p Hk. cbn [entering set_line line_index]. by apply index_add_keeps.
    + intros _. cbv zeta. split; [reflexivity|].
      intros Hn. cbn [entering set_line line_index]. by apply index_add_absent.
Qed.

Lemma skip_to_eol_eq fuel t :
  skip_to_eol fuel t =
    let t := tokenizer_next t in
    if at_eol t then Done t
    else match fuel with
         | O => Halt OutOfFuel
         | S fuel' => skip_to_eol fuel' t
         end.
Proof. destruct fuel; reflexivity. Qed.

(** With any budget, the innermost loop of the scan either reaches the end
    of the line or runs out of budget. *)
Lemma skip_to_eol_any body : forall pre x rest t fuel,
  program t = pre ++ x :: body ++ CR :: rest ->
  ptr t = length pre ->
  lx_token x <> TOKENIZER_ENDOFINPUT ->
  Forall inner body ->
  skip_to_eol fuel t = Done (set_ptr (length pre + 1 + length body) t) \/
  skip_to_eol fuel t = Halt OutOfFuel.
Proof.
  induction body as [|b body IH]; intros pre x rest t fuel Hprog Hptr Hx Hbody.
  - left. apply (skip_to_eol_line [] pre x rest t fuel); [done|done|done|done|cbn; lia].
  - apply Forall_cons_1 in Hbody as [Hb Hbody].
    assert (Hat : program t !! ptr t = Some x)
      by (rewrite Hprog, Hptr; apply list_lookup_middle; done).
    rewrite skip_to_eol_eq. cbv zeta. rewrite (next_at _ _ Hat Hx).
    assert (Hat1 : program (set_ptr (S (ptr t)) t) !! ptr (set_ptr (S (ptr t)) t) = Some b).
    { cbn [set_ptr program ptr]. rewrite Hprog, Hptr.
      replace (pre ++ x :: (b :: body) ++ CR :: rest)
        with ((pre ++ [x]) ++ b :: body ++ CR :: rest) by (by rewrite <- app_assoc).
      apply list_lookup_middle. rewrite length_app. cbn. lia. }
    rewrite (at_eol_inner _ _ Hat1 Hb).
    destruct fuel as [|fuel]; [by right|].
    assert (Hprog1 : program (set_ptr (S (ptr t)) t) = (pre ++ [x]) ++ b :: body ++ CR :: rest).
    { cbn [set_ptr program]. rewrite Hprog, <- app_assoc. reflexivity. }
    assert (Hptr1 : ptr (set_ptr (S (ptr t)) t) = length (pre ++ [x])).
    { cbn [set_ptr ptr]. rewrite Hptr, length_app. cbn. lia. }
    destruct (IH (pre ++ [x]) b rest (set_ptr (S (ptr t)) t) fuel Hprog1 Hptr1
                (proj2 Hb) Hbody) as [H|H].
    + left. rewrite H. unfold set_ptr. cbn [program pushed]. rewrite length_app. cbn [length].
      replace (length pre + 1 + 1 + length body)%nat
        with (length pre + 1 + S (length body))%nat by lia.
      reflexivity.
    + by right.
Qed.

(** At the end of input the middle loop of the scan turns for ever: the
    cursor does not move and no number comes under it. *)
Lemma next_numbered_line_at_end fuel : forall t,
  program t !! ptr t = None ->
  next_numbered_line fuel t = Halt OutOfFuel.
Proof.
  assert (Hturn : forall fuel t, program t !! ptr t = None ->
            next_numbered_line fuel t =
              match fuel with
              | O => Halt OutOfFuel
              | S fuel' => next_numbered_line fuel' t
              end).
  { intros f t Hend. rewrite next_numbered_line_eq, skip_to_eol_eq. cbv zeta.
    assert (Htok : tokenizer_token t = TOKENIZER_ENDOFINPUT)
      by (unfold tokenizer_token, at_cursor; by rewrite Hend).
    assert (Hfin : tokenizer_next t = t)
      by (unfold tokenizer_next, tokenizer_finished; rewrite Htok; reflexivity).
    assert (Heol : at_eol t = true) by (unfold at_eol; rewrite Htok; reflexivity).
    rewrite Hfin, Heol, Htok.
    destruct (decide (TOKENIZER_ENDOFINPUT = TOKENIZER_CR)); [done|].
    rewrite Htok.
    destruct (decide (TOKENIZER_ENDOFINPUT <> TOKENIZER_NUMBER)) as [_|Hn];
      [reflexivity|exfalso; apply Hn; discriminate]. }
  induction fuel as [|fuel IH]; intros t Hend; rewrite (Hturn _ _ Hend); [done|].
  apply IH, Hend.
Qed.

(** From the start of a line, the middle loop reaches the start of the
    next line, or runs out of budget on the way; behind the last line it
    runs out of budget whatever the budget. *)
Lemma next_numbered_line_any pre l ls t fuel :
  program t = pre ++ render (l :: ls) ->
  ptr t = length pre ->
  Forall inner (snd l) ->
  (ls <> [] /\
   next_numbered_line fuel t = Done (set_ptr (length pre + length (render_line l)) t)) \/
  next_numbered_line fuel t = Halt OutOfFuel.
Proof.
  intros Hprog Hptr Hl. rewrite render_cons in Hprog. unfold render_line at 1 in Hprog.
  cbn [app] in Hprog. rewrite <- app_assoc in Hprog. cbn [app] in Hprog.
  rewrite next_numbered_line_eq.
  destruct (skip_to_eol_any (snd l) pre (Num (fst l)) (render ls) t fuel Hprog Hptr
              ltac:(discriminate) Hl) as [H|H]; rewrite H; [|by right].
  set (t1 := set_ptr (length pre + 1 + length (snd l)) t).
  assert (Hcr : program t1 !! ptr t1 = Some CR).
  { cbn [t1 set_ptr program ptr]. rewrite Hprog.
    replace (pre ++ Num (fst l) :: snd l ++ CR :: render ls)
      with ((pre ++ Num (fst l) :: snd l) ++ CR :: render ls)
      by (rewrite <- app_assoc; reflexivity).
    apply list_lookup_middle. rewrite length_app. cbn. lia. }
  cbv zeta. rewrite (token_at _ _ Hcr). cbn [lx_token CR K].
  destruct (decide (TOKENIZER_CR = TOKENIZER_CR)); [|done].
  rewrite (next_at _ _ Hcr) by discriminate.
  set (t2 := set_ptr (S (ptr t1)) t1).
  assert (Hlen : ptr t2 = (length pre + length (render_line l))%nat).
  { cbn [t2 t1 set_ptr ptr]. unfold render_line. cbn [length]. rewrite length_app. cbn. lia. }
  assert (Ht2 : t2 = set_ptr (length pre + length (render_line l)) t).
  { unfold t2 at 1. rewrite <- Hlen. reflexivity. }
  destruct ls as [|l2 ls2].
  - right.
    assert (Hend : program t2 !! ptr t2 = None).
    { apply lookup_ge_None_2. rewrite Hlen. cbn [t2 t1 set_ptr program]. rewrite Hprog.
      cbn [render concat map]. rewrite !length_app. cbn [length]. rewrite length_app. cbn.
      unfold render_line. cbn [length]. rewrite length_app. cbn. lia. }
    assert (Htok : tokenizer_token t2 = TOKENIZER_ENDOFINPUT)
      by (unfold tokenizer_token, at_cursor; by rewrite Hend).
    rewrite Htok.
    destruct (decide (TOKENIZER_ENDOFINPUT <> TOKENIZER_NUMBER)) as [_|Hn];
      [|exfalso; apply Hn; discriminate].
    destruct fuel as [|fuel]; [done|]. apply next_numbered_line_at_end, Hend.
  - left. split; [done|].
    assert (Hnum : program t2 !! ptr t2 = Some (Num (fst l2))).
    { rewrite Hlen. cbn [t2 t1 set_ptr program]. rewrite Hprog.
      rewrite render_cons. unfold render_line at 2. cbn [app].
      replace (pre ++ Num (fst l) :: snd l ++ CR :: Num (fst l2) :: (snd l2 ++ [CR]) ++ render ls2)
        with ((pre ++ render_line l) ++ Num (fst l2) :: (snd l2 ++ [CR]) ++ render ls2).
      - apply list_lookup_middle. by rewrite length_app.
      - unfold render_line. rewrite <- !app_assoc. cbn [app]. rewrite <- app_assoc.
        reflexivity. }
    rewrite (token_at _ _ Hnum). cbn [lx_token Num].
    destruct (decide (TOKENIZER_NUMBER <> TOKENIZER_NUMBER)); [done|].
    by rewrite Ht2.
Qed.

Lemma scan_misses n ls : forall pre t fuel,
  program t = pre ++ render ls ->
  ptr t = length pre ->
  well_formed ls ->
  ls <> [] ->
  find_line ls n = None ->
  scan_for_line fuel n t = Halt OutOfFuel.
Proof.
  induction ls as [|l ls IH]; intros pre t fuel Hprog Hptr Hwf Hne Hfind; [done|].
  apply Forall_cons_1 in Hwf as [Hl Hwf].
  cbn [find_line] in Hfind.
  destruct (Z.eqb_spec (fst l) n) as [|Hln]; [done|].
  assert (Hfind' : find_line ls n = None) by (by destruct (find_line ls n)).
  assert (Hat : program t !! ptr t = Some (Num (fst l))).
  { rewrite Hprog, Hptr, render_cons. unfold render_line. cbn [app].
    apply list_lookup_middle. done. }
  rewrite scan_for_line_eq. rewrite (num_at _ _ Hat). cbn [lx_num Num].
  apply Z.eqb_neq in Hln. rewrite Hln. cbn [negb].
  destruct fuel as [|fuel]; [done|].
  destruct (next_numbered_line_any pre l ls t (S fuel) Hprog Hptr Hl) as [[Hls H]|H];
    rewrite H; [|done].
  apply (IH (pre ++ render_line l)).
  - cbn [set_ptr program]. rewrite Hprog, render_cons, app_assoc. reflexivity.
  - cbn [set_ptr ptr]. by rewrite length_app.
  - exact Hwf.
  - exact Hls.
  - exact Hfind'.
Qed.

(** X3.  A jump to a line number that no line of the program carries
    never returns: the scan passes every line, reaches the end of input,
    and the loop that waits there for a number turns for ever.  In the
    model the computation exhausts every budget. *)
Theorem jump_to_a_missing_line_never_returns ls n idx t fuel :
  well_formed ls ->
  ls <> [] ->
  program t = render ls ->
  find_line ls n = None ->
  index_find idx n = None ->
  jump_linenum fuel idx n t = Halt OutOfFuel.
Proof.
  intros Hwf Hne Hprog Hfind Hidx. unfold jump_linenum, jump_linenum_slow. rewrite Hidx.
  apply (scan_misses n ls []); done.
Qed.

Lemma tokenizer_next_same t : same_text t (tokenizer_next t).
Proof. unfold tokenizer_next. by destruct (tokenizer_finished t). Qed.

Lemma same_text_trans t1 t2 t3 : same_text t1 t2 -> same_text t2 t3 -> same_text t1 t3.
Proof. intros [? ?] [? ?]. split; congruence. Qed.

Lemma skip_to_eol_same fuel : forall t t',
  skip_to_eol fuel t = Done t' -> same_text t t'.
Proof.
  induction fuel as [|fuel IH]; intros t t' H; rewrite skip_to_eol_eq in H; cbv zeta in H;
    destruct (at_eol _); try discriminate;
    try (injection H as <-; apply tokenizer_next_same).
  apply IH in H. exact (same_text_trans _ _ _ (tokenizer_next_same t) H).
Qed.

Lemma next_numbered_line_same fuel : forall t t',
  next_numbered_line fuel t = Done t' -> same_text t t'.
Proof.
  assert (Hturn : forall t1, same_text t1
            (if decide (tokenizer_token t1 = TOKENIZER_CR) then tokenizer_next t1 else t1)).
  { intros t1. destruct (decide _); [apply tokenizer_next_same|done]. }
  induction fuel as [|fuel IH]; intros t t' H; rewrite next_numbered_line_eq in H;
    destruct (skip_to_eol _ t) as [t1|] eqn:H1; try discriminate;
    apply skip_to_eol_same in H1; cbv zeta in H;
    pose proof (same_text_trans _ _ _ H1 (Hturn t1)) as H2;
    destruct (decide (tokenizer_token _ <> TOKENIZER_NUMBER)); try discriminate;
    try (injection H as <-; exact H2).
  apply IH in H. exact (same_text_trans _ _ _ H2 H).
Qed.

Lemma scan_for_line_same n fuel : forall t t',
  scan_for_line fuel n t = Done t' -> same_text t t'.
Proof.
  induction fuel as [|fuel IH]; intros t t' H; rewrite scan_for_line_eq in H;
    destruct (negb _); try discriminate; try (injection H as <-; done).
  destruct (next_numbered_line _ t) as [t1|] eqn:H1; [|discriminate].
  apply next_numbered_line_same in H1. apply IH in H.
  exact (same_text_trans _ _ _ H1 H).
Qed.

Lemma jump_linenum_same fuel idx n t t' :
  jump_linenum fuel idx n t = Done t' -> same_text t t'.
Proof.
  unfold jump_linenum, jump_linenum_slow. destruct (index_find idx n).
  - intros [= <-]. done.
  - intros H. apply scan_for_line_same in H. exact H.
Qed.

(** ** The integer variables *)

(** X4.  An integer variable reads back what was stored in it, and storing
    it leaves every other integer variable, the strings, the tokenizer and
    the stacks as they were. *)
Theorem integer_variable_reads_back cx s varnum i e :
  Z.land varnum STRINGFLAG = 0 ->
  length (variables (sto s)) = Z.to_nat MAX_VARNUM ->
  0 <= varnum < MAX_VARNUM ->
  exists s',
    ubasic_set_variable cx varnum (integer i) s = Done (tt, s') /\
    ubasic_get_variable cx (sto s') varnum e = Done (integer i, e) /\
    (forall w, w <> varnum -> Z.land w STRINGFLAG = 0 ->
       ubasic_get_variable cx (sto s') w e = ubasic_get_variable cx (sto s) w e) /\
    strings (sto s') = strings (sto s) /\ heap (sto s') = heap (sto s) /\
    es s' = es s /\ ctl s' = ctl s /\ con s' = con s.
Proof.
  intros Hf Hlen Hv. unfold MAX_VARNUM in *.
  exists (set_var_result s varnum i).
  split; [|split; [|split; [|done]]].
  - rewrite set_integer_variable by done.
    replace ((0 <=? varnum) && (varnum <=? MAX_VARNUM)) with true
      by (unfold MAX_VARNUM; symmetry; apply andb_true_iff; split; lia).
    rewrite array_set_in by lia. reflexivity.
  - rewrite get_integer_variable by done.
    replace ((0 <=? varnum) && (varnum <=? MAX_VARNUM)) with true
      by (unfold MAX_VARNUM; symmetry; apply andb_true_iff; split; lia).
    cbn [set_var_result sto set_sto variables set_variables].
    unfold array_get. destruct (Z.ltb_spec varnum 0); [lia|].
    rewrite list_lookup_insert_eq by lia. reflexivity.
  - intros w Hw Hfw. rewrite !get_integer_variable by done.
    destruct ((0 <=? w) && (w <=? MAX_VARNUM)) eqn:Hg; [|done].
    cbn [set_var_result sto set_sto variables set_variables].
    unfold array_get. destruct (Z.ltb_spec w 0); [done|].
    rewrite list_lookup_insert_ne by lia. reflexivity.
Qed.

(** ** The console *)

Lemma charout_plain_blank k :
  charout_plain 32 k = written [32] (chpos k + 1) k.
Proof. reflexivity. Qed.

Lemma charout_tab_steps (d : nat) : forall fuel k,
  0 <= chpos k ->
  (d <= fuel)%nat ->
  (forall j, 1 <= j <= Z.of_nat d -> (chpos k + j) mod 8 <> 0) ->
  (chpos k + Z.of_nat d + 1) mod 8 = 0 ->
  charout_tab fuel k =
    Done (written (replicate (S d) 32) (chpos k + Z.of_nat d + 1) k).
Proof.
  induction d as [|d IH]; intros fuel k Hc Hfuel Hmid Hend.
  - assert (Hr : Z.rem (chpos k + 1) 8 = 0).
    { rewrite Z.rem_mod_nonneg by lia.
      replace (chpos k + 1) with (chpos k + Z.of_nat 0 + 1) by lia. exact Hend. }
    replace (chpos k + Z.of_nat 0 + 1) with (chpos k + 1) by lia.
    destruct fuel; cbn [charout_tab]; rewrite charout_plain_blank;
      cbn [written chpos]; rewrite Hr; reflexivity.
  - destruct fuel as [|fuel]; [lia|].
    assert (Hr : Z.rem (chpos k + 1) 8 <> 0).
    { rewrite Z.rem_mod_nonneg by lia. apply Hmid. lia. }
    cbn [charout_tab]. rewrite charout_plain_blank.
    cbn [written chpos]. apply Z.eqb_neq in Hr. rewrite Hr. cbn [negb].
    rewrite (IH fuel (written [32] (chpos k + 1) k)); cbn [written chpos stdout stdin].
    + unfold written. cbn [stdout stdin chpos]. rewrite <- app_assoc.
      replace (chpos k + 1 + Z.of_nat d + 1) with (chpos k + Z.of_nat (S d) + 1) by lia.
      reflexivity.
    + lia.
    + lia.
    + intros j Hj. replace (chpos k + 1 + j) with (chpos k + (j + 1)) by lia.
      apply Hmid. lia.
    + replace (chpos k + 1 + Z.of_nat d + 1) with (chpos k + Z.of_nat (S d) + 1) by lia.
      exact Hend.
Qed.

(** [charout] of a tab writes blanks up to the next multiple of 8:
    from column [c] it writes [8 - c mod 8] of them, between one and eight,
    and nothing else of the state changes. *)
Lemma tab_moves_to_the_next_multiple_of_8 s :
  0 <= chpos (con s) ->
  let n := 8 - chpos (con s) mod 8 in
  1 <= n <= 8 /\
  (chpos (con s) + n) mod 8 = 0 /\
  charout 9 s =
    Done (tt, set_con (written (replicate (Z.to_nat n) 32) (chpos (con s) + n) (con s)) s).
Proof.
  intros Hc n.
  assert (Hm : 0 <= chpos (con s) mod 8 < 8) by (apply Z.mod_pos_bound; lia).
  assert (Hend : (chpos (con s) + n) mod 8 = 0).
  { unfold n. pose proof (Z.div_mod (chpos (con s)) 8 ltac:(lia)) as Hdm.
    replace (chpos (con s) + (8 - chpos (con s) mod 8))
      with ((chpos (con s) / 8 + 1) * 8) by lia.
    apply Z.mod_mul. lia. }
  split; [unfold n; lia|]. split; [exact Hend|].
  unfold charout, bind, get, lift, put. cbn [Z.eqb Pos.eqb].
  rewrite (charout_tab_steps (Z.to_nat (n - 1)) 8 (con s)).
  - replace (S (Z.to_nat (n - 1))) with (Z.to_nat n) by (unfold n; lia).
    replace (chpos (con s) + Z.of_nat (Z.to_nat (n - 1)) + 1)
      with (chpos (con s) + n) by (unfold n; lia).
    reflexivity.
  - exact Hc.
  - unfold n. lia.
  - intros j Hj.
    pose proof (Z.div_mod (chpos (con s)) 8 ltac:(lia)) as Hdm.
    replace (chpos (con s) + j)
      with (chpos (con s) mod 8 + j + (chpos (con s) / 8) * 8) by lia.
    rewrite Z.mod_add by lia. rewrite Z.mod_small by (unfold n in Hj; lia).
    lia.
  - replace (chpos (con s) + Z.of_nat (Z.to_nat (n - 1)) + 1)
      with (chpos (con s) + n) by (unfold n; lia).
    exact Hend.
Qed.

Lemma charout_plain_counts c k :
  plain c -> charout_plain c k = written [c] (chpos k + 1) k.
Proof.
  intros (H9 & H8 & H127 & H13 & H10). unfold charout_plain, putchar. cbn [chpos stdout stdin].
  destruct (Z.eqb_spec c 8); [done|]. destruct (Z.eqb_spec c 127); [done|].
  destruct (Z.eqb_spec c 13); [done|]. destruct (Z.eqb_spec c 10); [done|].
  reflexivity.
Qed.

Lemma charout_all_plain cs : forall s,
  Forall plain cs ->
  charout_all cs s =
    Done (tt, set_con (written cs (chpos (con s) + Z.of_nat (length cs)) (con s)) s).
Proof.
  induction cs as [|c cs IH]; intros s Hp.
  - simpl. unfold ret, written. rewrite app_nil_r, Z.add_0_r.
    destruct s as [? ? ? [? ? ?] ? ? ? ? ?]. reflexivity.
  - apply Forall_cons_1 in Hp as [Hc Hcs].
    cbn [charout_all]. unfold bind at 1.
    assert (Hone : charout c s = Done (tt, set_con (written [c] (chpos (con s) + 1) (con s)) s)).
    { unfold charout, bind, get, put. destruct Hc as (H9 & ?).
      destruct (Z.eqb_spec c 9); [done|]. rewrite charout_plain_counts by done. reflexivity. }
    rewrite Hone, IH by done.
    cbn [set_con con written chpos stdout stdin es sto ctl ended poked data_position
         data_seek array_base].
    unfold written. cbn [stdout stdin chpos]. rewrite <- app_assoc. cbn [app].
    replace (chpos (con s) + 1 + Z.of_nat (length cs))
      with (chpos (con s) + Z.of_nat (length (c :: cs))) by (rewrite length_cons; lia).
    reflexivity.
Qed.

(** [chartab v] pads with blanks up to column [v]: it writes
    [v - chpos] of them, and none when the column is at [v] or beyond; the
    column never moves back. *)
Lemma chartab_pads_up_to_the_column v s :
  chartab v s =
    Done (tt, set_con (written (replicate (Z.to_nat (v - chpos (con s))) 32)
                               (Z.max (chpos (con s)) v) (con s)) s).
Proof.
  unfold chartab, bind, get. rewrite charout_all_plain.
  - rewrite length_replicate. do 4 f_equal. lia.
  - apply Forall_replicate. unfold plain. lia.
Qed.

(** X6.  The tab stops of the console.  [charout] of a tab writes blanks
    up to the next multiple of 8: from column [c] it writes [8 - c mod 8]
    of them, between one and eight.  [chartab v], which TAB calls, pads
    with blanks up to column [v] and writes nothing when the column is at
    [v] or beyond.  Nothing but the console changes. *)
Theorem tab_stops_of_the_console s :
  0 <= chpos (con s) ->
  (let n := 8 - chpos (con s) mod 8 in
   1 <= n <= 8 /\
   (chpos (con s) + n) mod 8 = 0 /\
   charout 9 s =
     Done (tt, set_con (written (replicate (Z.to_nat n) 32) (chpos (con s) + n) (con s)) s)) /\
  (forall v,
     chartab v s =
       Done (tt, set_con (written (replicate (Z.to_nat (v - chpos (con s))) 32)
                                  (Z.max (chpos (con s)) v) (con s)) s)).
Proof.
  intros Hc. split.
  - exact (tab_moves_to_the_next_multiple_of_8 s Hc).
  - intros v. apply chartab_pads_up_to_the_column.
Qed.

Lemma charout_plain_appends c k :
  exists col, charout_plain c k = written [c] col k.
Proof.
  unfold charout_plain, putchar. cbn [chpos stdout stdin].
  destruct (_ && _); [eexists; reflexivity|].
  destruct (_ || _); eexists; reflexivity.
Qed.

Lemma charout_tab_appends fuel : forall k k',
  charout_tab fuel k = Done k' ->
  exists w, stdout k' = stdout k ++ w /\ stdin k' = stdin k.
Proof.
  induction fuel as [|fuel IH]; intros k k' H; cbn [charout_tab] in H;
    destruct (charout_plain_appends 32 k) as [col Hc]; rewrite Hc in H;
    destruct (negb _).
  - discriminate.
  - injection H as <-. by exists [32].
  - apply IH in H as (w & Hw & Hi). cbn [written stdout stdin] in Hw, Hi.
    exists ([32] ++ w). by rewrite Hw, app_assoc.
  - injection H as <-. by exists [32].
Qed.

Lemma appended_refl s : appended s s [].
Proof. split; [by rewrite app_nil_r|done]. Qed.

Lemma appended_trans s1 s2 s3 w1 w2 :
  appended s1 s2 w1 -> appended s2 s3 w2 -> appended s1 s3 (w1 ++ w2).
Proof.
  intros [H1 I1] [H2 I2]. split; [by rewrite H2, H1, app_assoc|congruence].
Qed.

Lemma charout_appends c s u s' :
  charout c s = Done (u, s') -> exists w, appended s s' w.
Proof.
  unfold charout, bind, get, lift, put. destruct (c =? 9).
  - destruct (charout_tab 8 (con s)) as [k|] eqn:Hk; [|discriminate].
    intros [= _ <-]. apply charout_tab_appends in Hk as (w & Hw & Hi).
    exists w. split; [exact Hw|exact Hi].
  - intros [= _ <-]. destruct (charout_plain_appends c (con s)) as [col Hc].
    exists [c]. rewrite Hc. split; reflexivity.
Qed.

Lemma charout_all_appends cs : forall s u s',
  charout_all cs s = Done (u, s') -> exists w, appended s s' w.
Proof.
  induction cs as [|c cs IH]; intros s u s' H.
  - injection H as _ <-. exists []. apply appended_refl.
  - cbn [charout_all] in H. apply bind_inv in H as ([] & s1 & H1 & H2).
    apply charout_appends in H1 as [w1 A1]. apply IH in H2 as [w2 A2].
    exists (w1 ++ w2). by apply (appended_trans _ s1).
Qed.

Lemma appended_set_es s e : appended s (set_es e s) [].
Proof. split; [cbn; by rewrite app_nil_r|done]. Qed.

Lemma tk_appended {A} (m : M estate A) s a s' :
  tk m s = Done (a, s') -> appended s s' [].
Proof. intros H. apply tk_inv in H as (e & _ & ->). apply appended_set_es. Qed.

Lemma ev_appended {A} (m : store -> M estate A) s a s' :
  ev m s = Done (a, s') -> appended s s' [].
Proof. intros H. apply ev_inv in H as (e & _ & ->). apply appended_set_es. Qed.

Lemma print_item_appends cx fuel t s nonl s' :
  print_item cx fuel t s = Done (nonl, s') ->
  (exists w, appended s s' w) /\
  (nonl = 0 \/ t = TOKENIZER_COMMA \/ t = TOKENIZER_SEMICOLON).
Proof.
  unfold print_item. intros H.
  destruct (decide (t = TOKENIZER_STRING)).
  { unbind H. unbind H. injection H as <- <-. split; [|by left].
    unfold tokenizer_string_func_charout, bind, get in Hm.
    apply charout_all_appends in Hm as [w A]. apply tk_appended in Hm0.
    exists (w ++ []). by apply (appended_trans _ s0). }
  destruct (TOKENIZER_STRINGEXP t).
  { unbind H. unbind H. injection H as <- <-. split; [|by left].
    apply ev_appended in Hm.
    unfold charoutstr in Hm0. unbind Hm0. unbind Hm0. unbind Hm0. unbind Hm0.
    injection Hm1 as <- <-. unfold lift in Hm2, Hm3, Hm4.
    destruct (buffer_of _ _ _); [|discriminate]. injection Hm2 as <- <-.
    destruct (byte_at _ _); [|discriminate]. injection Hm3 as <- <-.
    destruct (memcpy_from _ _ _); [|discriminate]. injection Hm4 as <- <-.
    apply charout_all_appends in Hm0 as [w A].
    exists ([] ++ w). by apply (appended_trans _ s0). }
  destruct (decide (t = TOKENIZER_COMMA)).
  { unbind H. unbind H. injection H as <- <-. split; [|by right; left].
    injection Hm as <- <-. apply tk_appended in Hm0.
    exists ([9] ++ []). apply (appended_trans _ (set_con (printf [9] (con s)) s)); [|done].
    split; reflexivity. }
  destruct (decide (t = TOKENIZER_SEMICOLON)).
  { unbind H. injection H as <- <-. split; [|by right; right].
    apply tk_appended in Hm. by exists []. }
  destruct (TOKENIZER_NUMEXP t).
  { unbind H. unbind H. injection H as <- <-. split; [|by left].
    apply ev_appended in Hm. injection Hm0 as <- <-.
    exists ([] ++ print_d a). apply (appended_trans _ s0); [done|]. split; reflexivity. }
  destruct (decide (t = TOKENIZER_TAB)).
  { unbind H. unbind H. unbind H. injection H as <- <-. split; [|by left].
    apply tk_appended in Hm. apply ev_appended in Hm0.
    unfold chartab, bind, get in Hm1. apply charout_all_appends in Hm1 as [w A].
    exists (([] ++ []) ++ w).
    apply (appended_trans _ s1); [|done]. by apply (appended_trans _ s0). }
  destruct (decide (t <> TOKENIZER_CR)); [discriminate|].
  injection H as <- <-. split; [|by left]. exists []. apply appended_refl.
Qed.

Lemma print_loop_appends cx fuel budget : forall s nonl s',
  print_loop cx fuel budget s = Done (nonl, s') ->
  (exists w, appended s s' w) /\ nonl = 0.
Proof.
  induction budget as [|budget IH]; intros s nonl s' H; cbn [print_loop] in H;
    unbind H; unbind H;
    injection Hm as <- <-;
    apply print_item_appends in Hm0 as ([w A] & Hn);
    destruct (bool_decide_reflect (tokenizer_token (tz (es s)) = TOKENIZER_CR)) as [Hcr|Hcr];
    destruct (bool_decide_reflect (tokenizer_token (tz (es s)) = TOKENIZER_ENDOFINPUT)) as [He|He];
    cbn [negb andb] in H; try discriminate;
    try (injection H as <- <-; split; [by exists w|];
         destruct Hn as [Hn|[Hn|Hn]]; [done|unfold token_now, gets in *; congruence ..]).
  apply IH in H as ([w' A'] & ->). split; [|done].
  exists (w ++ w'). by apply (appended_trans _ s1).
Qed.

(** X7.  A PRINT statement that completes has only appended to the output,
    and the last character it wrote is a newline: the flag a trailing comma
    or semicolon sets is cleared again by the turn of the loop that meets
    the end of the line. *)
Theorem print_always_ends_with_a_newline cx fuel s s' :
  print_statement cx fuel s = Done (tt, s') ->
  exists out, stdout (con s') = stdout (con s) ++ out ++ [10].
Proof.
  unfold print_statement. intros H. unbind H. unbind H. unbind H.
  apply tk_appended in Hm as [A1 _]. apply print_loop_appends in Hm0 as ([w [A2 _]] & ->).
  cbn [Z.eqb] in Hm1. injection Hm1 as <- <-.
  apply tk_appended in H as [A3 _].
  exists w. rewrite A3. cbn [con set_con printf stdout]. rewrite A2, A1.
  rewrite !app_nil_r. by rewrite app_assoc.
Qed.

Lemma print_loop_eq cx fuel budget s :
  print_loop cx fuel budget s =
    (let* t := token_here in
     let* nonl := print_item cx fuel t in
     if negb (bool_decide (t = TOKENIZER_CR)) && negb (bool_decide (t = TOKENIZER_ENDOFINPUT)) then
       match budget with
       | O => stop OutOfFuel
       | S budget' => print_loop cx fuel budget'
       end
     else ret nonl) s.
Proof. destruct budget; reflexivity. Qed.

Lemma print_item_end cx fuel s :
  TOKENIZER_STRINGEXP TOKENIZER_CR = false ->
  TOKENIZER_NUMEXP TOKENIZER_CR = false ->
  print_item cx fuel TOKENIZER_CR s = Done (0, s).
Proof. intros Hs Hn. unfold print_item. cbn. rewrite Hs, Hn. reflexivity. Qed.

(** X8.  [PRINT "text"] writes the characters of the literal through
    [charout] and then a newline through [printf]: the column counter has
    advanced by the length of the text and is not set back by the newline
    that ends the statement. *)
Theorem print_of_a_literal cx fuel s text :
  TOKENIZER_STRINGEXP TOKENIZER_CR = false ->
  TOKENIZER_NUMEXP TOKENIZER_CR = false ->
  token_of (es s) = TOKENIZER_PRINT ->
  token_of (advance (es s)) = TOKENIZER_STRING ->
  tokenizer_string (tz (advance (es s))) = text ->
  Forall plain text ->
  token_of (advance (advance (es s))) = TOKENIZER_CR ->
  (1 <= fuel)%nat ->
  print_statement cx fuel s =
    Done (tt, set_con (written (text ++ [10])
                               (chpos (con s) + Z.of_nat (length text)) (con s))
                      (set_es (advance (advance (advance (es s)))) s)).
Proof.
  intros Hs Hn Hp Hstr Htext Hplain Hcr Hfuel.
  destruct fuel as [|fuel]; [lia|].
  unfold print_statement.
  rewrite (bind_Done _ _ _ _ _ (tk_Done _ _ _ _ (accept_tok_ok _ _ Hp))).
  set (s1 := set_es (advance (es s)) s).
  rewrite (bind_Done _ _ s1 0
             (set_con (written text (chpos (con s) + Z.of_nat (length text)) (con s))
                      (set_es (advance (advance (es s))) s))).
  - cbn [Z.eqb]. unfold print_out, modify, bind. rewrite next_token_run.
    unfold written, printf. cbn. rewrite <- app_assoc. reflexivity.
  - rewrite print_loop_eq.
    rewrite (bind_Done _ _ _ _ _ (token_here_run s1)).
    cbn [s1 es set_es]. rewrite Hstr.
    unfold print_item at 1. cbn [decide decide_rel token_eq_dec].
    destruct (decide (TOKENIZER_STRING = TOKENIZER_STRING)); [|done].
    unfold tokenizer_string_func_charout.
    erewrite bind_Done; cycle 1.
    { erewrite bind_Done; cycle 1.
      { erewrite bind_Done by reflexivity.
        change (es s1) with (advance (es s)). rewrite Htext.
        apply charout_all_plain, Hplain. }
      erewrite bind_Done by apply next_token_run. reflexivity. }
    cbn [bool_decide decide_rel negb andb].
    destruct (bool_decide_reflect (TOKENIZER_STRING = TOKENIZER_CR)); [done|].
    destruct (bool_decide_reflect (TOKENIZER_STRING = TOKENIZER_ENDOFINPUT)); [done|].
    cbn [negb andb]. rewrite print_loop_eq.
    erewrite bind_Done by apply token_here_run.
    subst s1. cbn [es con set_es set_con]. rewrite Hcr.
    erewrite bind_Done by (apply print_item_end; assumption).
    destruct (bool_decide_reflect (TOKENIZER_CR = TOKENIZER_CR)); [|done].
    reflexivity.
Qed.

(** X9.  [PRINT] of a number writes its decimal digits and a newline,
    both through [printf]: the column counter that TAB works with does
    not move. *)
Theorem print_of_a_number cx fuel s n e2 :
  TOKENIZER_STRINGEXP TOKENIZER_CR = false ->
  TOKENIZER_NUMEXP TOKENIZER_CR = false ->
  token_of (es s) = TOKENIZER_PRINT ->
  let t := token_of (advance (es s)) in
  t <> TOKENIZER_STRING -> TOKENIZER_STRINGEXP t = false ->
  t <> TOKENIZER_COMMA -> t <> TOKENIZER_SEMICOLON ->
  t <> TOKENIZER_ENDOFINPUT ->
  TOKENIZER_NUMEXP t = true ->
  intexpr cx (sto s) fuel (advance (es s)) = Done (n, e2) ->
  token_of e2 = TOKENIZER_CR ->
  (1 <= fuel)%nat ->
  print_statement cx fuel s =
    Done (tt, set_con (written (print_d n ++ [10]) (chpos (con s)) (con s))
                      (set_es (advance e2) s)).
Proof.
  intros Hs Hn Hp t Ht1 Ht2 Ht3 Ht4 Hne2 Ht5 Hex Hcr Hfuel.
  destruct fuel as [|fuel]; [lia|].
  assert (Hne : t <> TOKENIZER_CR) by (intros E; rewrite E in Ht5; congruence).
  unfold print_statement. accept Hp.
  rewrite (bind_Done _ _ _ 0
             (set_con (written (print_d n) (chpos (con s)) (con s)) (set_es e2 s))).
  - cbn [Z.eqb]. unfold print_out, modify, bind, written, printf. cbn.
    rewrite <- app_assoc. reflexivity.
  - rewrite print_loop_eq.
    rewrite (bind_Done _ _ _ _ _ (token_here_run _)).
    cbn [es set_es]. fold t.
    assert (Hitem : print_item cx (S fuel) t (set_es (advance (es s)) s)
              = Done (0, set_con (written (print_d n) (chpos (con s)) (con s)) (set_es e2 s))).
    { unfold print_item.
      destruct (decide (t = TOKENIZER_STRING)); [done|]. rewrite Ht2.
      destruct (decide (t = TOKENIZER_COMMA)); [done|].
      destruct (decide (t = TOKENIZER_SEMICOLON)); [done|]. rewrite Ht5.
      evaluate_with Hex. reflexivity. }
    rewrite (bind_Done _ _ _ _ _ Hitem).
    destruct (bool_decide_reflect (t = TOKENIZER_CR)); [done|].
    destruct (bool_decide_reflect (t = TOKENIZER_ENDOFINPUT)); [done|].
    cbn [negb andb]. rewrite print_loop_eq.
    rewrite (bind_Done _ _ _ _ _ (token_here_run _)).
    cbn [es con set_es set_con]. rewrite Hcr.
    erewrite bind_Done by (apply print_item_end; assumption).
    destruct (bool_decide_reflect (TOKENIZER_CR = TOKENIZER_CR)); [|done].
    reflexivity.
Qed.

(** ** The functions of [factor] *)

Lemma byte_at_lookup (src : list Z) i x :
  0 <= i -> src !! Z.to_nat i = Some x -> byte_at src i = Done x.
Proof.
  intros Hi Hx. unfold byte_at, slice.
  pose proof (lookup_lt_Some _ _ _ Hx) as Hlt.
  replace ((0 <=? i) && (0 <=? 1) && (i + 1 <=? Z.of_nat (length src))) with true
    by (symmetry; rewrite !andb_true_iff; repeat split; lia).
  rewrite (drop_S _ _ _ Hx). reflexivity.
Qed.

Lemma wrap_shift z :
  0 < value_bits -> exists k, wrap z = z + k * 2 ^ value_bits.
Proof.
  intros Hb. unfold wrap.
  assert (HM : 0 < 2 ^ value_bits) by (apply Z.pow_pos_nonneg; lia).
  exists (- ((z + 2 ^ (value_bits - 1)) / 2 ^ value_bits)).
  rewrite Z.mod_eq by lia. lia.
Qed.

Lemma wrap_congruent a b k :
  0 < value_bits -> a = b + k * 2 ^ value_bits -> wrap a = wrap b.
Proof.
  intros Hb ->. unfold wrap.
  assert (HM : 0 < 2 ^ value_bits) by (apply Z.pow_pos_nonneg; lia).
  replace (b + k * 2 ^ value_bits + 2 ^ (value_bits - 1))
    with (b + 2 ^ (value_bits - 1) + k * 2 ^ value_bits) by lia.
  rewrite Z.mod_add by lia. reflexivity.
Qed.

Lemma wrap_in_range z :
  0 < value_bits ->
  - 2 ^ (value_bits - 1) <= z < 2 ^ (value_bits - 1) -> wrap z = z.
Proof.
  intros Hb Hz. unfold wrap.
  assert (H2 : 2 ^ value_bits = 2 * 2 ^ (value_bits - 1)).
  { rewrite <- Z.pow_succ_r by lia. f_equal. lia. }
  rewrite Z.mod_small by lia. lia.
Qed.

(** One turn of the digit loop of [string_val]. *)
Lemma digit_step n m c k :
  0 < value_bits -> n = m + k * 2 ^ value_bits ->
  int_sub (int_add (int_mul 10 n) c) 48 = wrap (10 * m + (c - 48)).
Proof.
  intros Hb ->. unfold int_sub, int_add, int_mul.
  destruct (wrap_shift (10 * (m + k * 2 ^ value_bits)) Hb) as [k1 ->].
  destruct (wrap_shift (10 * (m + k * 2 ^ value_bits) + k1 * 2 ^ value_bits + c) Hb) as [k2 ->].
  apply (wrap_congruent _ _ (10 * k + k1 + k2) Hb). lia.
Qed.

Lemma string_val_digits_run cx ds : forall pre n m k e,
  0 < value_bits ->
  Forall (fun c => isdigit c = true) ds ->
  n = m + k * 2 ^ value_bits ->
  exists k',
    string_val_digits cx (pre ++ ds) (length ds) (Z.of_nat (length pre)) n e
      = Done (fold_left (fun n c => 10 * n + (c - 48)) ds m + k' * 2 ^ value_bits, e) /\
    (ds <> [] ->
       fold_left (fun n c => 10 * n + (c - 48)) ds m + k' * 2 ^ value_bits
         = wrap (fold_left (fun n c => 10 * n + (c - 48)) ds m)).
Proof.
  induction ds as [|c ds IH]; intros pre n m k e Hb Hd Hn.
  - exists k. split; [|done]. simpl. unfold ret. by rewrite Hn.
  - apply Forall_cons_1 in Hd as [Hc Hds].
    cbn [string_val_digits length fold_left].
    rewrite (bind_Done _ _ _ c e); cycle 1.
    { unfold lift. rewrite (byte_at_lookup _ _ c); [done|lia|].
      rewrite Nat2Z.id. apply list_lookup_middle. done. }
    rewrite Hc. cbn [negb].
    rewrite (digit_step n m c k Hb Hn).
    destruct (wrap_shift (10 * m + (c - 48)) Hb) as [k1 Hk1].
    destruct (IH (pre ++ [c]) (wrap (10 * m + (c - 48))) (10 * m + (c - 48)) k1 e Hb Hds Hk1)
      as (k' & Hrun & Hwrap).
    rewrite <- app_assoc in Hrun. cbn [app] in Hrun.
    rewrite length_app in Hrun. cbn [length] in Hrun.
    replace (Z.of_nat (length pre + 1)) with (Z.of_nat (length pre) + 1) in Hrun by lia.
    destruct ds as [|c' ds'].
    + exists k1. split; [|intros _; cbn [fold_left]; by rewrite Hk1].
      cbn [length string_val_digits fold_left] in *. unfold ret. by rewrite Hk1.
    + exists k'. split; [exact Hrun|]. intros _. apply Hwrap. done.
Qed.

(** X10.  VAL reads a number written as an optional minus sign and decimal
    digits: the result is the number the digits denote, negated after a
    minus sign, reduced to the width of [value_t]; a number that fits
    [value_t] is the result as it stands.  The evaluator state is left as it
    was. *)
Theorem val_reads_a_decimal_number cx sto e t p neg ds :
  0 < value_bits ->
  d t = d_p p ->
  buffer_of sto (stringblob e) p
    = Done (Z.of_nat (length (numeral neg ds)) :: numeral neg ds) ->
  ds <> [] -> (length (numeral neg ds) <= 255)%nat ->
  Forall (fun c => isdigit c = true) ds ->
  let v := if neg then - decimal ds else decimal ds in
  string_val cx sto t e = Done (wrap v, e) /\
  (- 2 ^ (value_bits - 1) <= v < 2 ^ (value_bits - 1) ->
     string_val cx sto t e = Done (v, e)).
Proof.
  intros Hb Hd Hbuf Hne Hlen Hds v.
  assert (Hrun : string_val cx sto t e = Done (wrap v, e)).
  { unfold string_val, read_p. rewrite Hd.
    rewrite (bind_Done _ _ _ p e) by reflexivity.
    rewrite (bind_Done _ _ _ _ e (string_at_run _ _ _ _ Hbuf)).
    rewrite (bind_Done _ _ _ _ e) by (unfold lift; rewrite byte_at_head; reflexivity).
    subst v. destruct ds as [|c0 ds0]; [done|].
    assert (Hc0 : isdigit c0 = true) by (by apply Forall_cons_1 in Hds as [? _]).
    remember (c0 :: ds0) as ds eqn:Eds in *.
    destruct neg; unfold numeral in *; cbn [app] in *.
    - rewrite (bind_Done _ _ _ 45 e)
        by (unfold lift; rewrite (byte_at_lookup _ 1 45); [reflexivity|lia|reflexivity]).
      cbn [Z.eqb Pos.eqb]. cbn [length] in *.
      replace (to_uint8 (Z.of_nat (S (length ds)) - 1)) with (Z.of_nat (length ds))
        by (unfold to_uint8; rewrite Z.mod_small; lia).
      destruct (Z.eqb_spec (Z.of_nat (length ds)) 0) as [E|_];
        [rewrite Eds in E; cbn in E; lia|].
      rewrite Nat2Z.id.
      destruct (string_val_digits_run cx ds [Z.of_nat (S (length ds)); 45] 0 0 0 e Hb Hds eq_refl)
        as (k' & Hrun & Hwrap).
      cbn [length] in Hrun. rewrite (bind_Done _ _ _ _ e Hrun). unfold ret.
      rewrite (Hwrap Hne). fold (decimal ds).
      assert (Hw : int_neg (wrap (decimal ds)) = wrap (- decimal ds)).
      { unfold int_neg. destruct (wrap_shift (decimal ds) Hb) as [k ->].
        apply (wrap_congruent _ _ (- k) Hb). lia. }
      rewrite Hw. reflexivity.
    - rewrite (bind_Done _ _ _ c0 e)
        by (unfold lift; rewrite (byte_at_lookup _ 1 c0);
            [reflexivity|lia|rewrite Eds; reflexivity]).
      assert (H45 : (c0 =? 45) = false).
      { unfold isdigit in Hc0. apply andb_true_iff in Hc0 as [? _]. lia. }
      rewrite H45.
      destruct (Z.eqb_spec (Z.of_nat (length ds)) 0) as [E|_];
        [rewrite Eds in E; cbn in E; lia|].
      rewrite Nat2Z.id.
      destruct (string_val_digits_run cx ds [Z.of_nat (length ds)] 0 0 0 e Hb Hds eq_refl)
        as (k' & Hrun & Hwrap).
      cbn [length] in Hrun. rewrite (bind_Done _ _ _ _ e Hrun). unfold ret.
      rewrite (Hwrap Hne). reflexivity. }
  split; [exact Hrun|]. intros Hv. rewrite Hrun, wrap_in_range by done. reflexivity.
Qed.

Lemma string_val_digits_rejects cx c post pre : forall front k n e,
  Forall (fun c => isdigit c = true) pre ->
  isdigit c = false ->
  string_val_digits cx (front ++ pre ++ c :: post) (length pre + S k)
                    (Z.of_nat (length front)) n e
    = Halt (Exit (Ubasic (line_num cx) badtype)).
Proof.
  induction pre as [|x pre IH]; intros front k n e Hpre Hc.
  - cbn [length Nat.add app string_val_digits].
    rewrite (bind_Done _ _ _ c e); cycle 1.
    { unfold lift. rewrite (byte_at_lookup _ _ c); [done|lia|].
      rewrite Nat2Z.id. apply list_lookup_middle. done. }
    rewrite Hc. reflexivity.
  - apply Forall_cons_1 in Hpre as [Hx Hpre].
    cbn [length Nat.add app string_val_digits].
    rewrite (bind_Done _ _ _ x e); cycle 1.
    { unfold lift. rewrite (byte_at_lookup _ _ x); [done|lia|].
      rewrite Nat2Z.id. apply list_lookup_middle. done. }
    rewrite Hx. cbn [negb].
    specialize (IH (front ++ [x]) k (int_sub (int_add (int_mul 10 n) x) 48) e Hpre Hc).
    rewrite <- app_assoc in IH. cbn [app] in IH.
    rewrite length_app in IH. cbn [length] in IH.
    replace (Z.of_nat (length front + 1)) with (Z.of_nat (length front) + 1) in IH by lia.
    exact IH.
Qed.

(** X11.  VAL stops with "Type mismatch" on a string that is not a number:
    one whose first byte after an optional minus sign and some digits is no
    digit, and one that is a minus sign and nothing else. *)
Theorem val_rejects_what_is_no_number cx sto e t p :
  d t = d_p p ->
  (forall neg pre c post,
     let body := numeral neg (pre ++ c :: post) in
     buffer_of sto (stringblob e) p = Done (Z.of_nat (length body) :: body) ->
     (length body <= 255)%nat ->
     Forall (fun c => isdigit c = true) pre -> isdigit c = false ->
     neg = true \/ pre <> [] \/ c <> 45 ->
     string_val cx sto t e = Halt (Exit (Ubasic (line_num cx) badtype))) /\
  (buffer_of sto (stringblob e) p = Done [1; 45] ->
     string_val cx sto t e = Halt (Exit (Ubasic (line_num cx) badtype))).
Proof.
  intros Hd. split.
  - intros neg pre c post body Hbuf Hlen Hpre Hc Hfirst.
    unfold string_val, read_p. rewrite Hd.
    rewrite (bind_Done _ _ _ p e) by reflexivity.
    rewrite (bind_Done _ _ _ _ e (string_at_run _ _ _ _ Hbuf)).
    rewrite (bind_Done _ _ _ _ e) by (unfold lift; rewrite byte_at_head; reflexivity).
    subst body. destruct neg; unfold numeral in *; cbn [app length] in *.
    + rewrite (bind_Done _ _ _ 45 e)
        by (unfold lift; rewrite (byte_at_lookup _ 1 45); [reflexivity|lia|reflexivity]).
      cbn [Z.eqb Pos.eqb].
      replace (to_uint8 (Z.of_nat (S (length (pre ++ c :: post))) - 1))
        with (Z.of_nat (length (pre ++ c :: post)))
        by (unfold to_uint8; rewrite Z.mod_small; lia).
      rewrite length_app in *. cbn [length] in *.
      destruct (Z.eqb_spec (Z.of_nat (length pre + S (length post))) 0) as [E|_]; [lia|].
      rewrite Nat2Z.id.
      rewrite (bind_Halt _ _ _ (Exit (Ubasic (line_num cx) badtype))); [done|].
      apply (string_val_digits_rejects cx c post pre
               [Z.of_nat (S (length pre + S (length post))); 45]); done.
    + assert (H45 : exists x, (pre ++ c :: post) !! 0%nat = Some x /\ (x =? 45) = false).
      { destruct pre as [|x pre'].
        - exists c. split; [done|]. destruct Hfirst as [?|[?|?]]; [done|done|lia].
        - exists x. split; [done|]. apply Forall_cons_1 in Hpre as [Hx _].
          unfold isdigit in Hx. apply andb_true_iff in Hx as [? _]. lia. }
      destruct H45 as (x & Hx & Hx45).
      rewrite (bind_Done _ _ _ x e)
        by (unfold lift; rewrite (byte_at_lookup _ 1 x); [reflexivity|lia|exact Hx]).
      rewrite Hx45.
      rewrite length_app in *. cbn [length] in *.
      destruct (Z.eqb_spec (Z.of_nat (length pre + S (length post))) 0) as [E|_]; [lia|].
      rewrite Nat2Z.id.
      rewrite (bind_Halt _ _ _ (Exit (Ubasic (line_num cx) badtype))); [done|].
      apply (string_val_digits_rejects cx c post pre
               [Z.of_nat (length pre + S (length post))]); done.
  - intros Hbuf. unfold string_val, read_p. rewrite Hd.
    rewrite (bind_Done _ _ _ p e) by reflexivity.
    rewrite (bind_Done _ _ _ _ e (string_at_run _ _ _ _ Hbuf)).
    reflexivity.
Qed.

Lemma funcexpr_one cx ex ty e v e1 :
  token_of e = TOKENIZER_LEFTPAREN ->
  ex (advance e) = Done (v, e1) ->
  type v = ty ->
  token_of e1 = TOKENIZER_RIGHTPAREN ->
  funcexpr cx ex [ty] e = Done ([v], advance e1).
Proof.
  intros Hl Hex Hty Hr. unfold funcexpr.
  rewrite (bind_Done _ _ _ _ _ (accept_tok_ok _ _ Hl)).
  cbn [funcexpr_args].
  erewrite bind_Done; cycle 1.
  { rewrite (bind_Done _ _ _ _ _ Hex).
    destruct (decide (ty <> type v)); [congruence|].
    reflexivity. }
  rewrite (bind_Done _ _ _ _ _ (accept_tok_ok _ _ Hr)). reflexivity.
Qed.

Lemma factor_numexp cx sto ex e t :
  token_of e = t ->
  TOKENIZER_NUMEXP t = true ->
  t <> TOKENIZER_STRING -> t <> TOKENIZER_NUMBER -> t <> TOKENIZER_LEFTPAREN ->
  t <> TOKENIZER_INTVAR -> t <> TOKENIZER_STRINGVAR ->
  factor cx sto ex e =
    (let* i :=
       match t with
       | TOKENIZER_PEEK =>
           let* ts := funcexpr cx ex I_ in
           let* a := arg ts 0 in let* x := read_i a in
           match peek_function cx with
           | Some peek => ret (peek x)
           | None => stop (Fault NullCall)
           end
       | TOKENIZER_ABS =>
           let* ts := funcexpr cx ex I_ in
           let* a := arg ts 0 in let* x := read_i a in
           ret (if x <? 0 then int_neg x else x)
       | TOKENIZER_INT =>
           let* ts := funcexpr cx ex I_ in
           let* a := arg ts 0 in read_i a
       | TOKENIZER_SGN =>
           let* ts := funcexpr cx ex I_ in
           let* a := arg ts 0 in let* x := read_i a in
           let x := if x >? 1 then 1 else x in
           ret (if x <? 0 then -1 else x)
       | TOKENIZER_LEN =>
           let* ts := funcexpr cx ex S_ in
           let* a := arg ts 0 in let* p := read_p a in
           let* src := string_at sto p in
           lift (byte_at src 0)
       | TOKENIZER_CODE =>
           let* ts := funcexpr cx ex S_ in
           let* a := arg ts 0 in let* p := read_p a in
           let* src := string_at sto p in
           let* l := lift (byte_at src 0) in
           if negb (l =? 0) then lift (byte_at src 1) else ret 0
       | TOKENIZER_VAL =>
           let* ts := funcexpr cx ex S_ in
           let* a := arg ts 0 in
           string_val cx sto a
       | _ => ubasic_error cx syntax
       end in
     ret (integer i)) (advance e).
Proof.
  intros Ht Hn H1 H2 H3 H4 H5. unfold factor.
  rewrite (bind_Done _ _ e (token_of e) e) by reflexivity.
  rewrite Ht.
  destruct t; try done; rewrite Hn;
    (rewrite (bind_Done _ _ _ _ _ (accept_tok_ok _ _ Ht)); reflexivity).
Qed.

(** X12.  ABS, SGN and INT of an integer argument: the absolute value, the
    sign (-1, 0 or 1) and the argument itself.  The argument is whatever
    the expression between the brackets yields; the cursor ends behind the
    closing bracket. *)
Theorem abs_sgn_int_of_an_integer cx sto ex e x e1 :
  0 < value_bits ->
  token_of (advance e) = TOKENIZER_LEFTPAREN ->
  ex (advance (advance e)) = Done (integer x, e1) ->
  token_of e1 = TOKENIZER_RIGHTPAREN ->
  - 2 ^ (value_bits - 1) < x < 2 ^ (value_bits - 1) ->
  (token_of e = TOKENIZER_ABS -> TOKENIZER_NUMEXP TOKENIZER_ABS = true ->
     factor cx sto ex e = Done (integer (Z.abs x), advance e1)) /\
  (token_of e = TOKENIZER_SGN -> TOKENIZER_NUMEXP TOKENIZER_SGN = true ->
     factor cx sto ex e = Done (integer (Z.sgn x), advance e1)) /\
  (token_of e = TOKENIZER_INT -> TOKENIZER_NUMEXP TOKENIZER_INT = true ->
     factor cx sto ex e = Done (integer x, advance e1)).
Proof.
  intros Hb Hl Hex Hr Hx.
  pose proof (funcexpr_one cx ex TYPE_INTEGER (advance e) (integer x) e1 Hl Hex eq_refl Hr) as Hf.
  split; [|split]; intros Ht Hn; rewrite (factor_numexp cx sto ex e _ Ht Hn) by done;
    cbv beta iota; unfold I_;
    (erewrite bind_Done;
       [|rewrite (bind_Done _ _ _ _ _ Hf); cbn [arg lookup list_lookup];
         try (rewrite (bind_Done _ _ _ (integer x) (advance e1)) by reflexivity);
         try (rewrite (bind_Done _ _ _ x (advance e1)) by reflexivity); reflexivity]);
    unfold ret; do 3 f_equal.
  - destruct (Z.ltb_spec x 0); [|lia]. unfold int_neg. rewrite wrap_in_range by lia. lia.
  - destruct (Z.gtb_spec x 1).
    + cbn. rewrite Z.sgn_pos by lia. reflexivity.
    + destruct (Z.ltb_spec x 0); [rewrite Z.sgn_neg by lia; reflexivity|].
      assert (x = 0 \/ x = 1) as [->| ->] by lia; reflexivity.
Qed.

(** X13.  LEN and CODE of a string argument: the length byte of the
    string, and its first character, or 0 for the empty string. *)
Theorem len_and_code_of_a_string cx sto ex e v p bs e1 :
  token_of (advance e) = TOKENIZER_LEFTPAREN ->
  ex (advance (advance e)) = Done (v, e1) ->
  type v = TYPE_STRING -> d v = d_p p ->
  buffer_of sto (stringblob e1) p = Done (Z.of_nat (length bs) :: bs) ->
  token_of e1 = TOKENIZER_RIGHTPAREN ->
  (token_of e = TOKENIZER_LEN -> TOKENIZER_NUMEXP TOKENIZER_LEN = true ->
     factor cx sto ex e = Done (integer (Z.of_nat (length bs)), advance e1)) /\
  (token_of e = TOKENIZER_CODE -> TOKENIZER_NUMEXP TOKENIZER_CODE = true ->
     factor cx sto ex e = Done (integer (hd 0 bs), advance e1)).
Proof.
  intros Hl Hex Hty Hd Hbuf Hr.
  pose proof (funcexpr_one cx ex TYPE_STRING (advance e) v e1 Hl Hex Hty Hr) as Hf.
  assert (Hat : string_at sto p (advance e1) = Done (Z.of_nat (length bs) :: bs, advance e1))
    by (apply string_at_run; exact Hbuf).
  split; intros Ht Hn; rewrite (factor_numexp cx sto ex e _ Ht Hn) by done;
    cbv beta iota; unfold S_.
  - erewrite bind_Done; [reflexivity|].
    rewrite (bind_Done _ _ _ _ _ Hf). cbn [arg lookup list_lookup].
    rewrite (bind_Done _ _ _ v (advance e1)) by reflexivity.
    unfold read_p. rewrite Hd. rewrite (bind_Done _ _ _ p (advance e1)) by reflexivity.
    rewrite (bind_Done _ _ _ _ _ Hat). unfold lift. rewrite byte_at_head. reflexivity.
  - erewrite bind_Done; [reflexivity|].
    rewrite (bind_Done _ _ _ _ _ Hf). cbn [arg lookup list_lookup].
    rewrite (bind_Done _ _ _ v (advance e1)) by reflexivity.
    unfold read_p. rewrite Hd. rewrite (bind_Done _ _ _ p (advance e1)) by reflexivity.
    rewrite (bind_Done _ _ _ _ _ Hat).
    rewrite (bind_Done _ _ _ (Z.of_nat (length bs)) (advance e1))
      by (unfold lift; rewrite byte_at_head; reflexivity).
    destruct bs as [|b bs'].
    + reflexivity.
    + destruct (Z.eqb_spec (Z.of_nat (length (b :: bs'))) 0) as [E|_]; [cbn in E; lia|].
      cbn [negb hd]. unfold lift. rewrite (byte_at_lookup _ 1 b); [reflexivity|lia|reflexivity].
Qed.

(** PEEK hands its argument to the hook and yields what the hook
    answers; when no hook was installed, the call goes through the null
    pointer [peek_function] still is. *)
Lemma peek_calls_the_hook cx sto ex e x e1 :
  token_of e = TOKENIZER_PEEK ->
  TOKENIZER_NUMEXP TOKENIZER_PEEK = true ->
  token_of (advance e) = TOKENIZER_LEFTPAREN ->
  ex (advance (advance e)) = Done (integer x, e1) ->
  token_of e1 = TOKENIZER_RIGHTPAREN ->
  factor cx sto ex e =
    match peek_function cx with
    | Some peek => Done (integer (peek x), advance e1)
    | None => Halt (Fault NullCall)
    end.
Proof.
  intros Ht Hn Hl Hex Hr.
  pose proof (funcexpr_one cx ex TYPE_INTEGER (advance e) (integer x) e1 Hl Hex eq_refl Hr) as Hf.
  rewrite (factor_numexp cx sto ex e _ Ht Hn) by done. cbv beta iota. unfold I_.
  destruct (peek_function cx) as [peek|].
  - erewrite bind_Done; [reflexivity|].
    rewrite (bind_Done _ _ _ _ _ Hf). cbn [arg lookup list_lookup].
    rewrite (bind_Done _ _ _ (integer x) (advance e1)) by reflexivity.
    rewrite (bind_Done _ _ _ x (advance e1)) by reflexivity. reflexivity.
  - erewrite bind_Halt; [reflexivity|].
    rewrite (bind_Done _ _ _ _ _ Hf). cbn [arg lookup list_lookup].
    rewrite (bind_Done _ _ _ (integer x) (advance e1)) by reflexivity.
    rewrite (bind_Done _ _ _ x (advance e1)) by reflexivity. reflexivity.
Qed.

(** X14.  CHR$ asks [string_temp] for a string of length 2 and writes its
    argument, as a byte, into the first character only: the result is a
    string of two characters whose second is whatever the workspace held at
    that place. *)
Theorem chr_makes_a_string_of_two_bytes cx sto ex e x e1 old :
  token_of e = TOKENIZER_CHRSTR ->
  TOKENIZER_NUMEXP TOKENIZER_CHRSTR = false ->
  TOKENIZER_STRINGEXP TOKENIZER_CHRSTR = true ->
  token_of (advance e) = TOKENIZER_LEFTPAREN ->
  ex (advance (advance e)) = Done (integer x, e1) ->
  token_of e1 = TOKENIZER_RIGHTPAREN ->
  arena_ok e1 ->
  nextstr e1 + 3 <= sizeof_stringblob ->
  stringblob e1 !! Z.to_nat (nextstr e1 + 2) = Some old ->
  exists e',
    factor cx sto ex e = Done (string_ (nextstr e1), e') /\
    buffer_of sto (stringblob e') (Pblob (nextstr e1)) = Done [2; x mod 256; old] /\
    nextstr e' = nextstr e1 + 3 /\
    tz e' = tz (advance e1).
Proof.
  intros Ht Hn Hs Hl Hex Hr [Hlen Hnx] Hroom Hold.
  pose proof (funcexpr_one cx ex TYPE_INTEGER (advance e) (integer x) e1 Hl Hex eq_refl Hr) as Hf.
  unfold sizeof_stringblob in *.
  set (o := nextstr e1) in *.
  destruct (blob_store_fits (stringblob e1) o [to_uint8 2]) as [b1 Hb1]; [lia|cbn; lia|].
  pose proof (blob_store_length _ _ _ _ Hb1) as Hl1.
  destruct (blob_store_fits b1 (o + 1) [to_uint8 x]) as [b2 Hb2]; [lia|cbn; lia|].
  exists (Estate (tz (advance e1)) b2 (o + 3)).
  split; [|split; [|done]].
  - unfold factor. rewrite (bind_Done _ _ e (token_of e) e) by reflexivity.
    rewrite Ht. cbv beta iota. rewrite Hn, Hs.
    rewrite (bind_Done _ _ _ _ _ (accept_tok_ok _ _ Ht)).
    unfold I_. rewrite (bind_Done _ _ _ _ _ Hf). cbn [arg lookup list_lookup].
    rewrite (bind_Done _ _ _ (integer x) (advance e1)) by reflexivity.
    rewrite (bind_Done _ _ _ x (advance e1)) by reflexivity.
    erewrite bind_Done; cycle 1.
    { rewrite string_temp_run. cbn [Z.gtb Z.compare Pos.compare Pos.compare_cont].
      change (nextstr (advance e1)) with o. change (stringblob (advance e1)) with (stringblob e1).
      destruct (Z.gtb_spec (o + (2 + 1)) sizeof_stringblob) as [E|_];
        [unfold sizeof_stringblob in E; lia|].
      rewrite Hb1. reflexivity. }
    erewrite bind_Done; cycle 1.
    { apply blob_write_run. cbn [stringblob]. exact Hb2. }
    unfold ret, set_stringblob. cbn [tz stringblob nextstr].
    replace (o + (2 + 1)) with (o + 3) by lia. reflexivity.
  - cbn [stringblob buffer_of].
    pose proof (blob_store_length _ _ _ _ Hb2) as Hl2.
    assert (H0 : slice b2 o 1 = Done [2]).
    { rewrite (slice_store_other _ _ _ _ o 1 Hb2) by lia.
      apply (slice_store_same _ _ [to_uint8 2] _ Hb1). }
    assert (H1 : slice b2 (o + 1) 1 = Done [x mod 256]).
    { apply (slice_store_same _ _ [to_uint8 x] _ Hb2). }
    assert (H2 : slice b2 (o + 1 + 1) 1 = Done [old]).
    { rewrite (slice_store_other _ _ _ _ (o + 1 + 1) 1 Hb2) by (cbn [length]; lia).
      rewrite (slice_store_other _ _ _ _ (o + 1 + 1) 1 Hb1) by (cbn [length]; lia).
      apply slice_Done. repeat split; [lia|lia|lia|].
      replace (Z.to_nat (o + 1 + 1)) with (Z.to_nat (o + 2)) by lia.
      rewrite (drop_S _ _ _ Hold). reflexivity. }
    rewrite H0.
    pose proof (slice_app _ _ _ _ _ _ H1 H2) as H12.
    pose proof (slice_app _ _ _ _ _ _ H0 H12) as H012.
    exact H012.
Qed.

Lemma holds_kept sto e p (bs : list Z) off new blob' e' :
  holds sto e p bs ->
  blob_store (stringblob e) off new = Done blob' ->
  nextstr e <= off ->
  stringblob e' = blob' -> nextstr e <= nextstr e' ->
  holds sto e' p bs.
Proof.
  intros [Hbuf Hlim] Hst Hoff Hb Hnx. split.
  - rewrite Hb. apply (buffer_kept sto (stringblob e) p bs (nextstr e) off new); done.
  - destruct p; try done. lia.
Qed.

(** X15.  A string literal becomes a string of the workspace: it is
    placed at [nextstr], which moves up by its length and one, and the
    strings the workspace held below [nextstr] are as they were.  A
    literal of more than 255 characters stops the program with "String
    too long". *)
Theorem string_literal_is_copied_to_the_workspace cx sto ex e :
  token_of e = TOKENIZER_STRING ->
  arena_ok e ->
  let bs := tokenizer_string (tz e) in
  (255 < Z.of_nat (length bs) ->
     factor cx sto ex e = Halt (Exit (Ubasic (line_num cx) "String too long"))) /\
  (Z.of_nat (length bs) <= 255 ->
   nextstr e + Z.of_nat (length bs) + 1 <= sizeof_stringblob ->
     exists e',
       factor cx sto ex e = Done (string_ (nextstr e), e') /\
       holds sto e' (Pblob (nextstr e)) bs /\
       nextstr e' = nextstr e + Z.of_nat (length bs) + 1 /\
       tz e' = tz (advance e) /\
       (forall p old, holds sto e p old -> holds sto e' p old)).
Proof.
  intros Ht Hok bs.
  assert (Hstart : factor cx sto ex e =
    (let* o := string_temp cx (Z.of_nat (length bs)) in
     let* s := gets (fun e => tokenizer_string (tz e)) in
     blob_write (o + 1) s >>>
     accept_tok TOKENIZER_STRING >>>
     ret (string_ o)) e).
  { unfold factor. rewrite (bind_Done _ _ e (token_of e) e) by reflexivity.
    rewrite Ht. cbv beta iota.
    rewrite (bind_Done _ _ e (Z.of_nat (length bs)) e) by reflexivity. reflexivity. }
  split.
  - intros Hlong. rewrite Hstart. erewrite bind_Halt; [reflexivity|].
    rewrite string_temp_run. destruct (Z.gtb_spec (Z.of_nat (length bs)) 255); first [done|lia].
  - intros Hlen Hroom.
    destruct (new_string cx sto e bs Hok Hlen Hroom) as (b1 & b2 & Htemp & E1 & E2 & Hnew).
    set (e1 := Estate (tz e) b1 (nextstr e + (Z.of_nat (length bs) + 1))) in *.
    set (e2 := set_stringblob b2 e1).
    exists (advance e2).
    assert (Hrun : factor cx sto ex e = Done (string_ (nextstr e), advance e2)).
    { rewrite Hstart. rewrite (bind_Done _ _ _ _ _ Htemp).
      rewrite (bind_Done _ _ e1 bs e1) by reflexivity.
      rewrite (bind_Done _ _ e1 tt e2) by (apply blob_write_run; exact E2).
      rewrite (bind_Done _ _ e2 _ _ (accept_tok_ok TOKENIZER_STRING e2 Ht)).
      reflexivity. }
    split; [exact Hrun|]. split; [|split; [|split]].
    + split; [exact Hnew|]. cbn. lia.
    + cbn. lia.
    + reflexivity.
    + intros p old Hold.
      assert (H1 : holds sto e1 p old).
      { apply (holds_kept sto e p old (nextstr e) [Z.of_nat (length bs)] b1 e1 Hold E1);
          [lia|reflexivity|cbn; lia]. }
      destruct H1 as [Hb1 Hl1]. destruct Hold as [Hb0 Hl0].
      split.
      * cbn [advance e2 set_stringblob stringblob set_tz].
        apply (buffer_kept sto b1 p old (nextstr e) (nextstr e + 1) bs b2);
          [exact Hb1|exact Hl0|exact E2|lia].
      * destruct p; try done; cbn; lia.
Qed.

(** X16.  MID$ and LEFT$ with a start of at least 1 and a count of at
    least 0: the result is a new string of the workspace that holds the
    characters of the argument from the start on, as many as the count
    asks for and the argument has; nothing outside the argument is read. *)
Theorem mid_yields_the_clipped_substring cx sto e t p bs l n :
  16 <= value_bits ->
  arena_ok e -> d t = d_p p -> holds sto e p bs ->
  Z.of_nat (length bs) <= 255 ->
  1 <= l -> 0 <= n ->
  let cut := take (Z.to_nat n) (drop (Z.to_nat (l - 1)) bs) in
  nextstr e + Z.of_nat (length cut) + 1 <= sizeof_stringblob ->
  exists e',
    string_cut cx sto t l n e = Done (string_ (nextstr e), e') /\
    holds sto e' (Pblob (nextstr e)) cut /\
    nextstr e' = nextstr e + Z.of_nat (length cut) + 1.
Proof. apply string_cut_in_range. Qed.

Lemma funcexpr_args_types cx ex f : forall e ts e',
  funcexpr_args cx ex f e = Done (ts, e') -> map type ts = f.
Proof.
  induction f as [|ty f IH]; intros e ts e' H; cbn [funcexpr_args] in H.
  - apply ret_inv in H as [<- _]. reflexivity.
  - unbind H. destruct (decide (ty <> type a)) as [|Hty]; [discriminate|].
    unbind H. unbind H. apply ret_inv in H as [<- _].
    apply IH in Hm1. cbn [map]. rewrite Hm1. f_equal.
    destruct (decide (type a = ty)) as [->|Hne]; [done|].
    exfalso. apply Hty. congruence.
Qed.

(** [funcexpr] fills one entry of [arg] for every letter of the
    signature, and the entry has the type the letter names: what the
    functions of [factor] read from [arg] afterwards was written, with the
    type they expect. *)
Lemma funcexpr_yields_one_value_per_letter cx ex f e ts e' :
  funcexpr cx ex f e = Done (ts, e') ->
  map type ts = f /\
  (forall k, (k < length f)%nat -> exists v, arg ts k e' = Done (v, e') /\ f !! k = Some (type v)).
Proof.
  intros H. unfold funcexpr in H. unbind H. unbind H. unbind H.
  apply ret_inv in H as [<- <-]. apply funcexpr_args_types in Hm0.
  split; [exact Hm0|]. intros k Hk.
  assert (Hlen : length a0 = length f) by (by rewrite <- Hm0, length_map).
  destruct (lookup_lt_is_Some_2 a0 k ltac:(lia)) as [v Hv].
  exists v. unfold arg. rewrite Hv. split; [reflexivity|].
  rewrite <- Hm0, list_lookup_fmap, Hv. reflexivity.
Qed.

(** ** Arithmetic and comparisons *)

Lemma quot_in_range a b H :
  - H <= a < H -> b <> 0 -> ~ (a = - H /\ b = -1) -> - H <= Z.quot a b < H.
Proof.
  intros Ha Hb Hm.
  assert (Habs : Z.abs (Z.quot a b) = Z.abs a / Z.abs b).
  { rewrite <- Z.quot_abs by done. apply Z.quot_div_nonneg; lia. }
  assert (Hle : Z.abs a / Z.abs b <= Z.abs a) by (apply Z.div_le_upper_bound; nia).
  destruct (Z.eq_dec a (- H)) as [->|Hne]; [|lia].
  destruct (Z.eq_dec b 1) as [->|Hb1]; [rewrite Z.quot_1_r; lia|].
  assert (Hlt : Z.abs (- H) / Z.abs b < H) by (apply Z.div_lt_upper_bound; nia).
  lia.
Qed.

Lemma rem_in_range a b H :
  - H <= b < H -> b <> 0 -> - H <= Z.rem a b < H.
Proof.
  intros Ha Hb. pose proof (Z.rem_bound_abs a b Hb) as Hr. lia.
Qed.

(** X18.  [/] and MOD on integers: a zero divisor stops the program with
    "Division by zero"; otherwise the quotient is truncated towards zero
    and MOD is the remainder of that division, so that
    [a = (a / b) * b + a MOD b] with a remainder smaller than the divisor
    and of the sign of the dividend. *)
Theorem division_truncates_and_mod_is_its_remainder cx a b e :
  0 < value_bits ->
  - 2 ^ (value_bits - 1) <= a < 2 ^ (value_bits - 1) ->
  - 2 ^ (value_bits - 1) <= b < 2 ^ (value_bits - 1) ->
  (b = 0 ->
     term_step cx TOKENIZER_SLASH (integer a) (integer b) e
       = Halt (Exit (Ubasic (line_num cx) divzero)) /\
     term_step cx TOKENIZER_MOD (integer a) (integer b) e
       = Halt (Exit (Ubasic (line_num cx) divzero))) /\
  (b <> 0 -> ~ (a = - 2 ^ (value_bits - 1) /\ b = -1) ->
     exists q r,
       term_step cx TOKENIZER_SLASH (integer a) (integer b) e = Done (integer q, e) /\
       term_step cx TOKENIZER_MOD (integer a) (integer b) e = Done (integer r, e) /\
       a = q * b + r /\ Z.abs r < Z.abs b /\ 0 <= r * a /\ Z.abs (q * b) <= Z.abs a).
Proof.
  intros Hbits Ha Hb. split.
  - intros ->. split; reflexivity.
  - intros Hnz Hmin. exists (Z.quot a b), (Z.rem a b).
    pose proof (Z.quot_rem' a b) as Hq.
    pose proof (Z.rem_bound_abs a b Hnz) as Hr.
    pose proof (Z.rem_sign_mul a b Hnz) as Hs.
    unfold term_step, typecheck_int. cbn [type integer d read_i].
    destruct (decide (TYPE_INTEGER <> TYPE_INTEGER)); [done|].
    unfold bind, ret, set_i, int_div, int_rem. cbn [type integer].
    destruct (Z.eqb_spec b 0); [done|].
    rewrite (wrap_in_range (Z.quot a b)) by (done || by apply quot_in_range).
    rewrite (wrap_in_range (Z.rem a b)) by (done || by apply rem_in_range).
    split; [reflexivity|]. split; [reflexivity|].
    split; [lia|]. split; [lia|]. split; [lia|].
    rewrite Z.abs_mul, <- Z.quot_abs by done.
    rewrite Z.quot_div_nonneg by lia.
    rewrite Z.mul_comm. apply Z.mul_div_le. lia.
Qed.

Lemma string_cut_tagged cx sto t l n e v e' :
  string_cut cx sto t l n e = Done (v, e') -> tagged v.
Proof.
  unfold string_cut. intros H. unbind H. unbind H. unbind H.
  destruct (_ >? _).
  - unbind H. apply ret_inv in H as [<- _]. done.
  - unbind H. unbind H. unbind H. unbind H. apply ret_inv in H as [<- _]. done.
Qed.

Lemma string_cut_r_tagged cx sto t r e v e' :
  string_cut_r cx sto t r e = Done (v, e') -> tagged v.
Proof.
  unfold string_cut_r. intros H. unbind H. unbind H. unbind H.
  destruct (_ <=? _).
  - unbind H. apply ret_inv in H as [<- _]. done.
  - by apply string_cut_tagged in H.
Qed.

Lemma get_variable_tagged cx sto varnum e v e' :
  ubasic_get_variable cx sto varnum e = Done (v, e') -> tagged v.
Proof.
  unfold ubasic_get_variable. intros H. destruct (negb _).
  - unbind H. apply ret_inv in H as [<- _]. done.
  - destruct (_ && _); [|discriminate].
    unbind H. apply ret_inv in H as [<- _]. done.
Qed.

Lemma factor_tagged cx sto (ex : M estate typevalue) :
  (forall e v e', ex e = Done (v, e') -> tagged v) ->
  forall e v e', factor cx sto ex e = Done (v, e') -> tagged v.
Proof.
  intros Hex e v e' H. unfold factor in H. unbind H.
  assert (Hnum : forall (m : M estate Z) s1,
            (let* i := m in ret (integer i)) s1 = Done (v, e') -> tagged v).
  { intros m s1 H1. unbind H1. apply ret_inv in H1 as [<- _]. done. }
  destruct a;
    try (destruct (TOKENIZER_NUMEXP _);
         [unbind H; by apply Hnum in H
         |destruct (TOKENIZER_STRINGEXP _); [|discriminate]; unbind H]);
    try discriminate.
  - (* a number *)
    unbind H. unbind H. apply ret_inv in H as [<- _]. done.
  - (* a string literal *)
    unbind H. unbind H. unbind H. unbind H. unbind H.
    apply ret_inv in H as [<- _]. done.
  - (* a variable *)
    unfold varfactor in H. unbind H. unbind H. unbind H.
    apply ret_inv in H as [<- _]. by apply get_variable_tagged in Hm1.
  - unfold varfactor in H. unbind H. unbind H. unbind H.
    apply ret_inv in H as [<- _]. by apply get_variable_tagged in Hm1.
  - (* a bracketed expression *)
    unbind H. unbind H. unbind H. apply ret_inv in H as [<- _]. by apply Hex in Hm1.
  - (* LEFT$ *)
    unbind H. unbind H. unbind H. unbind H. by apply string_cut_tagged in H.
  - (* RIGHT$ *)
    unbind H. unbind H. unbind H. unbind H. by apply string_cut_r_tagged in H.
  - (* MID$ *)
    unbind H. unbind H. unbind H. unbind H. unbind H. unbind H.
    by apply string_cut_tagged in H.
  - (* CHR$ *)
    unbind H. unbind H. unbind H. unbind H. unbind H.
    apply ret_inv in H as [<- _]. done.
Qed.

Lemma typecheck_int_inv {S} cx v (s : S) u s' :
  typecheck_int cx v s = Done (u, s') -> type v = TYPE_INTEGER /\ s' = s.
Proof.
  unfold typecheck_int. destruct (decide (type v <> TYPE_INTEGER)) as [|Hn]; [discriminate|].
  intros [= _ ->]. split; [|done].
  destruct (type v); [done|exfalso; apply Hn; discriminate].
Qed.

Lemma term_step_tagged cx op v f2 e v' e' :
  tagged v -> term_step cx op v f2 e = Done (v', e') -> tagged v'.
Proof.
  intros Hv H. unfold term_step in H. unbind H. unbind H. unbind H. unbind H.
  apply typecheck_int_inv in Hm as [Hty _].
  assert (Hset : forall i, tagged (set_i v i)).
  { intros i. unfold tagged, set_i. cbn. by rewrite Hty. }
  destruct op; try (apply ret_inv in H as [<- _]; done || apply Hset);
    destruct (_ =? _); try discriminate; apply ret_inv in H as [<- _]; apply Hset.
Qed.

Lemma term_loop_tagged cx (fac : M estate typevalue) :
  (forall e v e', fac e = Done (v, e') -> tagged v) ->
  forall fuel v e v' e',
    tagged v -> term_loop cx fuel fac v e = Done (v', e') -> tagged v'.
Proof.
  intros Hfac fuel. induction fuel as [|fuel IH]; intros v e v' e' Hv H;
    cbn [term_loop] in H; unbind H; destruct (is_term_op _);
    try discriminate; try (apply ret_inv in H as [<- _]; done).
  unbind H. unbind H. unbind H.
  apply term_step_tagged in Hm2; [|done]. by apply IH in H.
Qed.

Lemma expr_step_tagged cx sto op v t2 e v' e' :
  tagged v -> expr_step cx sto op v t2 e = Done (v', e') -> tagged v'.
Proof.
  intros Hv H. unfold expr_step in H. unbind H. unbind H.
  assert (Hset : type v = TYPE_INTEGER -> forall i, tagged (set_i v i)).
  { intros Hty i. unfold tagged, set_i. cbn. by rewrite Hty. }
  destruct (decide (op <> TOKENIZER_PLUS)) as [Hop|Hop].
  - apply typecheck_int_inv in Hm as [Hty _].
    destruct op; try (apply ret_inv in H as [<- _]; done); try done;
      unbind H; unbind H; apply ret_inv in H as [<- _]; by apply Hset.
  - assert (op = TOKENIZER_PLUS) as -> by (by destruct (decide (op = TOKENIZER_PLUS)); [|done]).
    destruct (decide (type v = TYPE_INTEGER)) as [Hty|Hty].
    + unbind H. unbind H. apply ret_inv in H as [<- _]. by apply Hset.
    + do 14 unbind H. apply ret_inv in H as [<- _].
      unfold tagged, set_p. cbn. by destruct (type v).
Qed.

Lemma expr_loop_tagged cx sto (tm : M estate typevalue) :
  (forall e v e', tm e = Done (v, e') -> tagged v) ->
  forall fuel v e v' e',
    tagged v -> expr_loop cx sto fuel tm v e = Done (v', e') -> tagged v'.
Proof.
  intros Htm fuel. induction fuel as [|fuel IH]; intros v e v' e' Hv H;
    cbn [expr_loop] in H; unbind H; destruct (is_expr_op _);
    try discriminate; try (apply ret_inv in H as [<- _]; done).
  unbind H. unbind H. unbind H.
  apply expr_step_tagged in Hm2; [|done]. by apply IH in H.
Qed.

Lemma expr_tagged cx sto fuel : forall e v e',
  expr cx sto fuel e = Done (v, e') -> tagged v.
Proof.
  induction fuel as [|fuel IH]; intros e v e' H; [discriminate|].
  cbn [expr] in H. unfold expr_ in H. unbind H.
  assert (Hfac : forall e v e', factor cx sto (expr cx sto fuel) e = Done (v, e') -> tagged v)
    by (apply factor_tagged; exact IH).
  assert (Htm : forall e v e',
            term_ cx fuel (factor cx sto (expr cx sto fuel)) e = Done (v, e') -> tagged v).
  { intros e1 v1 e1' H1. unfold term_ in H1. unbind H1.
    apply Hfac in Hm0. by apply (term_loop_tagged cx _ Hfac) in H1. }
  apply Htm in Hm. by apply (expr_loop_tagged cx sto _ Htm) in H.
Qed.

(** X19.  Whatever [expr] yields is tagged with the member of the union it
    holds: an integer value holds [d.i], a string value holds [d.p].  So
    [intexpr] and [stringexpr] read the member that was written: on an
    integer [intexpr] answers it and [stringexpr] stops with "Type
    mismatch", and the other way round on a string. *)
Theorem expr_yields_a_value_of_its_tag cx sto fuel e v e' :
  expr cx sto fuel e = Done (v, e') ->
  tagged v /\
  (type v = TYPE_INTEGER ->
     exists i, d v = d_i i /\
       intexpr cx sto fuel e = Done (i, e') /\
       stringexpr cx sto fuel e = Halt (Exit (Ubasic (line_num cx) badtype))) /\
  (type v = TYPE_STRING ->
     exists p, d v = d_p p /\
       stringexpr cx sto fuel e = Done (p, e') /\
       intexpr cx sto fuel e = Halt (Exit (Ubasic (line_num cx) badtype))).
Proof.
  intros H. pose proof (expr_tagged _ _ _ _ _ _ H) as Ht.
  split; [exact Ht|]. unfold tagged in Ht.
  split; intros Hty; rewrite Hty in Ht; destruct (d v) as [i|p] eqn:Hd; try done.
  - exists i. split; [done|]. unfold intexpr, stringexpr.
    rewrite !(bind_Done _ _ _ _ _ H). unfold typecheck_int, typecheck_string, read_i.
    rewrite Hty, Hd. split; reflexivity.
  - exists p. split; [done|]. unfold intexpr, stringexpr.
    rewrite !(bind_Done _ _ _ _ _ H). unfold typecheck_int, typecheck_string, read_p.
    rewrite Hty, Hd. split; reflexivity.
Qed.

(** X20.  A comparison yields 0 or 1 and nothing else, for integers and
    for strings, whatever [memcmp] answers; the result keeps the type tag
    of its left operand until [relation] sets it. *)
Theorem comparison_yields_0_or_1 cx sto op r1 r2 e v e' :
  is_relation_op op = true ->
  relation_step cx sto op r1 r2 e = Done (v, e') ->
  (d v = d_i 0 \/ d v = d_i 1) /\ type v = type r1.
Proof.
  intros Hop H.
  destruct (decide (type r1 = TYPE_INTEGER)) as [Hty|Hty].
  - unfold relation_step in H. unbind H.
    destruct (decide (type r1 = TYPE_INTEGER)); [|done].
    unbind H. unbind H.
    destruct op; try discriminate; apply ret_inv in H as [<- _];
      (split; [|reflexivity]); cbn [set_i d];
      match goal with |- context [of_bool ?b] => destruct b end; auto.
  - assert (Hs : type r1 = TYPE_STRING) by (by destruct (type r1)).
    split; [exact (relation_on_strings_is_0_or_1 _ _ _ _ _ _ _ _ Hop Hs H)|].
    unfold relation_step in H. unbind H.
    destruct (decide (type r1 = TYPE_INTEGER)); [done|].
    unbind H. apply ret_inv in H as [<- _]. reflexivity.
Qed.

(** ** The statements, one by one *)

(** X21.  A line [n STOP] ends the program: [ubasic_run] records the line,
    sets [ended], and [ubasic_finished] answers true although the program
    text goes on; the variables, the stacks and the console are untouched. *)
Theorem stop_ends_the_program fuel m :
  tokenizer_token (tz (es (run m))) = TOKENIZER_NUMBER ->
  token_of (advance (es (run m))) = TOKENIZER_STOP ->
  token_of (advance (advance (es (run m)))) = TOKENIZER_CR ->
  (1 <= fuel)%nat ->
  exists m',
    ubasic_run fuel m = Done m' /\
    ubasic_finished m' = true /\
    line_num (cxt m') = tokenizer_num (tz (es (run m))) /\
    tz (es (run m')) = tz (advance (advance (advance (es (run m))))) /\
    sto (run m') = sto (run m) /\ ctl (run m') = ctl (run m) /\
    con (run m') = con (run m).
Proof.
  intros Hn Hs Hc Hfuel. destruct fuel as [|fuel]; [lia|].
  assert (Hfin : tokenizer_finished (tz (es (run m))) = false).
  { unfold tokenizer_finished. rewrite Hn. by apply bool_decide_eq_false_2. }
  eexists. split.
  - unfold ubasic_run. rewrite Hfin.
    unfold line_statement.
    rewrite (bind_Done _ _ _ _ _ (tk_accept _ _ Hn)).
    cbn [statement].
    rewrite (bind_Done _ _ _ tt (entered m)) by reflexivity.
    rewrite (bind_Done _ _ _ _ _ (token_here_run _)).
    change (token_of (es (entered m))) with (token_of (advance (es (run m)))).
    rewrite Hs. unfold stop_statement.
    rewrite (bind_Done _ _ _ _ _ (tk_accept TOKENIZER_STOP (entered m) Hs)).
    rewrite (bind_Done _ _ _ _ _
               (tk_accept TOKENIZER_CR (set_es (advance (es (entered m))) (entered m)) Hc)).
    reflexivity.
  - repeat split; reflexivity.
Qed.

(** X23.  RETURN with a pending GOSUB takes the newest frame off the stack
    and jumps to the line number it holds; the frames below it stay. *)
Theorem return_resumes_at_the_saved_line cx fuel s p n :
  token_of (es s) = TOKENIZER_RETURN ->
  gosub_stack_ptr (ctl s) = S p ->
  gosub_stack (ctl s) !! p = Some n ->
  let c' := Control (gosub_stack (ctl s)) p (for_stack (ctl s)) (for_stack_ptr (ctl s)) in
  return_statement cx fuel s =
    landed (jump_linenum fuel (line_index cx) n (tz (advance (es s))))
           (fun t => set_es (set_tz t (advance (es s))) (set_ctl c' s)) /\
  gosub_frames (ctl s) = gosub_frames c' ++ [n] /\
  for_frames c' = for_frames (ctl s).
Proof.
  intros Ht Hp Hn c'. split; [|split; [|reflexivity]].
  - unfold return_statement.
    rewrite (bind_Done _ _ _ _ _ (tk_accept _ _ Ht)).
    rewrite (bind_Done _ _ _ (ctl s) (set_es (advance (es s)) s)) by reflexivity.
    rewrite Hp.
    erewrite bind_Done by reflexivity. rewrite Hn.
    rewrite jump_run. reflexivity.
  - unfold gosub_frames, c'. cbn [gosub_stack_ptr gosub_stack]. rewrite Hp.
    by apply take_S_r.
Qed.

(** X24.  LET (with or without the keyword, which [statement] consumes)
    assigns to an integer variable the value of the expression and wants
    the end of the line behind it; a string value stops the program with
    "Type mismatch". *)
Theorem let_assigns_an_integer_variable cx fuel s v e3 :
  token_of (es s) = TOKENIZER_INTVAR ->
  let var := tokenizer_variable_num (tz (es s)) in
  Z.land var STRINGFLAG = 0 ->
  0 <= var < MAX_VARNUM ->
  length (variables (sto s)) = Z.to_nat MAX_VARNUM ->
  token_of (advance (es s)) = TOKENIZER_EQ ->
  expr cx (sto s) fuel (advance (advance (es s))) = Done (v, e3) ->
  token_of e3 = TOKENIZER_CR ->
  (forall i, v = integer i ->
     let_statement cx fuel s = Done (tt, set_es (advance e3) (set_var_result s var i))) /\
  (type v = TYPE_STRING ->
     let_statement cx fuel s = Halt (Exit (Ubasic (line_num cx) badtype))).
Proof.
  intros Ht var Hf Hv Hlen Heq Hex Hcr. unfold MAX_VARNUM in *.
  assert (Hstart :
    let_statement cx fuel s =
      (ubasic_set_variable cx var v >>> tk (accept_tok TOKENIZER_CR) >>> ret tt) (set_es e3 s)).
  { pose proof (accept_either_ok TOKENIZER_INTVAR TOKENIZER_STRINGVAR (es s) (or_introl Ht))
      as Hae.
    rewrite Ht in Hae. unfold let_statement.
    rewrite (bind_Done _ _ s var s) by reflexivity.
    rewrite (bind_Done _ _ s _ _ (tk_Done _ _ _ _ Hae)).
    accept Heq. evaluate_with Hex. reflexivity. }
  split.
  - intros i ->. rewrite Hstart.
    erewrite bind_Done; cycle 1.
    { rewrite set_integer_variable by done.
      replace ((0 <=? var) && (var <=? MAX_VARNUM)) with true
        by (unfold MAX_VARNUM; symmetry; apply andb_true_iff; split; lia).
      cbn [sto set_es]. rewrite array_set_in by lia. reflexivity. }
    rewrite (bind_Done _ _ _ _ _
               (tk_accept TOKENIZER_CR (set_var_result (set_es e3 s) var i) Hcr)).
    reflexivity.
  - intros Hty. rewrite Hstart.
    erewrite bind_Halt; [reflexivity|].
    unfold ubasic_set_variable. rewrite Hf. cbn [Z.eqb negb].
    unfold typecheck_int. rewrite Hty.
    destruct (decide (TYPE_STRING <> TYPE_INTEGER)) as [|Hn];
      [reflexivity|exfalso; apply Hn; discriminate].
Qed.

(** X25.  FOR below the limit of its stack: the variable receives the
    start value, the limit is evaluated after that assignment, the step is
    the value of the expression behind STEP, evaluated after the limit, or
    1 when the line has no STEP, and the frame that is pushed holds the
    variable, the limit, the step and the number of the line that follows
    the FOR line. *)
Theorem for_pushes_a_frame cx fuel s i e3 b e5 st e6 :
  token_of (es s) = TOKENIZER_FOR ->
  let e1 := advance (es s) in
  token_of e1 = TOKENIZER_INTVAR ->
  let var := tokenizer_variable_num (tz e1) in
  Z.land var STRINGFLAG = 0 ->
  0 <= var < MAX_VARNUM ->
  length (variables (sto s)) = Z.to_nat MAX_VARNUM ->
  token_of (advance e1) = TOKENIZER_EQ ->
  expr cx (sto s) fuel (advance (advance e1)) = Done (integer i, e3) ->
  token_of e3 = TOKENIZER_TO ->
  let s1 := set_var_result s var i in
  intexpr cx (sto s1) fuel (advance e3) = Done (b, e5) ->
  (token_of e5 = TOKENIZER_STEP /\
     intexpr cx (sto s1) fuel (advance e5) = Done (st, e6)) \/
  (token_of e5 <> TOKENIZER_STEP /\ st = 1 /\ e6 = e5) ->
  token_of e6 = TOKENIZER_CR ->
  (for_stack_ptr (ctl s) < MAX_FOR_STACK_DEPTH)%nat ->
  length (for_stack (ctl s)) = MAX_FOR_STACK_DEPTH ->
  let fs := For_state (tokenizer_num (tz (advance e6))) var b st in
  for_statement cx fuel s =
    Done (tt, set_ctl (push_for fs (ctl s)) (set_es (advance e6) s1)) /\
  for_frames (push_for fs (ctl s)) = for_frames (ctl s) ++ [fs].
Proof.
  intros Ht e1 Hv var Hf Hvar Hlen Heq Hex Hto s1 Hlim Hstep Hcr Hptr Hstack fs.
  unfold MAX_VARNUM, MAX_FOR_STACK_DEPTH in *. split.
  - unfold for_statement. accept Ht. fold e1.
    rewrite (bind_Done _ _ _ var (set_es e1 s)) by reflexivity.
    rewrite (bind_Done _ _ _ _ _ (tk_accept TOKENIZER_INTVAR (set_es e1 s) Hv)).
    rewrite (bind_Done _ _ _ _ _ (tk_accept TOKENIZER_EQ (set_es (advance e1) s) Heq)).
    evaluate_with Hex.
    rewrite (bind_Done _ _ _ tt (set_es e3 s)) by reflexivity.
    rewrite (bind_Done _ _ _ tt (set_es e3 s1)).
    2:{ rewrite set_integer_variable by done.
        replace ((0 <=? var) && (var <=? MAX_VARNUM)) with true
          by (unfold MAX_VARNUM; symmetry; apply andb_true_iff; split; lia).
        cbn [sto set_es]. rewrite array_set_in by lia. reflexivity. }
    rewrite (bind_Done _ _ _ _ _ (tk_accept TOKENIZER_TO (set_es e3 s1) Hto)).
    rewrite (bind_Done _ _ _ b (set_es e5 s1))
      by (apply (ev_Done _ (set_es (advance e3) s1)); exact Hlim).
    rewrite (bind_Done _ _ _ _ _ (token_here_run _)).
    cbn [es set_es].
    rewrite (bind_Done _ _ _ st (set_es e6 s1)).
    2:{ destruct Hstep as [[Hs Hst]|(Hs & -> & ->)].
        - rewrite Hs. destruct (decide (TOKENIZER_STEP = TOKENIZER_STEP)); [|done].
          rewrite (bind_Done _ _ _ _ _ (tk_accept TOKENIZER_STEP (set_es e5 s1) Hs)).
          apply (ev_Done _ (set_es (advance e5) s1)). exact Hst.
        - destruct (decide (token_of e5 = TOKENIZER_STEP)); [done|]. reflexivity. }
    rewrite (bind_Done _ _ _ _ _ (tk_accept TOKENIZER_CR (set_es e6 s1) Hcr)).
    rewrite (bind_Done _ _ _ (ctl s) (set_es (advance e6) s1)) by reflexivity.
    destruct (Nat.ltb_spec (for_stack_ptr (ctl s)) MAX_FOR_STACK_DEPTH) as [_|Hge];
      [|unfold MAX_FOR_STACK_DEPTH in Hge; lia].
    reflexivity.
  - unfold for_frames, push_for. cbn [for_stack_ptr for_stack].
    apply take_push. lia.
Qed.

Lemma token_of_at e x :
  program (tz e) !! ptr (tz e) = Some x -> token_of e = lx_token x.
Proof. apply token_at. Qed.

Lemma advance_at e x :
  program (tz e) !! ptr (tz e) = Some x -> lx_token x <> TOKENIZER_ENDOFINPUT ->
  advance e = cursor_at (S (ptr (tz e))) e.
Proof. intros Hx Hne. unfold advance, cursor_at. by rewrite (next_at _ _ Hx Hne). Qed.

Lemma skip_to_else_eq budget e :
  skip_to_else budget e =
    (next_token >>>
     let* t := token_now in
     if negb (bool_decide (t = TOKENIZER_ELSE)) && negb (bool_decide (t = TOKENIZER_CR))
        && negb (bool_decide (t = TOKENIZER_ENDOFINPUT)) then
       match budget with
       | O => stop OutOfFuel
       | S budget' => skip_to_else budget'
       end
     else ret tt) e.
Proof. destruct budget; reflexivity. Qed.

(** The loop that looks for ELSE stops on the first token behind the
    cursor that is ELSE or an end of line. *)
Lemma skip_to_else_run body : forall pre x y rest e budget,
  program (tz e) = pre ++ x :: body ++ y :: rest ->
  ptr (tz e) = length pre ->
  lx_token x <> TOKENIZER_ENDOFINPUT ->
  Forall skipped body ->
  lx_token y = TOKENIZER_ELSE \/ lx_token y = TOKENIZER_CR ->
  (length body <= budget)%nat ->
  skip_to_else budget e = Done (tt, cursor_at (length pre + 1 + length body) e).
Proof.
  induction body as [|b body IH]; intros pre x y rest e budget Hprog Hptr Hx Hbody Hy Hfuel.
  - rewrite skip_to_else_eq.
    assert (Hat : program (tz e) !! ptr (tz e) = Some x)
      by (rewrite Hprog, Hptr; apply list_lookup_middle; done).
    rewrite (bind_Done _ _ e tt (advance e)) by reflexivity.
    rewrite (advance_at e x Hat Hx).
    rewrite (bind_Done _ _ _ (lx_token y) (cursor_at (S (ptr (tz e))) e)).
    + rewrite Hptr. cbn [length]. replace (length pre + 1 + 0)%nat with (S (length pre)) by lia.
      destruct Hy as [-> | ->]; reflexivity.
    + unfold token_now, gets. do 2 f_equal. apply token_at.
      cbn [cursor_at set_tz tz set_ptr program ptr]. rewrite Hprog, Hptr.
      cbn [app]. rewrite (list_lookup_middle (pre ++ [x]) rest y (S (length pre)))
        || (replace (pre ++ x :: y :: rest) with ((pre ++ [x]) ++ y :: rest)
              by (by rewrite <- app_assoc);
            apply list_lookup_middle; rewrite length_app; cbn; lia).
  - destruct budget as [|budget]; [cbn in Hfuel; lia|].
    apply Forall_cons_1 in Hbody as [Hb Hbody].
    rewrite skip_to_else_eq.
    assert (Hat : program (tz e) !! ptr (tz e) = Some x)
      by (rewrite Hprog, Hptr; apply list_lookup_middle; done).
    rewrite (bind_Done _ _ e tt (advance e)) by reflexivity.
    rewrite (advance_at e x Hat Hx).
    set (e1 := cursor_at (S (ptr (tz e))) e).
    assert (Hprog1 : program (tz e1) = (pre ++ [x]) ++ b :: body ++ y :: rest).
    { cbn. rewrite Hprog, <- app_assoc. reflexivity. }
    assert (Hptr1 : ptr (tz e1) = length (pre ++ [x])).
    { cbn. rewrite Hptr, length_app. cbn. lia. }
    rewrite (bind_Done _ _ _ (lx_token b) e1).
    + destruct Hb as (Hb1 & Hb2 & Hb3).
      destruct (bool_decide_reflect (lx_token b = TOKENIZER_ELSE)); [done|].
      destruct (bool_decide_reflect (lx_token b = TOKENIZER_CR)); [done|].
      destruct (bool_decide_reflect (lx_token b = TOKENIZER_ENDOFINPUT)); [done|].
      cbn [negb andb].
      rewrite (IH (pre ++ [x]) b y rest e1 budget Hprog1 Hptr1 Hb3 Hbody Hy)
        by (cbn in Hfuel; lia).
      unfold cursor_at, e1, cursor_at. cbn [tz set_tz set_ptr program pushed stringblob nextstr].
      rewrite length_app. cbn [length].
      replace (length pre + 1 + 1 + length body)%nat with (length pre + 1 + S (length body))%nat
        by lia.
      reflexivity.
    + unfold token_now, gets. do 2 f_equal. apply token_at.
      rewrite Hprog1, Hptr1. apply list_lookup_middle. done.
Qed.

Lemma cursor_at_next e p y :
  program (tz e) !! p = Some y -> lx_token y <> TOKENIZER_ENDOFINPUT ->
  advance (cursor_at p e) = cursor_at (S p) e.
Proof.
  intros Hy Hne. rewrite (advance_at _ y); [reflexivity|exact Hy|exact Hne].
Qed.

(** X26.  IF runs the statement behind THEN when the condition is not 0.
    When it is 0, the tokens behind THEN are passed over up to ELSE or the
    end of the line, the first of them unseen: the statement behind ELSE
    is run, or, on a line without ELSE, the next line is where the program
    goes on with nothing else changed. *)
Theorem if_picks_its_branch cx st fuel s r e1 c :
  token_of (es s) = TOKENIZER_IF ->
  relation cx (sto s) fuel (advance (es s)) = Done (r, e1) ->
  d r = d_i c ->
  token_of e1 = TOKENIZER_THEN ->
  let e2 := advance e1 in
  (c <> 0 -> if_statement cx st fuel s = st (set_es e2 s)) /\
  (c = 0 -> forall pre x body y rest,
     program (tz e2) = pre ++ x :: body ++ y :: rest ->
     ptr (tz e2) = length pre ->
     lx_token x <> TOKENIZER_ENDOFINPUT ->
     Forall skipped body ->
     (length body <= fuel)%nat ->
     let past := (length pre + 1 + length body + 1)%nat in
     (lx_token y = TOKENIZER_ELSE ->
        if_statement cx st fuel s = st (set_es (cursor_at past e2) s)) /\
     (lx_token y = TOKENIZER_CR ->
        if_statement cx st fuel s = Done (tt, set_es (cursor_at past e2) s))).
Proof.
  intros Hif Hrel Hd Hthen e2.
  assert (Hstart : if_statement cx st fuel s =
    (if negb (c =? 0) then st
     else
       tk (skip_to_else fuel) >>>
       let* t := token_here in
       if decide (t = TOKENIZER_ELSE) then tk next_token >>> st
       else if decide (t = TOKENIZER_CR) then tk next_token
       else ret tt) (set_es e2 s)).
  { unfold if_statement. accept Hif. evaluate_with Hrel.
    rewrite (bind_Done _ _ _ _ _ (tk_accept TOKENIZER_THEN (set_es e1 s) Hthen)).
    unfold read_i. rewrite Hd.
    rewrite (bind_Done _ _ _ c (set_es e2 s)) by reflexivity. reflexivity. }
  split.
  - intros Hc. rewrite Hstart. apply Z.eqb_neq in Hc. rewrite Hc. reflexivity.
  - intros -> pre x body y rest Hprog Hptr Hx Hbody Hfuel past.
    assert (Hy : program (tz e2) !! (length pre + 1 + length body)%nat = Some y).
    { rewrite Hprog.
      replace (pre ++ x :: body ++ y :: rest) with ((pre ++ x :: body) ++ y :: rest)
        by (rewrite <- app_assoc; reflexivity).
      apply list_lookup_middle. rewrite length_app. cbn [length]. lia. }
    assert (Hskip : forall (Hy' : lx_token y = TOKENIZER_ELSE \/ lx_token y = TOKENIZER_CR),
      tk (skip_to_else fuel) (set_es e2 s)
        = Done (tt, set_es (cursor_at (length pre + 1 + length body) e2) s)).
    { intros Hy'. apply (tk_Done _ (set_es e2 s)).
      apply (skip_to_else_run body pre x y rest); done. }
    assert (Htok : token_of (cursor_at (length pre + 1 + length body) e2) = lx_token y)
      by (apply token_at; exact Hy).
    split; intros Hty; rewrite Hstart; cbn [Z.eqb negb].
    + rewrite (bind_Done _ _ _ _ _ (Hskip (or_introl Hty))).
      rewrite (bind_Done _ _ _ _ _ (token_here_run _)).
      cbn [es set_es]. rewrite Htok, Hty.
      destruct (decide (TOKENIZER_ELSE = TOKENIZER_ELSE)); [|done].
      rewrite (bind_Done _ _ _ tt
                 (set_es (advance (cursor_at (length pre + 1 + length body) e2)) s))
        by reflexivity.
      rewrite (cursor_at_next e2 _ y Hy) by (rewrite Hty; discriminate).
      unfold past. replace (length pre + 1 + length body + 1)%nat
        with (S (length pre + 1 + length body)) by lia.
      reflexivity.
    + rewrite (bind_Done _ _ _ _ _ (Hskip (or_intror Hty))).
      rewrite (bind_Done _ _ _ _ _ (token_here_run _)).
      cbn [es set_es]. rewrite Htok, Hty.
      destruct (decide (TOKENIZER_CR = TOKENIZER_ELSE)); [done|].
      destruct (decide (TOKENIZER_CR = TOKENIZER_CR)); [|done].
      change (tk next_token ?s0) with (Done (tt, set_es (advance (es s0)) s0)).
      cbn [es set_es].
      rewrite (cursor_at_next e2 _ y Hy) by (rewrite Hty; discriminate).
      unfold past. replace (length pre + 1 + length body + 1)%nat
        with (S (length pre + 1 + length body)) by lia.
      reflexivity.
Qed.

Lemma data_loop_eq cx budget s :
  data_loop cx budget s =
    (let* t := token_here in
     (if bool_decide (t = TOKENIZER_STRING) || bool_decide (t = TOKENIZER_NUMBER)
      then tk next_token
      else ubasic_error cx syntax) >>>
     let* t := tk (accept_either TOKENIZER_CR TOKENIZER_COMMA) in
     if decide (t <> TOKENIZER_CR) then
       match budget with
       | O => stop OutOfFuel
       | S budget' => data_loop cx budget'
       end
     else ret tt) s.
Proof. destruct budget; reflexivity. Qed.

Lemma literal_test x :
  literal x ->
  bool_decide (lx_token x = TOKENIZER_STRING) || bool_decide (lx_token x = TOKENIZER_NUMBER)
    = true.
Proof.
  intros [H|H]; rewrite H; reflexivity.
Qed.

Lemma literal_inner x : literal x -> lx_token x <> TOKENIZER_ENDOFINPUT.
Proof. intros [H|H]; rewrite H; discriminate. Qed.

Lemma data_loop_run cx xs : forall x pre rest s budget,
  program (tz (es s)) = pre ++ data_items x xs ++ rest ->
  ptr (tz (es s)) = length pre ->
  literal x -> Forall literal xs ->
  (length xs <= budget)%nat ->
  data_loop cx budget s =
    Done (tt, set_es (cursor_at (length pre + length (data_items x xs)) (es s)) s).
Proof.
  induction xs as [|y ys IH]; intros x pre rest s budget Hprog Hptr Hx Hxs Hfuel.
  - cbn [data_items app length] in *.
    assert (H0 : program (tz (es s)) !! ptr (tz (es s)) = Some x)
      by (rewrite Hprog, Hptr; apply list_lookup_middle; done).
    assert (H1 : program (tz (es s)) !! S (ptr (tz (es s))) = Some CR).
    { rewrite Hprog, Hptr.
      replace (pre ++ x :: CR :: rest) with ((pre ++ [x]) ++ CR :: rest)
        by (by rewrite <- app_assoc).
      apply list_lookup_middle. rewrite length_app. cbn. lia. }
    rewrite data_loop_eq.
    rewrite (bind_Done _ _ _ _ _ (token_here_run _)).
    rewrite (token_of_at _ _ H0), (literal_test _ Hx).
    rewrite (bind_Done _ _ _ tt (set_es (advance (es s)) s)) by reflexivity.
    rewrite (advance_at _ _ H0 (literal_inner _ Hx)).
    set (e1 := cursor_at (S (ptr (tz (es s)))) (es s)).
    assert (Ht1 : token_of e1 = TOKENIZER_CR) by (apply (token_at _ CR); exact H1).
    rewrite (bind_Done _ _ _ TOKENIZER_CR (set_es (advance e1) s)).
    + destruct (decide (TOKENIZER_CR <> TOKENIZER_CR)) as [Hn|_]; [done|].
      unfold ret, e1. rewrite (cursor_at_next _ _ CR H1) by discriminate.
      rewrite Hptr. replace (length pre + 2)%nat with (S (S (length pre))) by lia.
      reflexivity.
    + apply (tk_Done _ (set_es e1 s)).
      pose proof (accept_either_ok TOKENIZER_CR TOKENIZER_COMMA e1 (or_introl Ht1)) as Hae.
      rewrite Ht1 in Hae. exact Hae.
  - destruct budget as [|budget]; [cbn in Hfuel; lia|].
    apply Forall_cons_1 in Hxs as [Hy Hys].
    cbn [data_items app length] in *.
    assert (H0 : program (tz (es s)) !! ptr (tz (es s)) = Some x)
      by (rewrite Hprog, Hptr; apply list_lookup_middle; done).
    assert (H1 : program (tz (es s)) !! S (ptr (tz (es s))) = Some (K TOKENIZER_COMMA)).
    { rewrite Hprog, Hptr.
      replace (pre ++ x :: K TOKENIZER_COMMA :: data_items y ys ++ rest)
        with ((pre ++ [x]) ++ K TOKENIZER_COMMA :: data_items y ys ++ rest)
        by (by rewrite <- app_assoc).
      apply list_lookup_middle. rewrite length_app. cbn. lia. }
    rewrite data_loop_eq.
    rewrite (bind_Done _ _ _ _ _ (token_here_run _)).
    rewrite (token_of_at _ _ H0), (literal_test _ Hx).
    rewrite (bind_Done _ _ _ tt (set_es (advance (es s)) s)) by reflexivity.
    rewrite (advance_at _ _ H0 (literal_inner _ Hx)).
    set (e1 := cursor_at (S (ptr (tz (es s)))) (es s)).
    assert (Ht1 : token_of e1 = TOKENIZER_COMMA)
      by (apply (token_at _ (K TOKENIZER_COMMA)); exact H1).
    rewrite (bind_Done _ _ _ TOKENIZER_COMMA (set_es (advance e1) s)).
    + destruct (decide (TOKENIZER_COMMA <> TOKENIZER_CR)) as [_|Hn];
        [|exfalso; apply Hn; discriminate].
      unfold e1. rewrite (cursor_at_next _ _ _ H1) by discriminate.
      rewrite (IH y (pre ++ [x; K TOKENIZER_COMMA]) rest _ budget).
      * unfold cursor_at. cbn [es set_es tz set_tz set_ptr program pushed].
        rewrite length_app. cbn [length].
        replace (length pre + 2 + length (data_items y ys))%nat
          with (length pre + S (S (length (data_items y ys))))%nat by lia.
        reflexivity.
      * cbn [es set_es cursor_at tz set_tz set_ptr program]. rewrite Hprog.
        rewrite <- app_assoc. reflexivity.
      * cbn [es set_es cursor_at tz set_tz set_ptr ptr]. rewrite Hptr, length_app. cbn. lia.
      * exact Hy.
      * exact Hys.
      * cbn in Hfuel. lia.
    + apply (tk_Done _ (set_es e1 s)).
      pose proof (accept_either_ok TOKENIZER_CR TOKENIZER_COMMA e1 (or_intror Ht1)) as Hae.
      rewrite Ht1 in Hae. exact Hae.
Qed.

(** The loop of DATA on literals with a comma behind each, and then a
    token that is no literal or the end of the text. *)
Lemma data_loop_stops cx xs : forall pre rest s budget,
  program (tz (es s)) = pre ++ data_front xs ++ rest ->
  ptr (tz (es s)) = length pre ->
  Forall literal xs ->
  match rest with x :: _ => ~ literal x | [] => True end ->
  (length xs <= budget)%nat ->
  data_loop cx budget s = Halt (Exit (Ubasic (line_num cx) syntax)).
Proof.
  induction xs as [|y ys IH]; intros pre rest s budget Hprog Hptr Hxs Hbad Hfuel.
  - cbn [data_front app] in Hprog.
    rewrite data_loop_eq.
    rewrite (bind_Done _ _ _ _ _ (token_here_run _)).
    assert (Hs : token_of (es s) <> TOKENIZER_STRING /\ token_of (es s) <> TOKENIZER_NUMBER).
    { unfold token_of, tokenizer_token, at_cursor. rewrite Hprog, Hptr.
      destruct rest as [|x rest].
      - rewrite app_nil_r, lookup_ge_None_2 by lia. split; discriminate.
      - rewrite list_lookup_middle by reflexivity.
        split; intros E; apply Hbad; [by left|by right]. }
    destruct Hs as [Hs Hn].
    destruct (bool_decide_reflect (token_of (es s) = TOKENIZER_STRING)); [done|].
    destruct (bool_decide_reflect (token_of (es s) = TOKENIZER_NUMBER)); [done|].
    reflexivity.
  - destruct budget as [|budget]; [cbn in Hfuel; lia|].
    apply Forall_cons_1 in Hxs as [Hy Hys].
    cbn [data_front app length] in *.
    assert (H0 : program (tz (es s)) !! ptr (tz (es s)) = Some y)
      by (rewrite Hprog, Hptr; apply list_lookup_middle; done).
    assert (H1 : program (tz (es s)) !! S (ptr (tz (es s))) = Some (K TOKENIZER_COMMA)).
    { rewrite Hprog, Hptr.
      replace (pre ++ y :: K TOKENIZER_COMMA :: data_front ys ++ rest)
        with ((pre ++ [y]) ++ K TOKENIZER_COMMA :: data_front ys ++ rest)
        by (by rewrite <- app_assoc).
      apply list_lookup_middle. rewrite length_app. cbn. lia. }
    rewrite data_loop_eq.
    rewrite (bind_Done _ _ _ _ _ (token_here_run _)).
    rewrite (token_of_at _ _ H0), (literal_test _ Hy).
    rewrite (bind_Done _ _ _ tt (set_es (advance (es s)) s)) by reflexivity.
    rewrite (advance_at _ _ H0 (literal_inner _ Hy)).
    set (e1 := cursor_at (S (ptr (tz (es s)))) (es s)).
    assert (Ht1 : token_of e1 = TOKENIZER_COMMA)
      by (apply (token_at _ (K TOKENIZER_COMMA)); exact H1).
    rewrite (bind_Done _ _ _ TOKENIZER_COMMA (set_es (advance e1) s)).
    + destruct (decide (TOKENIZER_COMMA <> TOKENIZER_CR)) as [_|Hn];
        [|exfalso; apply Hn; discriminate].
      unfold e1. rewrite (cursor_at_next _ _ _ H1) by discriminate.
      apply (IH (pre ++ [y; K TOKENIZER_COMMA]) rest).
      * cbn [es set_es cursor_at tz set_tz set_ptr program]. rewrite Hprog.
        rewrite <- app_assoc. reflexivity.
      * cbn [es set_es cursor_at tz set_tz set_ptr ptr]. rewrite Hptr, length_app. cbn. lia.
      * exact Hys.
      * exact Hbad.
      * cbn in Hfuel. lia.
    + apply (tk_Done _ (set_es e1 s)).
      pose proof (accept_either_ok TOKENIZER_CR TOKENIZER_COMMA e1 (or_intror Ht1)) as Hae.
      rewrite Ht1 in Hae. exact Hae.
Qed.

(** X27.  DATA passes over its line: literals, strings or numbers, with a
    comma between two of them, up to and including the end of the line,
    and nothing but the cursor moves.  A token that is no literal where
    one is due, right behind DATA or behind the comma that follows any
    number of literals, stops the program with "Syntax"; so does the end
    of the text in such a place. *)
Theorem data_line_is_passed_over cx fuel s :
  token_of (es s) = TOKENIZER_DATA ->
  let e1 := advance (es s) in
  (forall pre x xs rest,
     program (tz e1) = pre ++ data_items x xs ++ rest ->
     ptr (tz e1) = length pre ->
     literal x -> Forall literal xs ->
     (length xs <= fuel)%nat ->
     data_statement cx fuel s =
       Done (tt, set_es (cursor_at (length pre + length (data_items x xs)) e1) s)) /\
  (token_of e1 <> TOKENIZER_STRING -> token_of e1 <> TOKENIZER_NUMBER ->
     data_statement cx fuel s = Halt (Exit (Ubasic (line_num cx) syntax))) /\
  (forall pre xs rest,
     program (tz e1) = pre ++ data_front xs ++ rest ->
     ptr (tz e1) = length pre ->
     Forall literal xs ->
     match rest with x :: _ => ~ literal x | [] => True end ->
     (length xs <= fuel)%nat ->
     data_statement cx fuel s = Halt (Exit (Ubasic (line_num cx) syntax))).
Proof.
  intros Ht e1. split; [|split].
  - intros pre x xs rest Hprog Hptr Hx Hxs Hfuel.
    unfold data_statement. accept Ht.
    rewrite (data_loop_run cx xs x pre rest (set_es (advance (es s)) s) fuel); done.
  - intros Hs Hn. unfold data_statement. accept Ht.
    rewrite data_loop_eq.
    rewrite (bind_Done _ _ _ _ _ (token_here_run _)).
    cbn [es set_es]. fold e1.
    destruct (bool_decide_reflect (token_of e1 = TOKENIZER_STRING)); [done|].
    destruct (bool_decide_reflect (token_of e1 = TOKENIZER_NUMBER)); [done|].
    reflexivity.
  - intros pre xs rest Hprog Hptr Hxs Hbad Hfuel.
    unfold data_statement. accept Ht.
    apply (data_loop_stops cx xs pre rest (set_es (advance (es s)) s) fuel); done.
Qed.

(** X28.  RESTORE sets the place DATA is read from and leaves the program
    where it was: without a line number, or with 0, the place is the start
    of the program; with a line number it is where a jump to that line
    lands, and the cursor is put back behind the end of the RESTORE line. *)
Theorem restore_sets_the_data_pointer cx fuel s :
  token_of (es s) = TOKENIZER_RESTORE ->
  let e1 := advance (es s) in
  (token_of e1 = TOKENIZER_CR ->
     restore_statement cx fuel s = Done (tt, set_data 0 1 (set_es (advance e1) s))) /\
  (forall n e2,
     token_of e1 <> TOKENIZER_CR ->
     intexpr cx (sto s) fuel e1 = Done (n, e2) ->
     token_of e2 = TOKENIZER_CR ->
     (n = 0 ->
        restore_statement cx fuel s = Done (tt, set_data 0 1 (set_es (advance e2) s))) /\
     (n <> 0 -> forall t',
        jump_linenum fuel (line_index cx) n (tokenizer_push (tz (advance e2))) = Done t' ->
        exists s',
          restore_statement cx fuel s = Done (tt, s') /\
          data_position s' = tokenizer_pos t' /\ data_seek s' = 1 /\
          ptr (tz (es s')) = ptr (tz (advance e2)) /\
          program (tz (es s')) = program (tz (advance e2)) /\
          sto s' = sto s /\ ctl s' = ctl s /\ con s' = con s)).
Proof.
  intros Ht e1. split.
  - intros Hcr. unfold restore_statement. accept Ht. fold e1. rewrite Hcr.
    destruct (decide (TOKENIZER_CR <> TOKENIZER_CR)) as [Hn|_]; [done|].
    rewrite (bind_Done _ _ _ 0 (set_es e1 s)) by reflexivity.
    rewrite (bind_Done _ _ _ _ _ (tk_accept TOKENIZER_CR (set_es e1 s) Hcr)).
    reflexivity.
  - intros n e2 Hncr Hn Hcr.
    assert (Hstart : restore_statement cx fuel s =
      ((if negb (n =? 0) then
          tk (modify (fun e => set_tz (tokenizer_push (tz e)) e)) >>>
          jump cx fuel n >>>
          let* pos := gets (fun s => tokenizer_pos (tz (es s))) in
          tk (modify (fun e => set_tz (tokenizer_pop (tz e)) e)) >>>
          modify (fun s => set_data pos (data_seek s) s)
        else modify (fun s => set_data 0%nat (data_seek s) s)) >>>
       modify (fun s => set_data (data_position s) 1 s)) (set_es (advance e2) s)).
    { unfold restore_statement. accept Ht. fold e1.
      destruct (decide (token_of e1 <> TOKENIZER_CR)); [|done].
      evaluate_with Hn.
      rewrite (bind_Done _ _ _ _ _ (tk_accept TOKENIZER_CR (set_es e2 s) Hcr)).
      reflexivity. }
    split.
    + intros ->. rewrite Hstart. reflexivity.
    + intros Hnz t' Hjump. rewrite Hstart.
      apply Z.eqb_neq in Hnz. rewrite Hnz. cbn [negb].
      destruct (jump_linenum_same _ _ _ _ _ Hjump) as [Hprog Hpushed].
      eexists. split.
      * erewrite bind_Done; [reflexivity|].
        erewrite bind_Done by reflexivity.
        erewrite bind_Done; cycle 1.
        { rewrite jump_run. cbn [es set_es tz set_tz]. rewrite Hjump. reflexivity. }
        reflexivity.
      * cbn. rewrite Hpushed, Hprog. repeat split; reflexivity.
Qed.










(** X30.  POKE evaluates the address and the value, wants the comma
    between them and the end of the line behind them, and then calls the
    hook once with the two numbers; when no hook was installed the call
    goes through the null pointer [poke_function] still is. *)
Theorem poke_calls_the_hook cx fuel s a e1 v e2 :
  token_of (es s) = TOKENIZER_POKE ->
  intexpr cx (sto s) fuel (advance (es s)) = Done (a, e1) ->
  token_of e1 = TOKENIZER_COMMA ->
  intexpr cx (sto s) fuel (advance e1) = Done (v, e2) ->
  token_of e2 = TOKENIZER_CR ->
  poke_statement cx fuel s =
    if poke_function cx
    then Done (tt, set_poked (poked s ++ [(a, v)]) (set_es (advance e2) s))
    else Halt (Fault NullCall).
Proof.
  intros Ht Ha Hc Hv Hcr. unfold poke_statement.
  rewrite (bind_Done _ _ _ _ _ (tk_accept _ _ Ht)).
  rewrite (bind_Done _ _ _ a (set_es e1 s))
    by (unfold ev, zoom; cbn [es sto set_es]; by rewrite Ha).
  rewrite (bind_Done _ _ _ _ _ (tk_accept TOKENIZER_COMMA (set_es e1 s) Hc)).
  rewrite (bind_Done _ _ _ v (set_es e2 s))
    by (unfold ev, zoom; cbn [es sto set_es]; by rewrite Hv).
  rewrite (bind_Done _ _ _ _ _ (tk_accept TOKENIZER_CR (set_es e2 s) Hcr)).
  destruct (poke_function cx); reflexivity.
Qed.

(** ** Two round trips *)

(** X5.  A string variable reads back what was assigned to it.  The
    assignment of a value that is not the buffer the slot holds, with room
    on the heap, gives the slot a block that did not exist before, with
    the bytes of the value; [ubasic_get_variable] then yields that block.
    Every slot still holds the sentinel or a live block of its own, and
    the other slots and the evaluator state are as before. *)
Theorem string_variable_reads_back cx s varnum value p (bs : list Z) e :
  slots_owned (sto s) ->
  Z.land varnum STRINGFLAG <> 0 ->
  let i := Z.land varnum (Z.lnot STRINGFLAG) in
  0 <= i < Z.of_nat (length (strings (sto s))) ->
  type value = TYPE_STRING -> d value = d_p p ->
  buffer_of (sto s) (stringblob (es s)) p = Done (Z.of_nat (length bs) :: bs) ->
  strings (sto s) !! Z.to_nat i <> Some p \/ p = Pnullstr ->
  Z.of_nat (length bs) + 1 <= heap_room (sto s) ->
  exists s' b,
    ubasic_set_variable cx varnum value s = Done (tt, s') /\
    ubasic_get_variable cx (sto s') varnum e = Done (Typevalue TYPE_STRING (d_p (Pheap b)), e) /\
    buffer_of (sto s') (stringblob e) (Pheap b) = Done (Z.of_nat (length bs) :: bs) /\
    heap (sto s) !! b = None /\
    slots_owned (sto s') /\
    (forall j, j <> Z.to_nat i -> strings (sto s') !! j = strings (sto s) !! j) /\
    es s' = es s.
Proof.
  intros Hown Hflag i Hi Hty Hd Hbuf Hother Hroom.
  destruct (string_assignment_keeps_slots_owned cx s varnum value p bs
              Hown Hflag Hi Hty Hd Hbuf Hother Hroom)
    as (s' & Hrun & Hown' & Hslot & Hblock & Hrest & Hes).
  exists s', (length (heap (sto s))).
  split; [exact Hrun|]. split; [|split; [|split; [|done]]].
  - unfold ubasic_get_variable, bind, lift, ret.
    destruct (Z.eqb_spec (Z.land varnum STRINGFLAG) 0); [done|]. cbn [negb].
    subst i. unfold array_get.
    destruct (Z.ltb_spec (Z.land varnum (Z.lnot STRINGFLAG)) 0); [lia|].
    rewrite Hslot. reflexivity.
  - cbn [buffer_of]. rewrite Hblock. reflexivity.
  - apply lookup_ge_None_2. lia.
Qed.

(** X22.  GOTO evaluates the line number, wants the end of the line
    behind it, and moves the cursor, changing nothing else.  When the index
    holds the number, the cursor goes to the position the index gives for
    it, whichever line that is.  When the index does not hold it, the
    cursor goes to the start of the first line of the program that carries
    the number, found by the scan from the start of the program. *)
Theorem goto_follows_the_index_and_else_scans cx fuel s n e3 :
  token_of (es s) = TOKENIZER_GO ->
  token_of (advance (es s)) = TOKENIZER_TO ->
  intexpr cx (sto s) fuel (advance (advance (es s))) = Done (n, e3) ->
  token_of e3 = TOKENIZER_CR ->
  (forall pos, index_find (line_index cx) n = Some pos ->
     go_statement cx fuel s = Done (tt, set_es (cursor_at pos (advance e3)) s)) /\
  (forall ls k,
     index_find (line_index cx) n = None ->
     well_formed ls ->
     program (tz e3) = render ls ->
     find_line ls n = Some k ->
     (length (render ls) <= fuel)%nat ->
     go_statement cx fuel s = Done (tt, set_es (cursor_at (line_start ls k) (advance e3)) s) /\
     token_of (cursor_at (line_start ls k) (advance e3)) = TOKENIZER_NUMBER /\
     tokenizer_num (tz (cursor_at (line_start ls k) (advance e3))) = n).
Proof.
  intros Hgo Hto Hex Hcr. split.
  - intros pos Hidx. rewrite (goto_jumps cx fuel s n e3 Hgo Hto Hex Hcr).
    unfold jump_linenum. rewrite Hidx. reflexivity.
  - intros ls k Hmiss Hwf Hprog Hfind Hfuel.
    assert (Hprog' : program (tz (advance e3)) = render ls).
    { rewrite <- Hprog. unfold advance. cbn [tz set_tz].
      apply (tokenizer_next_same (tz e3)). }
    destruct (jump_linenum_scans ls k n (line_index cx) (tz (advance e3)) fuel
                Hwf Hfind Hprog' Hmiss Hfuel) as (Hscan & Htok & Hn).
    split; [|split; [exact Htok|exact Hn]].
    rewrite (goto_jumps cx fuel s n e3 Hgo Hto Hex Hcr), Hscan. reflexivity.
Qed.

(** ** A jump to a line that is not in the index *)

(** A line that starts with its number and holds a GOTO or a GOSUB runs
    [go_statement] in the context and the state [line_statement] sets up. *)
Lemma ubasic_run_go fuel m :
  tokenizer_token (tz (es (run m))) = TOKENIZER_NUMBER ->
  token_of (es (entered m)) = TOKENIZER_GO ->
  ubasic_run (S fuel) m =
    match go_statement (entering m) fuel (entered m) with
    | Done (_, s) => Done (Machine (entering m) s)
    | Halt h => Halt h
    end.
Proof.
  intros Hn Hgo.
  assert (Hfin : tokenizer_finished (tz (es (run m))) = false).
  { unfold tokenizer_finished. rewrite Hn. by apply bool_decide_eq_false_2. }
  unfold ubasic_run. rewrite Hfin. unfold line_statement.
  rewrite (bind_Done _ _ _ _ _ (tk_accept _ _ Hn)).
  cbn [statement].
  rewrite (bind_Done _ _ _ tt (entered m)) by reflexivity.
  rewrite (bind_Done _ _ _ _ _ (token_here_run _)).
  rewrite Hgo. reflexivity.
Qed.

(** C8.  A GOTO or GOSUB to a line that the index does not hold, in a
    program of numbered lines that has such a line.  The jump succeeds by
    the scan from the start of the program and lands on the first line with
    the number; GOSUB has pushed its frame.  The jump does not enter the
    line into the index: when [ubasic_run] returns from the line of the
    jump, the index is the one the jump was given and still lacks the
    number.  The entry is made when the target line itself runs next,
    [line_statement] adding it at the position the jump found; from there
    on a jump to the number goes to that position through the index, with
    any budget and no scan.  Adding a number that the index holds leaves
    the index as it is. *)
Theorem unindexed_jump_scans_and_the_line_is_indexed_when_it_runs ls k n m fuel e3 :
  well_formed ls ->
  find_line ls n = Some k ->
  tokenizer_token (tz (es (run m))) = TOKENIZER_NUMBER ->
  let cx := entering m in
  let s := entered m in
  token_of (es s) = TOKENIZER_GO ->
  token_of (advance (es s)) = TOKENIZER_TO \/
    token_of (advance (es s)) = TOKENIZER_SUB /\
    (gosub_stack_ptr (ctl s) < MAX_GOSUB_STACK_DEPTH)%nat ->
  intexpr cx (sto s) fuel (advance (advance (es s))) = Done (n, e3) ->
  token_of e3 = TOKENIZER_CR ->
  program (tz e3) = render ls ->
  index_find (line_index cx) n = None ->
  (length (render ls) <= fuel)%nat ->
  let pos := line_start ls k in
  let s' := if decide (token_of (advance (es s)) = TOKENIZER_TO) then s
            else set_ctl (push_gosub (tokenizer_num (tz (advance e3))) (ctl s)) s in
  let m1 := Machine cx (set_es (cursor_at pos (advance e3)) s') in
  go_statement cx fuel s = Done (tt, run m1) /\
  ubasic_run (S fuel) m = Done m1 /\
  tokenizer_token (tz (es (run m1))) = TOKENIZER_NUMBER /\
  tokenizer_num (tz (es (run m1))) = n /\
  line_index (cxt m1) = line_index cx /\
  index_find (line_index (cxt m1)) n = None /\
  (forall fuel1 m2, ubasic_run fuel1 m1 = Done m2 ->
     index_find (line_index (cxt m2)) n = Some pos /\
     (forall fuel2 t, jump_linenum fuel2 (line_index (cxt m2)) n t
                      = Done (tokenizer_goto pos t)) /\
     (forall fuel2 s2 e4,
        token_of (es s2) = TOKENIZER_GO ->
        token_of (advance (es s2)) = TOKENIZER_TO ->
        intexpr (cxt m2) (sto s2) fuel2 (advance (advance (es s2))) = Done (n, e4) ->
        token_of e4 = TOKENIZER_CR ->
        go_statement (cxt m2) fuel2 s2
          = Done (tt, set_es (cursor_at pos (advance e4)) s2))) /\
  (forall idx p pos', index_find idx n = Some p -> index_add n pos' idx = idx).
Proof.
  intros Hwf Hfind Hnum cx s Hgo Hkind Hexpr Hcr Hprog Hmiss Hfuel pos s' m1.
  assert (Hprog' : program (tz (advance e3)) = render ls).
  { rewrite <- Hprog. unfold advance. cbn [tz set_tz].
    apply (tokenizer_next_same (tz e3)). }
  destruct (jump_linenum_scans ls k n (line_index cx) (tz (advance e3)) fuel
              Hwf Hfind Hprog' Hmiss Hfuel) as (Hscan & Htok & Hn).
  assert (Hrun : go_statement cx fuel s = Done (tt, run m1)).
  { unfold m1, s'. cbn [run]. destruct Hkind as [Hto|[Hsub Hroom]].
    - rewrite (goto_jumps cx fuel s n e3 Hgo Hto Hexpr Hcr), Hscan.
      destruct (decide (token_of (advance (es s)) = TOKENIZER_TO)); [|done].
      reflexivity.
    - rewrite (gosub_jumps cx fuel s n e3 Hgo Hsub Hexpr Hcr Hroom), Hscan.
      destruct (decide (token_of (advance (es s)) = TOKENIZER_TO)) as [E|_];
        [rewrite Hsub in E; discriminate|].
      reflexivity. }
  split; [exact Hrun|].
  split; [rewrite (ubasic_run_go fuel m Hnum Hgo); fold cx s; by rewrite Hrun|].
  assert (Htz : tz (es (run m1)) = tokenizer_goto pos (tz (advance e3))) by reflexivity.
  split; [rewrite Htz; exact Htok|]. split; [rewrite Htz; exact Hn|].
  split; [reflexivity|]. split; [exact Hmiss|]. split.
  - intros fuel1 m2 Hnext.
    assert (Hfin : tokenizer_finished (tz (es (run m1))) = false).
    { unfold tokenizer_finished. rewrite Htz. fold pos in Htok. rewrite Htok.
      by apply bool_decide_eq_false_2. }
    unfold ubasic_run in Hnext. rewrite Hfin in Hnext.
    rewrite (line_statement_index _ _ _ Hnext).
    assert (Hentry : index_find (line_index (entering m1)) n = Some pos).
    { unfold entering. cbn [line_index set_line]. rewrite Htz. fold pos in Hn. rewrite Hn.
      by apply index_add_absent. }
    split; [exact Hentry|]. split.
    + intros fuel2 t. unfold jump_linenum. by rewrite Hentry.
    + intros fuel2 s2 e4 Hgo2 Hto2 Hexpr2 Hcr2.
      rewrite (goto_jumps _ fuel2 s2 n e4 Hgo2 Hto2 Hexpr2 Hcr2).
      unfold jump_linenum. rewrite Hentry. reflexivity.
  - intros idx p pos'. apply index_add_present.
Qed.

End Facts.

(** ** Runs that leave the specification *)

Lemma memcmp_diff_conforming : conforming memcmp_diff.
Proof.
  intros a. induction a as [|x a IH]; intros [|y b] Hlen; simpl; try reflexivity.
  destruct (Z.eqb_spec x y) as [->|Hne].
  - rewrite Z.ltb_irrefl. apply IH. simpl in Hlen. lia.
  - destruct (Z.ltb_spec x y); [apply Z.sgn_neg; lia|].
    destruct (Z.ltb_spec y x); [apply Z.sgn_pos; lia|lia].
Qed.

(** C1.  A negative count or a negative start takes [string_cut] out of the
    buffer of its argument: [LEFT$("HELLO", 0-1)] asks memcpy for a count
    that is huge once converted to [size_t], [MID$("HELLO", 0-1, 3)] copies
    from the byte before the length byte, and [MID$("HELLO", 0-300, 1000)]
    stops on "String too long".  A start of 0 stays inside the buffer but
    copies the length byte as if it were text. *)
Theorem string_cut_leaves_the_buffer_on_negative_arguments :
  evaluate left_minus_one = Halt (Fault OutOfBounds) /\
  evaluate mid_from_minus_one = Halt (Fault OutOfBounds) /\
  evaluate mid_from_far_below = Halt (Exit (Ubasic 0 "String too long")) /\
  string_result (evaluate mid_from_zero) = Done [3; 5; 72; 69].
Proof. repeat split; vm_compute; reflexivity. Qed.

(** C3.  With a [memcmp] that returns the difference of the bytes, which
    the C standard allows, ["A" < "C"] is 0: the comparison gives -2 and
    the test for "less" asks for -1.  ["A" < "B"] is 1 on the same build. *)
Theorem string_less_than_fails_on_a_byte_difference :
  byte_order (bytes "A") (bytes "C") = -1 /\
  memcmp (Platform := host) (bytes "A") (bytes "C") = -2 /\
  the_value (compare A_less_C) = Some (integer 0) /\
  the_value (compare A_less_B) = Some (integer 1).
Proof. repeat split; vm_compute; reflexivity. Qed.

(** C5.  [10 RETURN] with no frame on the Gosub stack: the first call of
    [ubasic_run] returns with the cursor still on the end-of-line token of
    line 10 and the interpreter not finished; the second call stops in
    [accept_tok(TOKENIZER_NUMBER)], so line 20 never runs. *)
Theorem return_on_empty_stack_leaves_the_line_unfinished :
  exists m1,
    ubasic_run (PF:=host) 20 (boot return_first) = Done m1 /\
    token_of (es (run m1)) = TOKENIZER_CR /\
    tokenizer_pos (tz (es (run m1))) = 2%nat /\
    ubasic_finished m1 = false /\
    ubasic_run (PF:=host) 20 m1 = Halt (Exit TokenizerError).
Proof.
  destruct (ubasic_run (PF:=host) 20 (boot return_first)) as [m1|] eqn:E;
    [|vm_compute in E; discriminate].
  exists m1. split; [reflexivity|].
  vm_compute in E. injection E as <-. repeat split; vm_compute; reflexivity.
Qed.

(** C9.  [A$ = A$] with [A$] holding an owned buffer: the value of the
    right-hand side is the pointer in the slot, [ubasic_set_variable] frees
    the slot first, and [string_save] then reads the freed block. *)
Theorem assigning_a_string_to_itself_reads_freed_memory :
  (exists m1, after 1 assign_to_itself = Some m1 /\
              strings (sto (run m1)) !! 0%nat = Some (Pheap 0) /\
              heap (sto (run m1)) !! 0%nat = Some (Some [1; 88])) /\
  run_lines (PF:=host) 2 20 (boot assign_to_itself) = Halt (Fault UseAfterFree).
Proof.
  split; [|vm_compute; reflexivity].
  destruct (after 1 assign_to_itself) as [m1|] eqn:E; [|vm_compute in E; discriminate].
  exists m1. split; [reflexivity|].
  vm_compute in E. injection E as <-. split; reflexivity.
Qed.

(** ** The statements at work *)

Lemma varnum_guard_witness :
  Z.land 286 (STRINGFLAG (Platform := host)) = 0 /\
  ubasic_set_variable (PF:=host) (cxt (boot [])) 286 (integer 7) (run (boot []))
    = Halt (Fault OutOfBounds).
Proof.
  split; [reflexivity|].
  apply (varnum_guard_admits_one_past_the_table (PF:=host) (cxt (boot [])) (run (boot []))
           (es (run (boot []))) 7 286); reflexivity.
Defined.

(** [10 GOSUB 100]: line number 20 is pushed, the cursor is on line 100. *)
Lemma gosub_witness :
  (gosub_stack_ptr (ctl (entered (boot call_and_return))) < 10)%nat /\
  option_map (fun s' => (gosub_frames (ctl s'), tokenizer_pos (tz (es s'))))
    (the_state (go_statement (PF:=host) (entering (boot call_and_return)) 20
                             (entered (boot call_and_return))))
  = Some ([20], 12%nat).
Proof.
  set (s := entered (boot call_and_return)).
  destruct (gosub_pushes_below_ten_frames_else_halts (PF:=host)
              (entering (boot call_and_return)) 20 s 100
              (advance (advance (advance (es s)))))
    as [Hpush _]; try (vm_compute; reflexivity).
  assert (Hlt : (gosub_stack_ptr (ctl s) < 10)%nat) by (vm_compute; lia).
  split; [exact Hlt|].
  destruct (Hpush Hlt) as [Hrun _].
  rewrite Hrun. vm_compute. reflexivity.
Defined.

(** [30 NEXT I] with [I = 1] in [FOR I=1 TO 3]: [I] becomes 2, the cursor
    is on line 20, the frame is still there. *)
Lemma next_witness :
  variables (sto (entered (machine_after 2 count_to_three))) !! 8%nat = Some 1 /\
  option_map (fun s' => (variables (sto s') !! 8%nat, tokenizer_pos (tz (es s')),
                         for_frames (ctl s')))
    (the_state (next_statement (PF:=host) (entering (machine_after 2 count_to_three)) 20
                               (entered (machine_after 2 count_to_three))))
  = Some (Some 2, 8%nat, [For_state 20 I_var 3 1]).
Proof.
  set (s := entered (machine_after 2 count_to_three)).
  destruct (next_steps_the_loop_variable (PF:=host)
              (entering (machine_after 2 count_to_three)) 20 s 0 (For_state 20 I_var 3 1) 1)
    as [Hsame _]; try (vm_compute; reflexivity).
  assert (Hi : variables (sto s) !! 8%nat = Some 1) by (vm_compute; reflexivity).
  split; [exact Hi|].
  assert (Hrange : 0 <= tokenizer_variable_num (tz (advance (es s))) <= 285)
    by (vm_compute; split; discriminate).
  assert (Hlimit : within_limit (For_state 20 I_var 3 1)
                     (int_add (PF:=host) 1 (step (For_state 20 I_var 3 1))))
    by (left; vm_compute; split; discriminate).
  destruct (Hsame eq_refl eq_refl Hrange eq_refl Hi) as (_ & Hin & _).
  destruct (Hin Hlimit) as [Hrun _].
  rewrite Hrun. vm_compute. reflexivity.
Defined.

(** [50 FOR E=7 TO 9] inside four loops: [E] is 7, the cursor is on line
    60, and the four frames are those of the loops around it. *)
Lemma for_overflow_witness :
  for_stack_ptr (ctl (entered (machine_after 4 five_loops))) = 4%nat /\
  option_map (fun s' => (variables (sto s') !! 4%nat, tokenizer_pos (tz (es s')),
                         map for_variable (for_frames (ctl s'))))
    (the_state (for_statement (PF:=host) (entering (machine_after 4 five_loops)) 20
                              (entered (machine_after 4 five_loops))))
  = Some (Some 7, 40%nat, [0; 1; 2; 3]).
Proof.
  set (s := entered (machine_after 4 five_loops)).
  set (cx := entering (machine_after 4 five_loops)).
  assert (Hfull : for_stack_ptr (ctl s) = 4%nat) by (vm_compute; reflexivity).
  split; [exact Hfull|].
  destruct (for_with_full_stack_assigns_and_drops_frame (PF:=host) cx 20 s
              4 (integer 7) 9 1
              (match for_header (PF:=host) cx 20 s with
               | Done (_, s1) => s1
               | Halt _ => s
               end))
    as [Hrun _]; [vm_compute; reflexivity|exact Hfull|].
  rewrite Hrun. vm_compute. reflexivity.
Defined.

(** C4, as stated, fails when the workspace is nearly full: two literals
    of 128 and 127 bytes fill 257 of its 512 bytes, their sum needs 256
    more, and the evaluation stops on "Out of temporary space" although the
    lengths add up to 255. *)
Lemma concatenation_without_room :
  evaluate long_sum = Halt (Exit (Ubasic 0 "Out of temporary space")) /\
  operands long_sum = Done ((string_ 0, string_ 129), both_literals_stored) /\
  arena_ok both_literals_stored /\
  holds (sto (run (boot long_sum))) both_literals_stored (Pblob 0) As /\
  holds (sto (run (boot long_sum))) both_literals_stored (Pblob 129) Bs /\
  ~ concatenation_as_specified (PF:=host) (cxt (boot long_sum)) (sto (run (boot long_sum)))
      both_literals_stored (string_ 0) (string_ 129) As Bs.
Proof.
  split; [vm_compute; reflexivity|].
  split; [vm_compute; reflexivity|].
  split; [split; vm_compute; [reflexivity|discriminate]|].
  split; [split; vm_compute; [reflexivity|discriminate]|].
  split; [split; vm_compute; [reflexivity|discriminate]|].
  intros [_ Hsum].
  destruct Hsum as (v & e' & Hr & _); [vm_compute; discriminate|].
  vm_compute in Hr. discriminate.
Qed.

(** ["AB" + "CD"] is the four bytes [ABCD] behind a length byte of 4. *)
Lemma concatenation_witness :
  operands short_sum = Done ((string_ 0, string_ 3), both_short_stored) /\
  exists e',
    expr_step (PF:=host) (cxt (boot short_sum)) (sto (run (boot short_sum)))
              TOKENIZER_PLUS (string_ 0) (string_ 3) both_short_stored
      = Done (string_ 6, e') /\
    buffer_of (sto (run (boot short_sum))) (stringblob e') (Pblob 6)
      = Done [4; 65; 66; 67; 68].
Proof.
  split; [vm_compute; reflexivity|].
  destruct (concatenation_needs_room_in_the_workspace (PF:=host)
              (cxt (boot short_sum)) (sto (run (boot short_sum))) both_short_stored
              (string_ 0) (string_ 3) (Pblob 0) (Pblob 3) [65; 66] [67; 68])
    as (_ & Hroom & _);
    try reflexivity;
    try (split; vm_compute; [reflexivity|discriminate]).
  destruct Hroom as (e' & Hr & [Hbuf _] & _); try (vm_compute; discriminate).
  exists e'. split; [exact Hr|exact Hbuf].
Defined.

(** [10 GOSUB 100] of [call_and_return] and [10 GOTO 30] of [goto_30], run
    with an empty index: [ubasic_run] returns with the cursor on the target
    line and only line 10 in the index. *)
Lemma jump_leaves_the_target_out_of_the_index :
  index_find (line_index (entering (boot call_and_return))) 100 = None /\
  option_map (fun m => (tokenizer_num (tz (es (run m))), line_index (cxt m)))
             (after 1 call_and_return) = Some (100, [(10, 0%nat)]) /\
  ~ indexed_once_the_jump_completes (PF:=host) 20 (boot call_and_return) 100 /\
  index_find (line_index (entering (boot goto_30))) 30 = None /\
  option_map (fun m => (tokenizer_num (tz (es (run m))), line_index (cxt m)))
             (after 1 goto_30) = Some (30, [(10, 0%nat)]) /\
  ~ indexed_once_the_jump_completes (PF:=host) 20 (boot goto_30) 30.
Proof.
  split; [reflexivity|]. split; [vm_compute; reflexivity|]. split.
  { intros (m' & Hrun & _ & pos & Hidx).
    vm_compute in Hrun. injection Hrun as <-.
    vm_compute in Hidx. discriminate. }
  split; [reflexivity|]. split; [vm_compute; reflexivity|].
  intros (m' & Hrun & _ & pos & Hidx).
  vm_compute in Hrun. injection Hrun as <-.
  vm_compute in Hidx. discriminate.
Qed.

(** [10 GOSUB 100] of [call_and_return]: the scan lands on position 12
    with line 20 on the stack; the index lacks 100 when the line has run,
    and holds it once line 100 has run. *)
Lemma jump_witness :
  render call_and_return_lines = call_and_return /\
  option_map (fun s => (tokenizer_pos (tz (es s)), gosub_frames (ctl s)))
    (the_state (go_statement (PF:=host) (entering (boot call_and_return)) 19
                             (entered (boot call_and_return))))
    = Some (12%nat, [20]) /\
  ubasic_run (PF:=host) 20 (boot call_and_return) = Done (machine_after 1 call_and_return) /\
  index_find (line_index (cxt (machine_after 1 call_and_return))) 100 = None /\
  index_find (line_index (cxt (machine_after 2 call_and_return))) 100 = Some 12%nat.
Proof.
  split; [reflexivity|].
  set (m := boot call_and_return).
  assert (Hwf : well_formed call_and_return_lines)
    by (apply (bool_decide_eq_true_1 _); vm_compute; reflexivity).
  destruct (unindexed_jump_scans_and_the_line_is_indexed_when_it_runs (PF:=host)
              call_and_return_lines 3 100 m 19
              (state_after (intexpr (PF:=host) (entering m) (sto (entered m)) 19
                                    (advance (advance (es (entered m)))))
                           (es (entered m))))
    as (Hgo & Hrun & _ & _ & _ & Hmiss & Hnext & _);
    [exact Hwf|reflexivity|reflexivity|reflexivity
    |right; split; [reflexivity|vm_compute; lia]
    |vm_compute; reflexivity|vm_compute; reflexivity|vm_compute; reflexivity
    |reflexivity|vm_compute; lia|].
  assert (Hm1 : machine_after 1 call_and_return = 
                match ubasic_run (PF:=host) 20 m with Done m1 => m1 | Halt _ => m end)
    by (vm_compute; reflexivity).
  rewrite Hrun in Hm1. rewrite Hm1.
  split; [rewrite Hgo; vm_compute; reflexivity|].
  split; [exact Hrun|]. split; [exact Hmiss|].
  destruct (Hnext 20%nat (machine_after 2 call_and_return)) as (Hidx & _);
    [vm_compute; reflexivity|exact Hidx].
Defined.

(** The index while [call_and_return] runs: line 100 is entered when it
    runs, not when [10 GOSUB 100] jumps to it. *)
Example index_grows_when_a_line_runs :
  option_map (fun m => line_index (cxt m)) (after 1 call_and_return)
    = Some [(10, 0%nat)] /\
  option_map (fun m => line_index (cxt m)) (after 2 call_and_return)
    = Some [(10, 0%nat); (100, 12%nat)].
Proof. split; vm_compute; reflexivity. Qed.

(** ** The behaviours listed with the design, on [host] *)

Example prints_the_sum :
  output add_two_variables = Done (bytes "3" ++ [10]).
Proof. vm_compute. reflexivity. Qed.

Example prints_the_left_part :
  output left_of_hello = Done (bytes "HEL" ++ [10]).
Proof. vm_compute. reflexivity. Qed.

Example counts_to_three :
  output count_to_three = Done (bytes "1" ++ [10] ++ bytes "2" ++ [10] ++ bytes "3" ++ [10]).
Proof. vm_compute. reflexivity. Qed.

Example calls_and_returns :
  output call_and_return = Done (bytes "SUB" ++ [10] ++ bytes "DONE" ++ [10]).
Proof. vm_compute. reflexivity. Qed.

Example stops_on_division_by_zero :
  output divide_by_zero = Halt (Exit (Ubasic 10 "Division by zero")).
Proof. vm_compute. reflexivity. Qed.

(** The eleventh nested GOSUB is fatal. *)
Example eleventh_gosub_is_fatal :
  (exists m, after 10 call_forever = Some m /\ gosub_stack_ptr (ctl (run m)) = 10%nat) /\
  run_lines (PF:=host) 11 20 (boot call_forever)
    = Halt (Exit (Ubasic 10 "Return without gosub")).
Proof.
  split; [|vm_compute; reflexivity].
  destruct (after 10 call_forever) as [m|] eqn:E; [|vm_compute in E; discriminate].
  exists m. split; [reflexivity|]. vm_compute in E. by injection E as <-.
Qed.

(** ** The further properties at work *)

(** [10 GOSUB 100] has run: line 10 is in the index, at position 0. *)
Lemma index_growth_witness :
  index_find (line_index (cxt (machine_after 1 call_and_return))) 10 = Some 0%nat.
Proof.
  destruct (ubasic_run_only_adds_to_the_index (PF:=host) 20 (boot call_and_return)
              (machine_after 1 call_and_return)) as (_ & Hnew & _);
    [vm_compute; reflexivity|].
  destruct (Hnew eq_refl) as [_ Hat]. exact (Hat eq_refl).
Defined.

(** A jump to line 999 of a program that has no such line. *)
Lemma missing_line_witness :
  jump_linenum 50 [] 999 (tz (es (run (boot call_and_return)))) = Halt OutOfFuel.
Proof.
  assert (Hwf : well_formed call_and_return_lines)
    by (apply (bool_decide_eq_true_1 _); vm_compute; reflexivity).
  apply (jump_to_a_missing_line_never_returns call_and_return_lines 999 []
           (tz (es (run (boot call_and_return)))) 50 Hwf);
    [discriminate|reflexivity|reflexivity|reflexivity].
Defined.

(** Variable 3 receives 42 and reads back as 42. *)
Lemma integer_variable_witness :
  exists s',
    ubasic_set_variable (PF:=host) (cxt (boot [])) 3 (integer 42) (run (boot []))
      = Done (tt, s') /\
    ubasic_get_variable (PF:=host) (cxt (boot [])) (sto s') 3 (es (run (boot [])))
      = Done (integer 42, es (run (boot []))).
Proof.
  destruct (integer_variable_reads_back (PF:=host) (cxt (boot [])) (run (boot [])) 3 42
              (es (run (boot []))))
    as (s' & Hset & Hget & _);
    [reflexivity|reflexivity|unfold MAX_VARNUM; lia|].
  exists s'. split; [exact Hset|exact Hget].
Defined.

(** [A$] receives the string ["X"] of the workspace and reads back as a block
    of the heap that holds it. *)
Lemma string_variable_witness :
  exists s' b,
    ubasic_set_variable (PF:=host) (cxt (boot [])) A_str (string_ 0)
                        (with_string (bytes "X") (run (boot [])))
      = Done (tt, s') /\
    ubasic_get_variable (PF:=host) (cxt (boot [])) (sto s') A_str (es (run (boot [])))
      = Done (Typevalue TYPE_STRING (d_p (Pheap b)), es (run (boot []))) /\
    buffer_of (sto s') (stringblob (es (run (boot [])))) (Pheap b) = Done [1; 88].
Proof.
  assert (Hown : slots_owned (sto (with_string (bytes "X") (run (boot []))))).
  { split.
    - intros i p H. apply lookup_replicate in H as [-> _]. by left.
    - intros i j b H. apply lookup_replicate in H as [H _]. discriminate H. }
  destruct (string_variable_reads_back (PF:=host) (cxt (boot []))
              (with_string (bytes "X") (run (boot []))) A_str (string_ 0) (Pblob 0)
              (bytes "X") (es (run (boot []))) Hown)
    as (s' & b & Hrun & Hget & Hbuf & _);
    [discriminate|vm_compute; split; [discriminate|reflexivity]|reflexivity|reflexivity
    |vm_compute; reflexivity|left; vm_compute; discriminate|vm_compute; discriminate|].
  exists s', b. split; [exact Hrun|]. split; [exact Hget|exact Hbuf].
Defined.

(** A tab at column 3: five blanks, column 8. *)
Lemma tab_witness :
  charout 9 (at_column 3)
    = Done (tt, set_con (Console 8 (replicate 5 32) []) (at_column 3)).
Proof.
  destruct (tab_stops_of_the_console (at_column 3)) as [(_ & _ & Htab) _];
    [vm_compute; discriminate|].
  exact Htab.
Defined.

(** [10 PRINT "A";]: the output ends with a newline all the same. *)
Lemma print_newline_witness :
  exists s' out,
    print_statement (PF:=host) (entering (boot print_with_semicolon)) 20
                    (entered (boot print_with_semicolon)) = Done (tt, s') /\
    stdout (con s') = stdout (con (entered (boot print_with_semicolon))) ++ out ++ [10].
Proof.
  destruct (print_statement (PF:=host) (entering (boot print_with_semicolon)) 20
                            (entered (boot print_with_semicolon)))
    as [[[] s']|h] eqn:Hrun; [|vm_compute in Hrun; discriminate Hrun].
  destruct (print_always_ends_with_a_newline (PF:=host) _ _ _ _ Hrun) as [out Hout].
  exists s', out. split; [reflexivity|exact Hout].
Defined.

(** [10 PRINT "HI"]: the text, a newline, and the column at 2. *)
Lemma print_literal_witness :
  option_map (fun s' => (stdout (con s'), chpos (con s')))
    (the_state (print_statement (PF:=host) (entering (boot print_hi)) 20
                                (entered (boot print_hi))))
  = Some (bytes "HI" ++ [10], 2).
Proof.
  rewrite (print_of_a_literal (PF:=host) (entering (boot print_hi)) 20
             (entered (boot print_hi)) (bytes "HI"));
    [vm_compute; reflexivity|reflexivity|reflexivity|reflexivity|reflexivity|reflexivity
    | |reflexivity|lia].
  change (Forall plain [72; 73]).
  repeat (constructor; [unfold plain; lia|]). constructor.
Defined.

(** [10 PRINT 42]: the digits, a newline, and the column still at 0. *)
Lemma print_number_witness :
  option_map (fun s' => (stdout (con s'), chpos (con s')))
    (the_state (print_statement (PF:=host) (entering (boot print_42)) 20
                                (entered (boot print_42))))
  = Some (bytes "42" ++ [10], 0).
Proof.
  set (s := entered (boot print_42)).
  set (cx := entering (boot print_42)).
  rewrite (print_of_a_number (PF:=host) cx 20 s 42
             (state_after (intexpr (PF:=host) cx (sto s) 20 (advance (es s))) (es s)));
    [vm_compute; reflexivity|reflexivity|reflexivity|reflexivity|discriminate|reflexivity
    |discriminate|discriminate|discriminate|reflexivity|vm_compute; reflexivity
    |vm_compute; reflexivity|lia].
Defined.

(** VAL of ["-12"] is -12. *)
Lemma val_witness :
  string_val (PF:=host) (cxt (boot [])) (sto (run (boot []))) (string_ 0)
             (stored (bytes "-12"))
    = Done (-12, stored (bytes "-12")).
Proof.
  apply (proj2 (val_reads_a_decimal_number (PF:=host) (cxt (boot [])) (sto (run (boot [])))
                  (stored (bytes "-12")) (string_ 0) (Pblob 0) true (bytes "12")
                  eq_refl eq_refl eq_refl ltac:(discriminate) ltac:(vm_compute; lia)
                  ltac:(repeat constructor)));
    vm_compute; split; [discriminate|reflexivity].
Defined.

(** VAL of ["1A"] is a type mismatch. *)
Lemma val_rejection_witness :
  string_val (PF:=host) (cxt (boot [])) (sto (run (boot []))) (string_ 0)
             (stored (bytes "1A"))
    = Halt (Exit (Ubasic 0 badtype)).
Proof.
  apply (proj1 (val_rejects_what_is_no_number (PF:=host) (cxt (boot []))
                  (sto (run (boot []))) (stored (bytes "1A")) (string_ 0) (Pblob 0) eq_refl)
               false [49] 65 []);
    [reflexivity|vm_compute; lia|repeat constructor|reflexivity|right; left; discriminate].
Defined.

(** [ABS(0-5)] is 5. *)
Lemma abs_witness :
  the_value (factor (PF:=host) (cxt (boot abs_of_minus_5)) (sto (run (boot abs_of_minus_5)))
               (expr (PF:=host) (cxt (boot abs_of_minus_5)) (sto (run (boot abs_of_minus_5))) 20)
               (es (run (boot abs_of_minus_5))))
  = Some (integer 5).
Proof.
  set (cx := cxt (boot abs_of_minus_5)).
  set (x := sto (run (boot abs_of_minus_5))).
  set (e := es (run (boot abs_of_minus_5))).
  destruct (abs_sgn_int_of_an_integer (PF:=host) cx x (expr (PF:=host) cx x 20) e (-5)
              (state_after (expr (PF:=host) cx x 20 (advance (advance e))) e))
    as (Habs & _);
    [reflexivity|reflexivity|vm_compute; reflexivity|reflexivity
    |vm_compute; split; reflexivity|].
  rewrite (Habs eq_refl eq_refl). reflexivity.
Defined.

(** [LEN("HEY")] is 3. *)
Lemma len_witness :
  the_value (factor (PF:=host) (cxt (boot len_of_hey)) (sto (run (boot len_of_hey)))
               (expr (PF:=host) (cxt (boot len_of_hey)) (sto (run (boot len_of_hey))) 20)
               (es (run (boot len_of_hey))))
  = Some (integer 3).
Proof.
  set (cx := cxt (boot len_of_hey)).
  set (x := sto (run (boot len_of_hey))).
  set (e := es (run (boot len_of_hey))).
  destruct (len_and_code_of_a_string (PF:=host) cx x (expr (PF:=host) cx x 20) e
              (string_ 0) (Pblob 0) (bytes "HEY")
              (state_after (expr (PF:=host) cx x 20 (advance (advance e))) e))
    as (Hlen & _);
    [reflexivity|vm_compute; reflexivity|reflexivity|reflexivity|vm_compute; reflexivity
    |reflexivity|].
  rewrite (Hlen eq_refl eq_refl). reflexivity.
Defined.

(** [CHR$(65)]: a string of length 2, ["A"] and a byte of the fresh workspace. *)
Lemma chr_witness :
  exists e',
    factor (PF:=host) (cxt (boot chr_of_65)) (sto (run (boot chr_of_65)))
           (expr (PF:=host) (cxt (boot chr_of_65)) (sto (run (boot chr_of_65))) 20)
           (es (run (boot chr_of_65))) = Done (string_ 0, e') /\
    buffer_of (sto (run (boot chr_of_65))) (stringblob e') (Pblob 0) = Done [2; 65; 0].
Proof.
  set (cx := cxt (boot chr_of_65)).
  set (x := sto (run (boot chr_of_65))).
  set (e := es (run (boot chr_of_65))).
  destruct (chr_makes_a_string_of_two_bytes (PF:=host) cx x (expr (PF:=host) cx x 20) e 65
              (state_after (expr (PF:=host) cx x 20 (advance (advance e))) e) 0)
    as (e' & Hrun & Hbuf & _);
    [reflexivity|reflexivity|reflexivity|reflexivity|vm_compute; reflexivity|reflexivity
    |split; [reflexivity|vm_compute; discriminate]|vm_compute; discriminate|reflexivity|].
  exists e'. split; [exact Hrun|exact Hbuf].
Defined.

(** The literal ["HI"] at the start of the workspace. *)
Lemma string_literal_witness :
  exists e',
    factor (PF:=host) (cxt (boot literal_hi)) (sto (run (boot literal_hi)))
           (expr (PF:=host) (cxt (boot literal_hi)) (sto (run (boot literal_hi))) 20)
           (es (run (boot literal_hi))) = Done (string_ 0, e') /\
    buffer_of (sto (run (boot literal_hi))) (stringblob e') (Pblob 0) = Done [2; 72; 73].
Proof.
  destruct (string_literal_is_copied_to_the_workspace (PF:=host) (cxt (boot literal_hi))
              (sto (run (boot literal_hi)))
              (expr (PF:=host) (cxt (boot literal_hi)) (sto (run (boot literal_hi))) 20)
              (es (run (boot literal_hi))))
    as (_ & Hfits);
    [reflexivity|split; [reflexivity|vm_compute; discriminate]|].
  destruct Hfits as (e' & Hrun & [Hbuf _] & _);
    [vm_compute; discriminate|vm_compute; discriminate|].
  exists e'. split; [exact Hrun|exact Hbuf].
Defined.

(** [MID$("HELLO", 2, 3)] is ["ELL"]. *)
Lemma mid_witness :
  exists e',
    string_cut (PF:=host) (cxt (boot [])) (sto (run (boot []))) (string_ 0) 2 3
               (stored (bytes "HELLO")) = Done (string_ 6, e') /\
    buffer_of (sto (run (boot []))) (stringblob e') (Pblob 6) = Done (3 :: bytes "ELL").
Proof.
  destruct (mid_yields_the_clipped_substring (PF:=host) (cxt (boot [])) (sto (run (boot [])))
              (stored (bytes "HELLO")) (string_ 0) (Pblob 0) (bytes "HELLO") 2 3)
    as (e' & Hrun & [Hbuf _] & _);
    [vm_compute; discriminate|split; [reflexivity|vm_compute; discriminate]|reflexivity
    |split; [vm_compute; reflexivity|vm_compute; discriminate]|vm_compute; discriminate
    |lia|lia|vm_compute; discriminate|].
  exists e'. split; [exact Hrun|exact Hbuf].
Defined.

(** [RIGHT$("HELLO", 2)] is ["LO"]. *)
Lemma right_witness :
  exists e',
    string_cut_r (PF:=host) (cxt (boot [])) (sto (run (boot []))) (string_ 0) 2
                 (stored (bytes "HELLO")) = Done (string_ 6, e') /\
    buffer_of (sto (run (boot []))) (stringblob e') (Pblob 6) = Done (2 :: bytes "LO").
Proof.
  destruct (string_cut_r_in_range (PF:=host) (cxt (boot [])) (sto (run (boot [])))
              (stored (bytes "HELLO")) (string_ 0) (Pblob 0) (bytes "HELLO") 2)
    as (e' & Hrun & [Hbuf _] & _);
    [vm_compute; discriminate|split; [reflexivity|vm_compute; discriminate]|reflexivity
    |split; [vm_compute; reflexivity|vm_compute; discriminate]|vm_compute; discriminate
    |lia|vm_compute; discriminate|].
  exists e'. split; [exact Hrun|exact Hbuf].
Defined.

(** [-7 / 2] and [-7 MOD 2]. *)
Lemma division_witness :
  exists q r,
    term_step (PF:=host) (cxt (boot [])) TOKENIZER_SLASH (integer (-7)) (integer 2)
              (es (run (boot []))) = Done (integer q, es (run (boot []))) /\
    term_step (PF:=host) (cxt (boot [])) TOKENIZER_MOD (integer (-7)) (integer 2)
              (es (run (boot []))) = Done (integer r, es (run (boot []))) /\
    -7 = q * 2 + r /\ Z.abs r < Z.abs 2 /\ 0 <= r * -7 /\ Z.abs (q * 2) <= Z.abs (-7).
Proof.
  apply (proj2 (division_truncates_and_mod_is_its_remainder (PF:=host) (cxt (boot []))
                  (-7) 2 (es (run (boot []))) eq_refl
                  ltac:(vm_compute; split; [discriminate|reflexivity])
                  ltac:(vm_compute; split; [discriminate|reflexivity])));
    [discriminate|intros [_ H]; discriminate H].
Defined.

(** [1+2] yields a tagged value. *)
Lemma expr_tag_witness :
  exists v e',
    expr (PF:=host) (cxt (boot one_plus_two)) (sto (run (boot one_plus_two))) 20
         (es (run (boot one_plus_two))) = Done (v, e') /\
    tagged v.
Proof.
  destruct (expr (PF:=host) (cxt (boot one_plus_two)) (sto (run (boot one_plus_two))) 20
                 (es (run (boot one_plus_two))))
    as [[v e']|h] eqn:Hrun; [|vm_compute in Hrun; discriminate Hrun].
  exists v, e'. split; [reflexivity|].
  exact (proj1 (expr_yields_a_value_of_its_tag (PF:=host) _ _ _ _ _ _ Hrun)).
Defined.

(** [1 < 2] is 0 or 1. *)
Lemma comparison_witness :
  exists v e',
    relation_step (PF:=host) (cxt (boot [])) (sto (run (boot []))) TOKENIZER_LT
                  (integer 1) (integer 2) (es (run (boot []))) = Done (v, e') /\
    (d v = d_i 0 \/ d v = d_i 1).
Proof.
  destruct (relation_step (PF:=host) (cxt (boot [])) (sto (run (boot []))) TOKENIZER_LT
                          (integer 1) (integer 2) (es (run (boot []))))
    as [[v e']|h] eqn:Hrun; [|vm_compute in Hrun; discriminate Hrun].
  exists v, e'. split; [reflexivity|].
  exact (proj1 (comparison_yields_0_or_1 (PF:=host) _ _ TOKENIZER_LT _ _ _ _ _ eq_refl Hrun)).
Defined.

(** [10 STOP] / [20 PRINT "X"]: finished after the first line, the cursor on line 20. *)
Lemma stop_witness :
  exists m',
    ubasic_run (PF:=host) 20 (boot stop_first) = Done m' /\
    ubasic_finished m' = true /\
    tokenizer_pos (tz (es (run m'))) = 3%nat.
Proof.
  destruct (stop_ends_the_program (PF:=host) 20 (boot stop_first))
    as (m' & Hrun & Hfin & _ & Htz & _);
    [reflexivity|reflexivity|reflexivity|lia|].
  exists m'. split; [exact Hrun|]. split; [exact Hfin|]. rewrite Htz. reflexivity.
Defined.

(** [10 GOTO 30] of [goto_30], where the index lacks 30: the cursor goes to
    line 30 at position 8.  [20 GOTO 20] of [goto_20_again], which is at
    position 13 and in the index as it runs: the cursor goes to position
    13, not to the first line 20 at position 5. *)
Lemma goto_witness :
  option_map (fun s' => tokenizer_pos (tz (es s')))
    (the_state (go_statement (PF:=host) (entering (boot goto_30)) 20 (entered (boot goto_30))))
  = Some 8%nat /\
  render goto_20_again_lines = goto_20_again /\
  option_map (line_start goto_20_again_lines) (find_line goto_20_again_lines 20) = Some 5%nat /\
  index_find (line_index (entering (machine_after 2 goto_20_again))) 20 = Some 13%nat /\
  option_map (fun s' => tokenizer_pos (tz (es s')))
    (the_state (go_statement (PF:=host) (entering (machine_after 2 goto_20_again)) 20
                             (entered (machine_after 2 goto_20_again))))
  = Some 13%nat.
Proof.
  split.
  { set (s := entered (boot goto_30)).
    set (cx := entering (boot goto_30)).
    assert (Hwf : well_formed goto_30_lines)
      by (apply (bool_decide_eq_true_1 _); vm_compute; reflexivity).
    destruct (goto_follows_the_index_and_else_scans (PF:=host) cx 20 s 30
                (state_after (intexpr (PF:=host) cx (sto s) 20 (advance (advance (es s)))) (es s)))
      as (_ & Hscan);
      [reflexivity|reflexivity|vm_compute; reflexivity|vm_compute; reflexivity|].
    destruct (Hscan goto_30_lines 2%nat) as (Hrun & _);
      [reflexivity|exact Hwf|reflexivity|reflexivity|vm_compute; lia|].
    rewrite Hrun. reflexivity. }
  split; [reflexivity|].
  split; [vm_compute; reflexivity|]. split; [vm_compute; reflexivity|].
  set (s := entered (machine_after 2 goto_20_again)).
  set (cx := entering (machine_after 2 goto_20_again)).
  destruct (goto_follows_the_index_and_else_scans (PF:=host) cx 20 s 20
              (state_after (intexpr (PF:=host) cx (sto s) 20 (advance (advance (es s)))) (es s)))
    as (Hhit & _);
    [vm_compute; reflexivity|vm_compute; reflexivity|vm_compute; reflexivity
    |vm_compute; reflexivity|].
  rewrite (Hhit 13%nat); [vm_compute; reflexivity|vm_compute; reflexivity].
Defined.

(** RETURN on line 110 of [call_and_return]: back on line 20, the stack empty. *)
Lemma return_witness :
  option_map (fun s' => (tokenizer_pos (tz (es s')), gosub_frames (ctl s')))
    (the_state (return_statement (entering (machine_after 2 call_and_return)) 20
                                 (entered (machine_after 2 call_and_return))))
  = Some (5%nat, []).
Proof.
  set (s := entered (machine_after 2 call_and_return)).
  set (cx := entering (machine_after 2 call_and_return)).
  destruct (return_resumes_at_the_saved_line cx 20 s 0 20) as (Hrun & _);
    [vm_compute; reflexivity|vm_compute; reflexivity|vm_compute; reflexivity|].
  rewrite Hrun. vm_compute. reflexivity.
Defined.

(** [10 C=7]: the variable holds 7 and the line is consumed. *)
Lemma let_witness :
  option_map (fun s' => (variables (sto s') !! 2%nat, tokenizer_pos (tz (es s'))))
    (the_state (let_statement (PF:=host) (entering (boot let_c_7)) 20 (entered (boot let_c_7))))
  = Some (Some 7, 5%nat).
Proof.
  set (s := entered (boot let_c_7)).
  set (cx := entering (boot let_c_7)).
  destruct (let_assigns_an_integer_variable (PF:=host) cx 20 s (integer 7)
              (state_after (expr (PF:=host) cx (sto s) 20 (advance (advance (es s)))) (es s)))
    as (Hrun & _);
    [reflexivity|reflexivity|vm_compute; split; [discriminate|reflexivity]|reflexivity
    |reflexivity|vm_compute; reflexivity|vm_compute; reflexivity|].
  rewrite (Hrun 7 eq_refl). vm_compute. reflexivity.
Defined.

(** [10 FOR I=1 TO 9 STEP 2]: [I] is 1 and the frame holds the limit 9,
    the step 2 and line 20.  [10 FOR I=1 TO 3]: the step of the frame is 1. *)
Lemma for_witness :
  option_map (fun s' => (for_frames (ctl s'), variables (sto s') !! 8%nat))
    (the_state (for_statement (PF:=host) (entering (boot count_by_two)) 20
                              (entered (boot count_by_two))))
  = Some ([For_state 20 I_var 9 2], Some 1) /\
  option_map (fun s' => (for_frames (ctl s'), variables (sto s') !! 8%nat))
    (the_state (for_statement (PF:=host) (entering (boot count_to_three)) 20
                              (entered (boot count_to_three))))
  = Some ([For_state 20 I_var 3 1], Some 1).
Proof.
  split.
  - set (s := entered (boot count_by_two)).
    set (cx := entering (boot count_by_two)).
    set (e3 := state_after (expr (PF:=host) cx (sto s) 20 (advance (advance (advance (es s)))))
                           (es s)).
    set (s1 := set_var_result s 8 1).
    set (e5 := state_after (intexpr (PF:=host) cx (sto s1) 20 (advance e3)) (es s)).
    destruct (for_pushes_a_frame (PF:=host) cx 20 s 1 e3 9 e5 2
                (state_after (intexpr (PF:=host) cx (sto s1) 20 (advance e5)) (es s)))
      as (Hrun & _);
      [reflexivity|reflexivity|reflexivity|vm_compute; split; [discriminate|reflexivity]
      |reflexivity|reflexivity|vm_compute; reflexivity|reflexivity|vm_compute; reflexivity
      |left; split; vm_compute; reflexivity
      |vm_compute; reflexivity|vm_compute; lia|reflexivity|].
    rewrite Hrun. vm_compute. reflexivity.
  - set (s := entered (boot count_to_three)).
    set (cx := entering (boot count_to_three)).
    set (e3 := state_after (expr (PF:=host) cx (sto s) 20 (advance (advance (advance (es s)))))
                           (es s)).
    set (s1 := set_var_result s 8 1).
    set (e5 := state_after (intexpr (PF:=host) cx (sto s1) 20 (advance e3)) (es s)).
    destruct (for_pushes_a_frame (PF:=host) cx 20 s 1 e3 3 e5 1 e5)
      as (Hrun & _);
      [reflexivity|reflexivity|reflexivity|vm_compute; split; [discriminate|reflexivity]
      |reflexivity|reflexivity|vm_compute; reflexivity|reflexivity|vm_compute; reflexivity
      |right; split; [vm_compute; discriminate|split; reflexivity]
      |vm_compute; reflexivity|vm_compute; lia|reflexivity|].
    rewrite Hrun. vm_compute. reflexivity.
Defined.

(** [10 IF 0 THEN PRINT "A" ELSE PRINT "B"] prints ["B"]. *)
Lemma if_witness :
  option_map (fun s' => stdout (con s'))
    (the_state (if_statement (PF:=host) (entering (boot if_else_line))
                             (statement (PF:=host) (entering (boot if_else_line)) 19) 20
                             (entered (boot if_else_line))))
  = Some (bytes "B" ++ [10]).
Proof.
  set (s := entered (boot if_else_line)).
  set (cx := entering (boot if_else_line)).
  destruct (if_picks_its_branch (PF:=host) cx (statement (PF:=host) cx 19) 20 s (integer 0)
              (state_after (relation (PF:=host) cx (sto s) 20 (advance (es s))) (es s)) 0)
    as (_ & Hfalse);
    [reflexivity|vm_compute; reflexivity|reflexivity|vm_compute; reflexivity|].
  destruct (Hfalse eq_refl [Num 10; K TOKENIZER_IF; Num 0; K TOKENIZER_THEN]
              (K TOKENIZER_PRINT) [Str "A"] (K TOKENIZER_ELSE)
              [K TOKENIZER_PRINT; Str "B"; CR])
    as (Helse & _);
    [reflexivity|reflexivity|discriminate
    |repeat constructor; discriminate|vm_compute; lia|].
  rewrite (Helse eq_refl). vm_compute. reflexivity.
Defined.

(** [10 DATA 1,"A"]: the cursor is on line 20.  [10 DATA 1,A]: the variable
    behind the comma stops the program with "Syntax". *)
Lemma data_witness :
  option_map (fun s' => tokenizer_pos (tz (es s')))
    (the_state (data_statement (entering (boot data_line)) 20 (entered (boot data_line))))
  = Some 6%nat /\
  data_statement (entering (boot data_1_A)) 20 (entered (boot data_1_A))
  = Halt (Exit (Ubasic 10 syntax)).
Proof.
  split.
  - set (s := entered (boot data_line)).
    set (cx := entering (boot data_line)).
    destruct (data_line_is_passed_over cx 20 s) as (Hrun & _); [reflexivity|].
    rewrite (Hrun [Num 10; K TOKENIZER_DATA] (Num 1) [Str "A"] [Num 20; K TOKENIZER_STOP; CR]);
      [vm_compute; reflexivity|reflexivity|reflexivity|by right|
       repeat constructor|vm_compute; lia].
  - set (s := entered (boot data_1_A)).
    set (cx := entering (boot data_1_A)).
    destruct (data_line_is_passed_over cx 20 s) as (_ & _ & Hstop); [reflexivity|].
    rewrite (Hstop [Num 10; K TOKENIZER_DATA] [Num 1] [IntVar 0; CR]);
      [reflexivity|reflexivity|reflexivity|repeat constructor; by right
      |intros [H|H]; discriminate H|vm_compute; lia].
Defined.

(** [10 RESTORE 30]: DATA is read from line 30 on, the cursor is on line 20. *)
Lemma restore_witness :
  exists s',
    restore_statement (PF:=host) (entering (boot restore_30)) 20 (entered (boot restore_30))
      = Done (tt, s') /\
    data_position s' = 7%nat /\ data_seek s' = 1 /\ ptr (tz (es s')) = 4%nat.
Proof.
  set (s := entered (boot restore_30)).
  set (cx := entering (boot restore_30)).
  set (e2 := state_after (intexpr (PF:=host) cx (sto s) 20 (advance (es s))) (es s)).
  destruct (restore_sets_the_data_pointer (PF:=host) cx 20 s) as (_ & Hline);
    [reflexivity|].
  destruct (Hline 30 e2) as (_ & Hjump);
    [discriminate|vm_compute; reflexivity|vm_compute; reflexivity|].
  destruct (Hjump ltac:(discriminate)
              (tokenizer_goto 7 (tokenizer_push (tz (advance e2)))))
    as (s' & Hrun & Hpos & Hseek & Hptr & _);
    [vm_compute; reflexivity|].
  exists s'. split; [exact Hrun|]. split; [exact Hpos|]. split; [exact Hseek|exact Hptr].
Defined.


(** [10 POKE 100,7] calls the hook with 100 and 7. *)
Lemma poke_witness :
  option_map poked
    (the_state (poke_statement (PF:=host) (entering (boot_with_poke poke_100_7)) 20
                               (entered (boot_with_poke poke_100_7))))
  = Some [(100, 7)].
Proof.
  set (s := entered (boot_with_poke poke_100_7)).
  set (cx := entering (boot_with_poke poke_100_7)).
  set (e1 := state_after (intexpr (PF:=host) cx (sto s) 20 (advance (es s))) (es s)).
  rewrite (poke_calls_the_hook (PF:=host) cx 20 s 100 e1 7
             (state_after (intexpr (PF:=host) cx (sto s) 20 (advance e1)) (es s)));
    [vm_compute; reflexivity|reflexivity|vm_compute; reflexivity|reflexivity
    |vm_compute; reflexivity|vm_compute; reflexivity].
Defined.
